(** * recovery.cpp: command resolution, retry ledger, menu loop, wipe flows

    A shallow embedding of the control plane of [recovery.cpp].  The program
    is single threaded and talks to its surroundings (bootloader control
    block, /cache and /tmp files, the UI, the device hooks, the installer)
    through library calls.  Every function of the source becomes a function
    in a state monad over [World]; each call to a collaborator appends an
    [Event] to the trace of the world, in program order, so that statements
    such as "the installer is never invoked" or "the counter is persisted
    before the installer runs" are statements about that trace.

    Outcomes of collaborator calls that the source cannot control (does a
    mount succeed, what does the installer return) are read from an [Env].
    LOG()/PLOG() lines and printf to the redirected stdout are not modelled. *)

From Stdlib Require Import ZArith List Ascii String Bool Lia DecimalString.
From stdpp Require Import base gmap strings list sorting.
Import ListNotations.

Local Open Scope Z_scope.

(** ** Strings as the source uses them *)

(** [android::base::StartsWith(s, prefix)]. *)
Definition StartsWith (s prefix : string) : bool := String.prefix prefix s.

(** [android::base::Split(s, d)] for a one-character delimiter set: the
    pieces between delimiters, empty pieces included; never the empty
    vector. *)
Fixpoint Split (s : string) (d : ascii) : list string :=
  match s with
  | EmptyString => [EmptyString]
  | String c s' =>
      if Ascii.eqb c d then EmptyString :: Split s' d
      else match Split s' d with
           | t :: ts => String c t :: ts
           | [] => [String c EmptyString]
           end
  end.

(** [android::base::Join(v, sep)]. *)
Fixpoint Join (v : list string) (sep : string) : string :=
  match v with
  | [] => ""
  | [x] => x
  | x :: rest => x +:+ sep +:+ Join rest sep
  end.

Definition newline : ascii := "010"%char.
Definition nul : ascii := "000"%char.
Definition NL : string := String newline EmptyString.

(** A C string read out of a [char] array: the bytes before the first NUL. *)
Fixpoint c_str (s : string) : string :=
  match s with
  | EmptyString => EmptyString
  | String c s' => if Ascii.eqb c nul then EmptyString else String c (c_str s')
  end.

(** The string read from an array of [size] chars whose last element has
    been set to NUL. *)
Definition c_str_terminated (size : nat) (a : string) : string :=
  c_str (String.substring 0 (size - 1) a).

(** The test of [get_args] on a token: it is not empty and its first
    character is not NUL. *)
Definition token_kept (t : string) : bool :=
  match t with
  | EmptyString => false
  | String c _ => negb (Ascii.eqb c nul)
  end.

(** [std::to_string(int)] and ["%d"]. *)
Definition to_string (z : Z) : string := NilZero.string_of_int (Z.to_int z).

Definition isspace (c : ascii) : bool :=
  match c with
  | "009" | "010" | "011" | "012" | "013" | " " => true
  | _ => false
  end%char.

Fixpoint trim_left (s : string) : string :=
  match s with
  | EmptyString => EmptyString
  | String c s' => if isspace c then trim_left s' else s
  end.

(** [android::base::Trim]: white space removed at both ends. *)
Definition Trim (s : string) : string :=
  String.rev (trim_left (String.rev (trim_left s))).

Definition tolower (c : ascii) : ascii :=
  let n := nat_of_ascii c in
  if (Nat.leb 65 n && Nat.leb n 90)%bool then ascii_of_nat (n + 32) else c.

(** [strcasecmp(a, b) == 0]. *)
Fixpoint strcaseeq (a b : string) : bool :=
  match a, b with
  | EmptyString, EmptyString => true
  | String x a', String y b' => Ascii.eqb (tolower x) (tolower y) && strcaseeq a' b'
  | _, _ => false
  end.

(** ** Constants of the source *)

Definition CACHE_LOG_DIR : string := "/cache/recovery".
Definition COMMAND_FILE : string := "/cache/recovery/command".
Definition LOG_FILE : string := "/cache/recovery/log".
Definition LAST_INSTALL_FILE : string := "/cache/recovery/last_install".
Definition LOCALE_FILE : string := "/cache/recovery/last_locale".
Definition CONVERT_FBE_DIR : string := "/tmp/convert_fbe".
Definition CONVERT_FBE_FILE : string := "/tmp/convert_fbe/convert_fbe".
Definition CACHE_ROOT : string := "/cache".
Definition DATA_ROOT : string := "/data".
Definition METADATA_ROOT : string := "/metadata".
Definition TEMPORARY_LOG_FILE : string := "/tmp/recovery.log".
Definition TEMPORARY_INSTALL_FILE : string := "/tmp/last_install".
Definition LAST_KMSG_FILE : string := "/cache/recovery/last_kmsg".
Definition LAST_LOG_FILE : string := "/cache/recovery/last_log".
Definition RECOVERY_WIPE : string := "/etc/recovery.wipe".
Definition RETRY_LIMIT : Z := 4.
Definition BATTERY_READ_TIMEOUT_IN_SEC : nat := 10.
Definition BATTERY_OK_PERCENTAGE : Z := 20.
Definition BATTERY_WITH_CHARGER_OK_PERCENTAGE : Z := 15.
Definition AID_SYSTEM : Z := 1000.
Definition bootreason_blacklist : list string := ["kernel_panic"; "Panic"].

(** The cap of [erase_volume] on a saved log, [1 << 19]. *)
Definition LOG_CAP : nat := Z.to_nat (Z.shiftl 1 19).
Arguments LOG_CAP : simpl never.

(** ** Data *)

(** A regular file: content, permission bits, owner and group. *)
Record file := File {
  f_data : string;
  f_mode : Z;
  f_uid : Z;
  f_gid : Z
}.

(** [struct bootloader_message]: the [char] arrays the source reads. *)
Record bootloader_message := BootMsg {
  bm_command : string;
  bm_status : string;
  bm_recovery : string;
  bm_stage : string
}.

(** [bootloader_message boot = {}]. *)
Definition zeroed_message : bootloader_message := BootMsg "" "" "" "".

Definition RECOVERY_FIELD_SIZE : nat := 768.

(** [struct saved_log_file]: the path, the fields of [struct stat] that
    are written back, and the data. *)
Record saved_log_file := SavedLog {
  sl_name : string;
  sl_mode : Z;
  sl_uid : Z;
  sl_gid : Z;
  sl_data : string
}.

(** The install results of install.h. *)
Inductive install_status :=
| INSTALL_SUCCESS | INSTALL_ERROR | INSTALL_CORRUPT | INSTALL_NONE
| INSTALL_SKIPPED | INSTALL_RETRY | INSTALL_UNVERIFIED.

Inductive BuiltinAction :=
| NO_ACTION | REBOOT | SHUTDOWN | REBOOT_RECOVERY | REBOOT_BOOTLOADER.

Inductive ui_icon := ICON_NONE | ICON_ERASING | ICON_ERROR | ICON_NO_COMMAND.
Inductive ui_progress := PROGRESS_EMPTY | PROGRESS_INDETERMINATE.

(** Input events of the UI, [RecoveryUI::InputEvent]. *)
Inductive InputEvent :=
| EVENT_NONE
| EVENT_TOUCH (pos : Z)
| EVENT_KEY (key : Z).

(** Battery readings of the health service. *)
Inductive BatteryStatus :=
| BS_UNKNOWN | BS_CHARGING | BS_DISCHARGING | BS_NOT_CHARGING | BS_FULL.
Record battery_reading := Reading {
  br_status : option BatteryStatus;
  br_capacity : option Z
}.

(** What a block device answers to the ioctls of [secure_wipe_partition]. *)
Record blockdev := BlockDev {
  bd_open_ok : bool;
  bd_size : option Z;
  bd_secdiscard_ok : bool;
  bd_discard_zeroes : option Z;
  bd_discard_ok : bool;
  bd_zeroout_ok : bool
}.

(** The codes [Device::HandleMenuKey] returns for the menu primitives
    (device.h is not part of the sources at hand, so they are taken as
    given; the loop only needs them negative and distinct). *)
Record menu_codes := MenuCodes {
  kNoAction : Z;
  kHighlightUp : Z;
  kHighlightDown : Z;
  kScrollUp : Z;
  kScrollDown : Z;
  kInvokeItem : Z;
  kGoBack : Z;
  kGoHome : Z;
  kRefresh : Z
}.

(** The error codes of otautil/error_code.h used by [main]. *)
Record error_codes := ErrorCodes {
  kLowBattery : Z;
  kBootreasonInBlacklist : Z
}.

(** System calls and library calls that can fail. *)
Inductive io_op :=
| OpMount (path : string)
| OpOpendir (path : string)
| OpMkdir (path : string)
| OpMkdirRec (path : string)
| OpOpenWrite (path : string)
| OpWriteFile (path : string)
| OpUnlink (path : string)
| OpBcbRead
| OpBcbWrite
| OpSetProperty (value : string).

(** Calls to collaborators, as they appear in the trace. *)
Inductive Event :=
| EvReadBcb
| EvUpdateBcb (options : list string)
| EvClearBcb
| EvMount (path : string)
| EvUnmount (path : string)
| EvOpendir (path : string)
| EvReadFile (path : string)
| EvWriteFile (path content : string)
| EvUnlink (path : string)
| EvMkdir (path : string)
| EvMkdirRec (path : string)
| EvRmdir (path : string)
| EvFopen (path : string) (append : bool)
| EvRedraw
| EvVolumesStop
| EvUiStop
| EvFormat (volume : string) (directory : option string)
| EvRotateLogs
| EvPmsgWrite (name content : string)
| EvKlogRead
| EvChmod (path : string) (mode : Z)
| EvChown (path : string) (uid gid : Z)
| EvSync
| EvPrint (text : string)
| EvSetBackground (icon : ui_icon)
| EvSetProgressType (p : ui_progress)
| EvShowText (visible : bool)
| EvFlushKeys
| EvStartMenu (initial_selection : Z)
| EvEndMenu
| EvGoHome
| EvPreWipeData
| EvPostWipeData
| EvBatteryRead
| EvSleep
| EvInstallPackage (path : string) (retry_count : Z)
| EvSetProperty (value : string)
| EvPause
| EvReadWipePackage (size : N)
| EvVerifyPackage
| EvOpenArchive
| EvReadMetadata
| EvOpenBlockDev (partition : string)
| EvIoctl (partition request : string)
| EvWaitInput (e : InputEvent)
| EvSideload
| EvPromptAndWipeData
| EvPromptAndWait (status : install_status).

(** The surroundings of one run: what the collaborators answer. *)
Record Env := mkEnv {
  io_ok : io_op -> bool;
  format_volume_fn :
    string -> option string -> gmap string file -> Z * gmap string file;
  rotate_logs_fn : nat -> gmap string file -> gmap string file;
  klog : option string;
  dev_PreWipeData : bool;
  dev_PostWipeData : bool;
  has_metadata_volume : bool;
  install_package_fn : string -> Z -> bool -> install_status * bool;
  sideload_install_fn : bool -> install_status * bool;
  prompt_and_wait_fn : install_status -> BuiltinAction;
  battery : nat -> battery_reading;
  prop_bootreason : string;
  prop_debuggable : bool;
  prop_quiescent : bool;
  prop_product : string;
  prop_serialno : string;
  wipe_package : N -> option string;
  verify_package_fn : string -> bool;
  archive_metadata : string -> option (option string);
  blockdevs : string -> blockdev;
  codes : menu_codes;
  errors : error_codes;
  HandleMenuKey : Z -> bool -> Z;
  ui_SelectMenu : Z -> Z;
  ui_SelectMenuAt : Z -> Z;
  ui_ScrollMenu : Z -> Z -> Z
}.

(** The program's globals and the state outside the process. *)
Record World := mkWorld {
  locale : string;
  has_cache : bool;
  modified_flash : bool;
  reason : option string;
  stage : string;
  tmplog_offset : nat;
  userdata_mountable : bool;
  userdata_encrypted : bool;
  bcb : bootloader_message;
  files : gmap string file;
  pmsg : list (string * string);
  rotations : nat;
  text_visible : bool;
  text_ever_visible : bool;
  input_queue : list InputEvent;
  trace : list Event
}.

Definition set_modified_flash (b : bool) (w : World) : World :=
  mkWorld (locale w) (has_cache w) b (reason w) (stage w) (tmplog_offset w)
    (userdata_mountable w) (userdata_encrypted w) (bcb w) (files w) (pmsg w)
    (rotations w) (text_visible w) (text_ever_visible w) (input_queue w)
    (trace w).
Definition set_stage (s : string) (w : World) : World :=
  mkWorld (locale w) (has_cache w) (modified_flash w) (reason w) s
    (tmplog_offset w) (userdata_mountable w) (userdata_encrypted w) (bcb w)
    (files w) (pmsg w) (rotations w) (text_visible w) (text_ever_visible w)
    (input_queue w) (trace w).
Definition set_tmplog_offset (n : nat) (w : World) : World :=
  mkWorld (locale w) (has_cache w) (modified_flash w) (reason w) (stage w) n
    (userdata_mountable w) (userdata_encrypted w) (bcb w) (files w) (pmsg w)
    (rotations w) (text_visible w) (text_ever_visible w) (input_queue w)
    (trace w).
Definition set_userdata (mountable encrypted : bool) (w : World) : World :=
  mkWorld (locale w) (has_cache w) (modified_flash w) (reason w) (stage w)
    (tmplog_offset w) mountable encrypted (bcb w) (files w) (pmsg w)
    (rotations w) (text_visible w) (text_ever_visible w) (input_queue w)
    (trace w).
Definition set_bcb (b : bootloader_message) (w : World) : World :=
  mkWorld (locale w) (has_cache w) (modified_flash w) (reason w) (stage w)
    (tmplog_offset w) (userdata_mountable w) (userdata_encrypted w) b
    (files w) (pmsg w) (rotations w) (text_visible w) (text_ever_visible w)
    (input_queue w) (trace w).
Definition set_files (fs : gmap string file) (w : World) : World :=
  mkWorld (locale w) (has_cache w) (modified_flash w) (reason w) (stage w)
    (tmplog_offset w) (userdata_mountable w) (userdata_encrypted w) (bcb w)
    fs (pmsg w) (rotations w) (text_visible w) (text_ever_visible w)
    (input_queue w) (trace w).
Definition set_pmsg (p : list (string * string)) (w : World) : World :=
  mkWorld (locale w) (has_cache w) (modified_flash w) (reason w) (stage w)
    (tmplog_offset w) (userdata_mountable w) (userdata_encrypted w) (bcb w)
    (files w) p (rotations w) (text_visible w) (text_ever_visible w)
    (input_queue w) (trace w).
Definition set_rotations (n : nat) (w : World) : World :=
  mkWorld (locale w) (has_cache w) (modified_flash w) (reason w) (stage w)
    (tmplog_offset w) (userdata_mountable w) (userdata_encrypted w) (bcb w)
    (files w) (pmsg w) n (text_visible w) (text_ever_visible w)
    (input_queue w) (trace w).
Definition set_text_visible (b : bool) (w : World) : World :=
  mkWorld (locale w) (has_cache w) (modified_flash w) (reason w) (stage w)
    (tmplog_offset w) (userdata_mountable w) (userdata_encrypted w) (bcb w)
    (files w) (pmsg w) (rotations w) b (text_ever_visible w || b)
    (input_queue w) (trace w).
Definition set_input_queue (q : list InputEvent) (w : World) : World :=
  mkWorld (locale w) (has_cache w) (modified_flash w) (reason w) (stage w)
    (tmplog_offset w) (userdata_mountable w) (userdata_encrypted w) (bcb w)
    (files w) (pmsg w) (rotations w) (text_visible w) (text_ever_visible w)
    q (trace w).
Definition set_trace (t : list Event) (w : World) : World :=
  mkWorld (locale w) (has_cache w) (modified_flash w) (reason w) (stage w)
    (tmplog_offset w) (userdata_mountable w) (userdata_encrypted w) (bcb w)
    (files w) (pmsg w) (rotations w) (text_visible w) (text_ever_visible w)
    (input_queue w) t.

(** ** The monad: state passing over [World], with parking

    [Parked] is the process that never proceeds: it sits in [pause()] after
    asking for a reboot, or waits for an input event that never comes. *)

Inductive flow (A : Type) : Type :=
| Done (a : A)
| Parked.
Arguments Done {A} a.
Arguments Parked {A}.

Definition M (A : Type) : Type := World -> flow A * World.

Definition ret {A} (a : A) : M A := fun w => (Done a, w).
Definition bind {A B} (m : M A) (k : A -> M B) : M B :=
  fun w => match m w with
           | (Done a, w') => k a w'
           | (Parked, w') => (Parked, w')
           end.

Notation "x <- m ;; k" := (bind m (fun x => k))
  (at level 100, m at next level, right associativity).
Notation "m ;;; k" := (bind m (fun _ => k))
  (at level 100, right associativity).

Definition get {A} (f : World -> A) : M A := fun w => (Done (f w), w).
Definition modify (f : World -> World) : M unit := fun w => (Done tt, f w).
Definition emit (e : Event) : M unit :=
  modify (fun w => set_trace (trace w ++ [e]) w).
Definition when (b : bool) (m : M unit) : M unit := if b then m else ret tt.

(** Run a computation for its state, or for its result. *)
Definition exec {A} (m : M A) (w : World) : World := snd (m w).
Definition eval {A} (m : M A) (w : World) : flow A := fst (m w).

(** The events a computation adds to the trace of [w]. *)
Definition emitted {A} (m : M A) (w : World) : list Event :=
  drop (length (trace w)) (trace (exec m w)).

Fixpoint forM {A} (l : list A) (f : A -> M unit) : M unit :=
  match l with
  | [] => ret tt
  | x :: rest => f x ;;; forM rest f
  end.

(** [s.substr(n)]. *)
Fixpoint substr_from (n : nat) (s : string) : string :=
  match n, s with
  | O, _ => s
  | S n', String _ s' => substr_from n' s'
  | S _, EmptyString => EmptyString
  end.

(** The rest of [s] after [p] when [s] starts with [p]. *)
Fixpoint strip_prefix (p s : string) : option string :=
  match p, s with
  | EmptyString, _ => Some s
  | String a p', String b s' =>
      if Ascii.eqb a b then strip_prefix p' s' else None
  | String _ _, EmptyString => None
  end.

Fixpoint has_slash (s : string) : bool :=
  match s with
  | EmptyString => false
  | String c s' => Ascii.eqb c "/"%char || has_slash s'
  end.

(** [d_name] of the file at [path] when it lies directly in [dir]. *)
Definition dir_entry (dir path : string) : option string :=
  match strip_prefix (dir +:+ "/") path with
  | Some name =>
      if String.eqb name "" || has_slash name then None else Some name
  | None => None
  end.

(** What [readdir] yields for [dir], in the order of the directory. *)
Definition readdir (dir : string) (fs : gmap string file) : list string :=
  omap (fun pf => dir_entry dir (fst pf)) (map_to_list fs).

(** A file created by [fopen] or [open(..., 0666)] under [umask(0)], as
    root. *)
Definition created (data : string) : file := File data 438 0 0.

(** Content replaced, mode and owner kept ([O_TRUNC] on an existing file). *)
Definition rewritten (data : string) (old : option file) : file :=
  match old with
  | Some f => File data (f_mode f) (f_uid f) (f_gid f)
  | None => created data
  end.

(** ** The functions of recovery.cpp *)

Section Recovery.

Context (E : Env).

(** *** Collaborators *)

Definition ensure_path_mounted (path : string) : M bool :=
  emit (EvMount path) ;;; ret (io_ok E (OpMount path)).

Definition ensure_path_unmounted (path : string) : M unit :=
  emit (EvUnmount path).

Definition sync : M unit := emit EvSync.

Definition ui_Print (text : string) : M unit := emit (EvPrint text).

(** [ui->ShowText(v)], as the screen UI keeps it. *)
Definition ui_ShowText (v : bool) : M unit :=
  emit (EvShowText v) ;;; modify (set_text_visible v).

(** [read_bootloader_message(&boot, &err)]; [None] when it fails. *)
Definition read_bootloader_message : M (option bootloader_message) :=
  emit EvReadBcb ;;;
  b <- get bcb ;;
  ret (if io_ok E OpBcbRead then Some b else None).

(** Modelled from the spec: the control-block writer of the
    bootloader_message library, which is not among the sources.  The
    recovery field becomes the marker token and the options, one per line,
    cut to the size of the field; the command field asks the bootloader for
    recovery.  A failed write leaves the block as it was. *)
Definition recovery_field (options : list string) : string :=
  String.substring 0 (RECOVERY_FIELD_SIZE - 1)
    ("recovery" +:+ NL +:+ String.concat "" (map (fun o => o +:+ NL) options)).

Definition update_bootloader_message (options : list string) : M bool :=
  emit (EvUpdateBcb options) ;;;
  if io_ok E OpBcbRead && io_ok E OpBcbWrite then
    modify (fun w =>
      set_bcb (BootMsg "boot-recovery" (bm_status (bcb w))
                 (recovery_field options) (bm_stage (bcb w))) w) ;;;
    ret true
  else ret false.

(** Modelled from the spec: [clear()] writes the normal-boot record. *)
Definition clear_bootloader_message : M bool :=
  emit EvClearBcb ;;;
  if io_ok E OpBcbWrite then modify (set_bcb zeroed_message) ;;; ret true
  else ret false.

(** [android::base::ReadFileToString]. *)
Definition ReadFileToString (path : string) : M (option string) :=
  emit (EvReadFile path) ;;;
  fs <- get files ;;
  ret (f_data <$> fs !! path).

(** [android::base::WriteStringToFile(content, path)]. *)
Definition WriteStringToFile (content path : string) : M bool :=
  emit (EvWriteFile path content) ;;;
  if io_ok E (OpWriteFile path) then
    modify (fun w =>
      set_files (<[path := rewritten content (files w !! path)]> (files w)) w) ;;;
    ret true
  else ret false.

(** [android::base::WriteStringToFile(content, path, mode, owner, group)]. *)
Definition WriteStringToFileAs (content path : string) (mode uid gid : Z)
  : M bool :=
  emit (EvWriteFile path content) ;;;
  if io_ok E (OpWriteFile path) then
    modify (fun w =>
      set_files (<[path := File content mode uid gid]> (files w)) w) ;;;
    ret true
  else ret false.

Definition unlink (path : string) : M bool :=
  emit (EvUnlink path) ;;;
  if io_ok E (OpUnlink path) then
    modify (fun w => set_files (delete path (files w)) w) ;;; ret true
  else ret false.

Definition chmod (path : string) (mode : Z) : M unit :=
  emit (EvChmod path mode) ;;;
  modify (fun w =>
    set_files (alter (fun f => File (f_data f) mode (f_uid f) (f_gid f))
                 path (files w)) w).

Definition chown (path : string) (uid gid : Z) : M unit :=
  emit (EvChown path uid gid) ;;;
  modify (fun w =>
    set_files (alter (fun f => File (f_data f) (f_mode f) uid gid)
                 path (files w)) w).

Definition mkdir (path : string) : M bool :=
  emit (EvMkdir path) ;;; ret (io_ok E (OpMkdir path)).

Definition mkdir_recursively (path : string) : M bool :=
  emit (EvMkdirRec path) ;;; ret (io_ok E (OpMkdirRec path)).

Definition format_volume (volume : string) (directory : option string)
  : M Z :=
  emit (EvFormat volume directory) ;;;
  fs <- get files ;;
  let (rc, fs') := format_volume_fn E volume directory fs in
  modify (set_files fs') ;;; ret rc.

Definition rotate_logs : M unit :=
  emit EvRotateLogs ;;;
  modify (fun w =>
    set_rotations (S (rotations w))
      (set_files (rotate_logs_fn E (rotations w) (files w)) w)).

(** [reboot(command)]: sets the reboot property. *)
Definition reboot (command : string) : M bool :=
  let cmd := if prop_quiescent E then command +:+ ",quiescent" else command in
  emit (EvSetProperty cmd) ;;; ret (io_ok E (OpSetProperty cmd)).

(** [while (true) pause();] *)
Definition pause_forever {A} : M A :=
  fun w => (Parked, set_trace (trace w ++ [EvPause]) w).

(** *** get_args *)

Definition get_args (argv0 : string) (argv_rest : list string)
  : M (list string) :=
  r <- read_bootloader_message ;;
  let boot := match r with Some b => b | None => zeroed_message end in
  modify (set_stage (c_str (bm_stage boot))) ;;;
  let args := argv0 :: argv_rest in
  args <-
    (if Nat.eqb (length args) 1 then
       let boot_recovery :=
         c_str_terminated RECOVERY_FIELD_SIZE (bm_recovery boot) in
       match Split boot_recovery newline with
       | t0 :: rest =>
           if String.eqb t0 "recovery"
           then ret (args ++ filter (fun t => token_kept t = true) rest)
           else ret args
       | [] => ret args
       end
     else ret args) ;;
  hc <- get has_cache ;;
  args <-
    (if Nat.eqb (length args) 1 && hc then
       mounted <- ensure_path_mounted COMMAND_FILE ;;
       if mounted then
         c <- ReadFileToString COMMAND_FILE ;;
         match c with
         | Some content =>
             ret (args ++ filter (fun t => token_kept t = true)
                                 (Split content newline))
         | None => ret args
         end
       else ret args
     else ret args) ;;
  let options := tail args in
  _ <- update_bootloader_message options ;;
  ret args.

(** *** The retry ledger *)

Definition set_retry_bootloader_message (retry_count : Z) (args : list string)
  : M unit :=
  let options :=
    filter (fun arg => StartsWith arg "--retry_count" = false) args in
  let options := options ++ ["--retry_count=" +:+ to_string retry_count] in
  _ <- update_bootloader_message options ;;
  ret tt.

Definition bootreason_in_blacklist : bool :=
  let bootreason := prop_bootreason E in
  if String.eqb bootreason "" then false
  else existsb (fun str => strcaseeq str bootreason) bootreason_blacklist.

Definition log_failure_code (code : Z) (update_package : string) : M unit :=
  let log_buffer := [update_package; "0"; "error: " +:+ to_string code] in
  let log_content := Join log_buffer NL in
  _ <- WriteStringToFile log_content TEMPORARY_INSTALL_FILE ;;
  ret tt.

(** [is_battery_ok]: [remaining] is
    [BATTERY_READ_TIMEOUT_IN_SEC - wait_second]. *)
Fixpoint is_battery_ok_from (remaining wait_second : nat) : M bool :=
  emit EvBatteryRead ;;;
  let r := battery E wait_second in
  let charged :=
    match br_status r with
    | Some BS_DISCHARGING | Some BS_NOT_CHARGING => false
    | _ => true
    end in
  let decide :=
    let capacity := match br_capacity r with Some c => c | None => 100 end in
    ret ((charged && (BATTERY_WITH_CHARGER_OK_PERCENTAGE <=? capacity))
         || (negb charged && (BATTERY_OK_PERCENTAGE <=? capacity))) in
  let fake := match br_capacity r with Some c => c =? 50 | None => false end in
  if fake then
    match remaining with
    | S remaining' =>
        emit EvSleep ;;; is_battery_ok_from remaining' (S wait_second)
    | O => decide
    end
  else decide.

Definition is_battery_ok : M bool :=
  is_battery_ok_from BATTERY_READ_TIMEOUT_IN_SEC 0.

(** *** Logs *)

Definition copy_log_file_to_pmsg (source destination : string) : M unit :=
  c <- ReadFileToString source ;;
  let content := match c with Some s => s | None => "" end in
  emit (EvPmsgWrite destination content) ;;;
  modify (fun w => set_pmsg (pmsg w ++ [(destination, content)]) w).

(** [fopen(path, "a")] and [fopen(path, "w")]: whether the stream opened. *)
Definition fopen_write (path : string) (append : bool) : M bool :=
  emit (EvFopen path append) ;;;
  if io_ok E (OpOpenWrite path) then
    modify (fun w =>
      let old := files w !! path in
      let f := if append
               then match old with Some f => f | None => created "" end
               else rewritten "" old in
      set_files (<[path := f]> (files w)) w) ;;;
    ret true
  else ret false.

(** [fopen_path(path, "ae")] and [fopen_path(path, "we")]. *)
Definition fopen_path_write (path : string) (append : bool) : M bool :=
  mounted <- ensure_path_mounted path ;;
  if negb mounted then ret false
  else
    _ <- mkdir_recursively path ;;
    fopen_write path append.

(** [fwrite] on an open destination. *)
Definition fwrite (path data : string) : M unit :=
  emit (EvWriteFile path data) ;;;
  modify (fun w =>
    set_files (alter (fun f => File (f_data f +:+ data) (f_mode f) (f_uid f)
                                 (f_gid f)) path (files w)) w).

Definition copy_log_file (source destination : string) (append : bool)
  : M unit :=
  opened <- fopen_path_write destination append ;;
  if negb opened then ret tt
  else
    src <- ReadFileToString source ;;
    match src with
    | Some data =>
        off <- get tmplog_offset ;;
        let start := if append then off else O in
        fwrite destination (substr_from start data) ;;;
        when append
          (modify (set_tmplog_offset (Nat.max start (String.length data))))
    | None => ret tt
    end.

Definition save_kernel_log (destination : string) : M unit :=
  emit EvKlogRead ;;;
  match klog E with
  | Some buffer => _ <- WriteStringToFile buffer destination ;; ret tt
  | None => ret tt
  end.

Definition copy_logs : M unit :=
  mf <- get modified_flash ;;
  if negb mf then ret tt
  else
    copy_log_file_to_pmsg TEMPORARY_LOG_FILE LAST_LOG_FILE ;;;
    copy_log_file_to_pmsg TEMPORARY_INSTALL_FILE LAST_INSTALL_FILE ;;;
    hc <- get has_cache ;;
    if negb hc then ret tt
    else
      _ <- ensure_path_mounted LAST_LOG_FILE ;;
      _ <- ensure_path_mounted LAST_KMSG_FILE ;;
      rotate_logs ;;;
      copy_log_file TEMPORARY_LOG_FILE LOG_FILE true ;;;
      copy_log_file TEMPORARY_LOG_FILE LAST_LOG_FILE false ;;;
      copy_log_file TEMPORARY_INSTALL_FILE LAST_INSTALL_FILE false ;;;
      save_kernel_log LAST_KMSG_FILE ;;;
      chmod LOG_FILE 384 ;;;
      chown LOG_FILE AID_SYSTEM AID_SYSTEM ;;;
      chmod LAST_KMSG_FILE 384 ;;;
      chown LAST_KMSG_FILE AID_SYSTEM AID_SYSTEM ;;;
      chmod LAST_LOG_FILE 416 ;;;
      chmod LAST_INSTALL_FILE 420 ;;;
      sync.

(** *** finish_recovery *)

Definition finish_recovery : M unit :=
  loc <- get locale ;;
  hc <- get has_cache ;;
  (if negb (String.eqb loc "") && hc then
     mounted <- ensure_path_mounted LOCALE_FILE ;;
     if negb mounted then ret tt
     else _ <- WriteStringToFile loc LOCALE_FILE ;; ret tt
   else ret tt) ;;;
  copy_logs ;;;
  _ <- clear_bootloader_message ;;
  (if hc then
     mounted <- ensure_path_mounted COMMAND_FILE ;;
     (if mounted then _ <- unlink COMMAND_FILE ;; ret tt else ret tt) ;;;
     ensure_path_unmounted CACHE_ROOT
   else ret tt) ;;;
  sync.

(** *** erase_volume *)

(** [strncmp(d_name, "last_", 5) == 0 || strcmp(d_name, "log") == 0]. *)
Definition is_saved_log_name (d_name : string) : bool :=
  StartsWith d_name "last_" || String.eqb d_name "log".

(** One turn of the [readdir] loop: the entry is kept when its name matches
    and [stat] succeeds; the data is cut to 512 KiB. *)
Definition save_log_entry (fs : gmap string file) (d_name : string)
  : option saved_log_file :=
  if is_saved_log_name d_name then
    let path := CACHE_LOG_DIR +:+ "/" +:+ d_name in
    match fs !! path with
    | Some f =>
        let st_size := Nat.min (String.length (f_data f)) LOG_CAP in
        Some (SavedLog path (f_mode f) (f_uid f) (f_gid f)
                (String.substring 0 st_size (f_data f)))
    | None => None
    end
  else None.

Definition load_log_files (volume : string) : M (list saved_log_file) :=
  _ <- ensure_path_mounted volume ;;
  emit (EvOpendir CACHE_LOG_DIR) ;;;
  if io_ok E (OpOpendir CACHE_LOG_DIR) then
    fs <- get files ;;
    ret (omap (save_log_entry fs) (readdir CACHE_LOG_DIR fs))
  else ret [].

(** The body of the loop that writes the saved logs back. *)
Definition write_log (log : saved_log_file) : M unit :=
  _ <- WriteStringToFileAs (sl_data log) (sl_name log) (sl_mode log)
         (sl_uid log) (sl_gid log) ;;
  ret tt.

(** The part of [erase_volume] after the format, for /cache. *)
Definition restore_log_files (log_files : list saved_log_file) : M unit :=
  mounted <- ensure_path_mounted CACHE_LOG_DIR ;;
  (if mounted then
     made <- mkdir_recursively CACHE_LOG_DIR ;;
     if made then forM log_files write_log else ret tt
   else ret tt) ;;;
  modify (set_tmplog_offset 0).

Definition reason_is (r : option string) (s : string) : bool :=
  match r with
  | Some x => String.eqb x s
  | None => false
  end.

Definition erase_volume (volume : string) : M bool :=
  let is_cache := String.eqb volume CACHE_ROOT in
  let is_data := String.eqb volume DATA_ROOT in
  log_files <- (if is_cache then load_log_files volume else ret []) ;;
  ui_Print ("Formatting " +:+ volume +:+ "..." +:+ NL) ;;;
  emit (EvSetBackground ICON_ERASING) ;;;
  emit (EvSetProgressType PROGRESS_INDETERMINATE) ;;;
  ensure_path_unmounted volume ;;;
  r <- get reason ;;
  let finish (result : Z) : M bool :=
    (if is_cache then restore_log_files log_files ;;; copy_logs
     else ret tt) ;;;
    ret (result =? 0) in
  if is_data && reason_is r "convert_fbe" then
    made <- mkdir CONVERT_FBE_DIR ;;
    if negb made then
      ui_Print "Failed to make convert_fbe dir" ;;; ret true
    else
      f <- fopen_write CONVERT_FBE_FILE false ;;
      if negb f then
        ui_Print "Failed to convert to file encryption" ;;; ret true
      else
        result <- format_volume volume (Some CONVERT_FBE_DIR) ;;
        _ <- unlink CONVERT_FBE_FILE ;;
        emit (EvRmdir CONVERT_FBE_DIR) ;;;
        finish result
  else
    result <- format_volume volume None ;;
    finish result.

(** *** The wipes *)

Definition wipe_data : M bool :=
  modify (set_modified_flash true) ;;;
  ui_Print (NL +:+ "-- Wiping data..." +:+ NL) ;;;
  emit EvPreWipeData ;;;
  let success := dev_PreWipeData E in
  success <-
    (if success then
       r <- erase_volume DATA_ROOT ;;
       let success := success && r in
       hc <- get has_cache ;;
       success <-
         (if hc then r <- erase_volume CACHE_ROOT ;; ret (success && r)
          else ret success) ;;
       if has_metadata_volume E
       then r <- erase_volume METADATA_ROOT ;; ret (success && r)
       else ret success
     else ret success) ;;
  success <-
    (if success then
       emit EvPostWipeData ;;; ret (success && dev_PostWipeData E)
     else ret success) ;;
  when success (modify (set_userdata false false)) ;;;
  ui_Print ("Data wipe " +:+ (if success then "complete" else "failed")
            +:+ "." +:+ NL) ;;;
  ret success.

(** [wipe_cache(false, device)], the call of [main]. *)
Definition wipe_cache : M bool :=
  hc <- get has_cache ;;
  if negb hc then
    ui_Print ("No /cache partition found." +:+ NL) ;;; ret false
  else
    modify (set_modified_flash true) ;;;
    ui_Print (NL +:+ "-- Wiping cache..." +:+ NL) ;;;
    success <- erase_volume "/cache" ;;
    ui_Print ("Cache wipe " +:+ (if success then "complete" else "failed")
              +:+ "." +:+ NL) ;;;
    ret success.

Definition secure_wipe_partition (partition : string) : M bool :=
  let bd := blockdevs E partition in
  emit (EvOpenBlockDev partition) ;;;
  if negb (bd_open_ok bd) then ret false
  else
    emit (EvIoctl partition "BLKGETSIZE64") ;;;
    match bd_size bd with
    | None => ret false
    | Some 0 => ret false
    | Some _ =>
        emit (EvIoctl partition "BLKSECDISCARD") ;;;
        if bd_secdiscard_ok bd then ret true
        else
          emit (EvIoctl partition "BLKDISCARDZEROES") ;;;
          let zeroes :=
            match bd_discard_zeroes bd with
            | Some z => negb (z =? 0)
            | None => false
            end in
          if zeroes then
            emit (EvIoctl partition "BLKDISCARD") ;;;
            ret (bd_discard_ok bd)
          else
            emit (EvIoctl partition "BLKZEROOUT") ;;;
            ret (bd_zeroout_ok bd)
    end.

(** The four flags of the metadata scan of [check_wipe_package]. *)
Record metadata_scan := Scan {
  ota_type_matched : bool;
  device_type_matched : bool;
  has_serial_number : bool;
  serial_number_matched : bool
}.

Definition scan_line (st : metadata_scan) (line : string) : metadata_scan :=
  if String.eqb line "ota-type=BRICK" then
    Scan true (device_type_matched st) (has_serial_number st)
      (serial_number_matched st)
  else if StartsWith line "pre-device=" then
    let device_type := substr_from (String.length "pre-device=") line in
    Scan (ota_type_matched st) (String.eqb device_type (prop_product E))
      (has_serial_number st) (serial_number_matched st)
  else if StartsWith line "serialno=" then
    let serial_no := substr_from (String.length "serialno=") line in
    Scan (ota_type_matched st) (device_type_matched st) true
      (String.eqb serial_no (prop_serialno E))
  else st.

Definition check_metadata (metadata : string) : bool :=
  let st := fold_left scan_line (Split metadata newline)
              (Scan false false false false) in
  ota_type_matched st && device_type_matched st
  && (negb (has_serial_number st) || serial_number_matched st).

Definition check_wipe_package (wipe_package_size : N) : M bool :=
  if N.eqb wipe_package_size 0 then ret false
  else
    emit (EvReadWipePackage wipe_package_size) ;;;
    match wipe_package E wipe_package_size with
    | None => ret false
    | Some package =>
        emit EvVerifyPackage ;;;
        if negb (verify_package_fn E package) then ret false
        else
          emit EvOpenArchive ;;;
          match archive_metadata E package with
          | None => ret false
          | Some m =>
              emit EvReadMetadata ;;;
              match m with
              | None => ret false
              | Some metadata => ret (check_metadata metadata)
              end
          end
    end.

Definition wipe_ab_device (wipe_package_size : N) : M bool :=
  emit (EvSetBackground ICON_ERASING) ;;;
  emit (EvSetProgressType PROGRESS_INDETERMINATE) ;;;
  ok <- check_wipe_package wipe_package_size ;;
  if negb ok then ret false
  else
    l <- ReadFileToString RECOVERY_WIPE ;;
    match l with
    | None => ret false
    | Some partition_list =>
        forM (Split partition_list newline) (fun line =>
          let partition := Trim line in
          if StartsWith partition "#" || String.eqb partition "" then ret tt
          else _ <- secure_wipe_partition partition ;; ret tt) ;;;
        ret true
    end.

(** *** The menu loop *)

(** [ui->WaitInputEvent()]: the next event, or waiting for ever. *)
Definition WaitInputEvent : M InputEvent :=
  fun w =>
    match input_queue w with
    | [] => (Parked, w)
    | e :: q =>
        (Done e, set_trace (trace w ++ [EvWaitInput e]) (set_input_queue q w))
    end.

(** The action of an event, and the selection a touch sets. *)
Definition resolve_action (evt : InputEvent) (selected : Z) : M (Z * Z) :=
  match evt with
  | EVENT_TOUCH pos =>
      let touch_sel := ui_SelectMenuAt E pos in
      if touch_sel <? 0 then ret (touch_sel, selected)
      else ret (kInvokeItem (codes E), touch_sel)
  | EVENT_KEY key =>
      visible <- get text_visible ;;
      ret (HandleMenuKey E key visible, selected)
  | EVENT_NONE => ret (kNoAction (codes E), selected)
  end.

(** The [switch] on a negative action and the [else if (!menu_only)]:
    the new [selected] and [chosen_item]. *)
Definition apply_action (menu_only refreshable : bool)
    (action selected chosen_item : Z) : Z * Z :=
  let c := codes E in
  if action <? 0 then
    if action =? kHighlightUp c then (ui_SelectMenu E (selected - 1), chosen_item)
    else if action =? kHighlightDown c then
      (ui_SelectMenu E (selected + 1), chosen_item)
    else if action =? kScrollUp c then (ui_ScrollMenu E selected (-1), chosen_item)
    else if action =? kScrollDown c then (ui_ScrollMenu E selected 1, chosen_item)
    else if action =? kInvokeItem c then
      (selected, if selected <? 0 then kGoBack c else selected)
    else if action =? kNoAction c then (selected, chosen_item)
    else if action =? kGoBack c then (selected, kGoBack c)
    else if action =? kGoHome c then (selected, kGoHome c)
    else if action =? kRefresh c then
      (selected, if refreshable then kRefresh c else chosen_item)
    else (selected, chosen_item)
  else if negb menu_only then (selected, action)
  else (selected, chosen_item).

Definition is_sentinel (chosen_item : Z) : bool :=
  (chosen_item =? kGoBack (codes E)) || (chosen_item =? kGoHome (codes E))
  || (chosen_item =? kRefresh (codes E)).

(** After the loop: [EndMenu], and [GoHome] for the Home sentinel. *)
Definition end_menu (chosen_item : Z) : M Z :=
  emit EvEndMenu ;;;
  when (chosen_item =? kGoHome (codes E)) (emit EvGoHome) ;;;
  ret chosen_item.

(** [while (chosen_item < 0)], entered with [chosen_item < 0]; every turn
    takes one event, so [fuel] above the length of the queue is never
    used up. *)
Fixpoint menu_loop (fuel : nat) (menu_only refreshable : bool)
    (selected chosen_item : Z) : M Z :=
  match fuel with
  | O => fun w => (Parked, w)
  | S fuel' =>
      evt <- WaitInputEvent ;;
      match evt with
      | EVENT_NONE =>
          shown <- get text_ever_visible ;;
          if shown then menu_loop fuel' menu_only refreshable selected chosen_item
          else emit EvEndMenu ;;; ret (-1)
      | _ =>
          r <- resolve_action evt selected ;;
          let (action, selected) := r in
          let (selected, chosen_item) :=
            apply_action menu_only refreshable action selected chosen_item in
          if is_sentinel chosen_item then end_menu chosen_item
          else if chosen_item <? 0
               then menu_loop fuel' menu_only refreshable selected chosen_item
               else end_menu chosen_item
      end
  end.

Definition get_menu_selection (menu_only : bool) (initial_selection : Z)
    (refreshable : bool) : M Z :=
  emit EvFlushKeys ;;;
  emit (EvStartMenu initial_selection) ;;;
  q <- get input_queue ;;
  menu_loop (S (length q)) menu_only refreshable initial_selection (-1).

(** [do { ... } while (chosen_item == Device::kRefresh)]. *)
Fixpoint yes_no_loop (fuel : nat) : M bool :=
  match fuel with
  | O => fun w => (Parked, w)
  | S fuel' =>
      chosen_item <- get_menu_selection true 0 false ;;
      if chosen_item =? kRefresh (codes E) then yes_no_loop fuel'
      else ret (chosen_item =? 1)
  end.

Definition yes_no : M bool :=
  q <- get input_queue ;; yes_no_loop (S (length q)).

Definition ask_to_wipe_data : M bool := yes_no.

Fixpoint prompt_and_wipe_data_loop (fuel : nat) : M bool :=
  match fuel with
  | O => fun w => (Parked, w)
  | S fuel' =>
      chosen_item <- get_menu_selection true 0 false ;;
      if negb (chosen_item =? 1) then ret true
      else
        yes <- ask_to_wipe_data ;;
        if yes then wipe_data else prompt_and_wipe_data_loop fuel'
  end.

Definition prompt_and_wipe_data : M bool :=
  q <- get input_queue ;; prompt_and_wipe_data_loop (S (length q)).

(** *** main, once the arguments are parsed *)

(** The locals of [main] that [getopt_long] fills. *)
Record options := Options {
  update_package : option string;
  should_wipe_data : bool;
  should_prompt_and_wipe_data : bool;
  should_wipe_cache : bool;
  should_wipe_ab : bool;
  wipe_package_size : N;
  sideload : bool;
  sideload_auto_reboot : bool;
  just_exit : bool;
  shutdown_after : bool;
  retry_count : Z
}.

Definition status_eqb (a b : install_status) : bool :=
  match a, b with
  | INSTALL_SUCCESS, INSTALL_SUCCESS | INSTALL_ERROR, INSTALL_ERROR
  | INSTALL_CORRUPT, INSTALL_CORRUPT | INSTALL_NONE, INSTALL_NONE
  | INSTALL_SKIPPED, INSTALL_SKIPPED | INSTALL_RETRY, INSTALL_RETRY
  | INSTALL_UNVERIFIED, INSTALL_UNVERIFIED => true
  | _, _ => false
  end.

(** The body of [if (status != INSTALL_SUCCESS)]: the retry policy. *)
Definition install_failed (args : list string) (retry_count : Z)
    (status : install_status) : M unit :=
  ui_Print ("Installation aborted." +:+ NL) ;;;
  (if status_eqb status INSTALL_RETRY && (retry_count <? RETRY_LIMIT) then
     copy_logs ;;;
     let retry_count := retry_count + 1 in
     set_retry_bootloader_message retry_count args ;;;
     ui_Print ("Retry attempt " +:+ to_string retry_count +:+ NL) ;;;
     rebooting <- reboot "reboot,recovery" ;;
     if negb rebooting then ui_Print ("Reboot failed" +:+ NL)
     else pause_forever
   else ret tt) ;;;
  when (prop_debuggable E) (ui_ShowText true).

(** The last [else] of the update branch: the install attempt. *)
Definition install_attempt (args : list string) (update_package : string)
    (retry_count : Z) (should_wipe_cache : bool) : M install_status :=
  when (retry_count =? 0)
    (set_retry_bootloader_message (retry_count + 1) args) ;;;
  emit (EvInstallPackage update_package retry_count) ;;;
  let (status, should_wipe_cache) :=
    install_package_fn E update_package retry_count should_wipe_cache in
  (if status_eqb status INSTALL_SUCCESS && should_wipe_cache
   then _ <- wipe_cache ;; ret tt else ret tt) ;;;
  (if negb (status_eqb status INSTALL_SUCCESS)
   then install_failed args retry_count status else ret tt) ;;;
  ret status.

(** The body of [if (update_package != nullptr)]. *)
Definition install_update (args : list string) (update_package : string)
    (retry_count : Z) (should_wipe_cache : bool) : M install_status :=
  modify (set_modified_flash true) ;;;
  battery_ok <- is_battery_ok ;;
  if negb battery_ok then
    ui_Print ("battery capacity is not enough for installing package, needed is "
              +:+ to_string BATTERY_OK_PERCENTAGE +:+ "%" +:+ NL) ;;;
    log_failure_code (kLowBattery (errors E)) update_package ;;;
    ret INSTALL_SKIPPED
  else if bootreason_in_blacklist then
    ui_Print ("bootreason is in the blacklist; skip OTA installation" +:+ NL) ;;;
    log_failure_code (kBootreasonInBlacklist (errors E)) update_package ;;;
    ret INSTALL_SKIPPED
  else install_attempt args update_package retry_count should_wipe_cache.

Definition ok_or_error (ok : bool) : install_status :=
  if ok then INSTALL_SUCCESS else INSTALL_ERROR.

(** The chain of commands of [main]. *)
Definition run_command (o : options) (args : list string) : M install_status :=
  match update_package o with
  | Some package => install_update args package (retry_count o)
                      (should_wipe_cache o)
  | None =>
      if should_wipe_data o then ok <- wipe_data ;; ret (ok_or_error ok)
      else if should_prompt_and_wipe_data o then
        ui_ShowText true ;;;
        emit (EvSetBackground ICON_ERROR) ;;;
        ok <- prompt_and_wipe_data ;;
        ui_ShowText false ;;;
        ret (ok_or_error ok)
      else if should_wipe_cache o then ok <- wipe_cache ;; ret (ok_or_error ok)
      else if should_wipe_ab o then
        ok <- wipe_ab_device (wipe_package_size o) ;; ret (ok_or_error ok)
      else if sideload o then
        when (negb (sideload_auto_reboot o)) (ui_ShowText true) ;;;
        emit EvSideload ;;;
        let (status, wipe) := sideload_install_fn E (should_wipe_cache o) in
        status <-
          (if status_eqb status INSTALL_SUCCESS && wipe then
             ok <- wipe_cache ;; ret (if ok then status else INSTALL_ERROR)
           else ret status) ;;
        ui_Print "Install from ADB complete." ;;;
        when (sideload_auto_reboot o)
          (ui_Print ("Rebooting automatically." +:+ NL)) ;;;
        ret status
      else if negb (just_exit o) then
        ui_ShowText true ;;;
        emit (EvSetBackground ICON_NO_COMMAND) ;;;
        ret INSTALL_NONE
      else ret INSTALL_SUCCESS
  end.

(** The test that sends [main] into [prompt_and_wait]. *)
Definition waits_for_commands (o : options) (status : install_status)
  : M bool :=
  visible <- get text_visible ;;
  ret ((status_eqb status INSTALL_NONE && negb (sideload_auto_reboot o))
       || visible).

(** [main] from [int status = INSTALL_SUCCESS] to its last line.  The
    main menu [prompt_and_wait] is taken for its answer only: a run that
    enters it is followed up to the event [EvPromptAndWait], and what the
    menu does in the source (it finishes the session on every turn, can
    wipe and install, and can wait for input for ever) is not part of
    this definition.  The facts below are about the runs that do not
    enter it. *)
Definition main_from_status (o : options) (args : list string) : M unit :=
  status <- run_command o args ;;
  (if status_eqb status INSTALL_ERROR || status_eqb status INSTALL_CORRUPT then
     emit (EvSetBackground ICON_ERROR) ;;;
     visible <- get text_visible ;;
     if negb visible then emit EvRedraw ;;; emit EvSleep else ret tt
   else ret tt) ;;;
  let after := if shutdown_after o then SHUTDOWN else REBOOT in
  waits <- waits_for_commands o status ;;
  after <-
    (if waits then
       emit (EvPromptAndWait status) ;;;
       match prompt_and_wait_fn E status with
       | NO_ACTION => ret after
       | temp => ret temp
       end
     else ret after) ;;
  finish_recovery ;;;
  emit EvVolumesStop ;;;
  sync ;;;
  emit EvUiStop ;;;
  match after with
  | SHUTDOWN =>
      ui_Print ("Shutting down..." +:+ NL) ;;;
      emit (EvSetProperty "shutdown,") ;;; pause_forever
  | REBOOT_BOOTLOADER =>
      ui_Print ("Rebooting to bootloader..." +:+ NL) ;;;
      emit (EvSetProperty "reboot,bootloader") ;;; pause_forever
  | REBOOT_RECOVERY =>
      ui_Print ("Rebooting to recovery..." +:+ NL) ;;;
      emit (EvSetProperty "reboot,recovery") ;;; pause_forever
  | _ =>
      ui_Print ("Rebooting..." +:+ NL) ;;;
      _ <- reboot "reboot," ;; pause_forever
  end.

End Recovery.

Arguments erase_volume : simpl never.
Arguments copy_logs : simpl never.
Arguments copy_log_file : simpl never.
Arguments restore_log_files : simpl never.
Arguments load_log_files : simpl never.
Arguments wipe_cache : simpl never.
Arguments wipe_data : simpl never.
Arguments finish_recovery : simpl never.
Arguments get_args : simpl never.
Arguments is_battery_ok : simpl never.
Arguments install_update : simpl never.
Arguments install_attempt : simpl never.
Arguments install_failed : simpl never.
Arguments run_command : simpl never.
Arguments check_wipe_package : simpl never.
Arguments wipe_ab_device : simpl never.
Arguments secure_wipe_partition : simpl never.
Arguments get_menu_selection : simpl never.
Arguments set_retry_bootloader_message : simpl never.
Arguments log_failure_code : simpl never.
Arguments recovery_field : simpl never.

(** The value of a [key=value] field of the package metadata: the scan of
    [check_wipe_package] lets a later line override an earlier one, so the
    field is the value of its last line; [None] when no line has the key. *)
Definition metadata_field (key : string) (lines : list string)
  : option string :=
  last (omap (strip_prefix (key +:+ "=")) lines).

(** ** Notions used in the statements *)

(** A computation [runs] under a relation [R] when, from every world, it
    returns (it does not park) and leaves a world related to the first. *)
Definition runs {A} (m : M A) (R : relation World) : Prop :=
  forall w, exists a w', m w = (Done a, w') /\ R w w'.

(** A computation [steps] under [R] when the world it leaves, parked or
    not, is related to the first. *)
Definition steps {A} (m : M A) (R : relation World) : Prop :=
  forall w, R w (exec m w).

(** The relations used below are equalities of observations of the world. *)
Definition same {X} (f : World -> X) : relation World :=
  fun w w' => f w' = f w.

(** Anything may change. *)
Definition any : relation World := fun _ _ => True.

(** The trace only grows, by the events of the computation. *)
Definition grows : relation World :=
  fun w w' => exists l, trace w' = trace w ++ l.

Definition both (R1 R2 : relation World) : relation World :=
  fun w w' => R1 w w' /\ R2 w w'.

Definition field_is (o : option string) (expected : string) : bool :=
  match o with
  | Some v => String.eqb v expected
  | None => false
  end.

(** The globals, the control block and the UI state: what copying logs and
    erasing a volume do not touch. *)
Definition file_effects : relation World :=
  same (fun w => (locale w, has_cache w, modified_flash w, reason w, stage w,
                  userdata_mountable w, userdata_encrypted w, bcb w,
                  text_visible w, text_ever_visible w, input_queue w)).

(** How the branch changes the world besides the files and the logs. *)
Definition traced : relation World := both grows file_effects.

(** The three-line record of [log_failure_code]. *)
Definition failure_record (update_package : string) (code : Z) : string :=
  Join [update_package; "0"; "error: " +:+ to_string code] NL.

(** The pending arguments with the retry token replaced by the one for
    [n]: what [set_retry_bootloader_message n args] hands to the control
    block. *)
Definition persisted (n : Z) (args : list string) : list string :=
  filter (fun arg => StartsWith arg "--retry_count" = false) args
  ++ ["--retry_count=" +:+ to_string n].

(** The control block after a successful write of [options]. *)
Definition written (options : list string) (b : bootloader_message)
  : bootloader_message :=
  BootMsg "boot-recovery" (bm_status b) (recovery_field options) (bm_stage b).

(** What the loop needs of the codes of device.h: the primitives are
    negative, they are distinct (they label one [switch]), and none of the
    three sentinels is the initial [chosen_item], -1. *)
Definition primitives (c : menu_codes) : list Z :=
  [kHighlightUp c; kHighlightDown c; kScrollUp c; kScrollDown c;
   kInvokeItem c; kNoAction c; kGoBack c; kGoHome c; kRefresh c].

Definition codes_wf (c : menu_codes) : Prop :=
  Forall (fun z => z < 0) (primitives c)
  /\ NoDup (primitives c)
  /\ kGoBack c <> -1 /\ kGoHome c <> -1 /\ kRefresh c <> -1.

(** The world once [WaitInputEvent] has handed out the event at the head
    of the queue. *)
Definition after_input (evt : InputEvent) (q : list InputEvent) (w : World)
  : World :=
  set_trace (trace w ++ [EvWaitInput evt]) (set_input_queue q w).

(** The state that [finish_recovery] establishes: the control block, the
    command file and the saved locale, with the globals it reads. *)
Definition finished (w : World)
  : bootloader_message * option file * option file * string * bool * bool :=
  (bcb w, files w !! COMMAND_FILE, files w !! LOCALE_FILE,
   locale w, has_cache w, modified_flash w).

(** The file a saved log is written back as. *)
Definition file_of (log : saved_log_file) : file :=
  File (sl_data log) (sl_mode log) (sl_uid log) (sl_gid log).

(** What is kept of a file: its first 512 KiB, its mode and its owner. *)
Definition capped (f : file) : file :=
  File (String.substring 0 (Nat.min (String.length (f_data f)) LOG_CAP)
          (f_data f))
    (f_mode f) (f_uid f) (f_gid f).

(** The logs [erase_volume] loads from the files of /cache. *)
Definition loaded_logs (fs : gmap string file) : list saved_log_file :=
  omap (save_log_entry fs) (readdir CACHE_LOG_DIR fs).

Section Notions.

Context (E : Env).

Definition scan_of (lines : list string) : metadata_scan :=
  fold_left (scan_line E) lines (Scan false false false false).

Definition bcb_writable : bool := io_ok E OpBcbRead && io_ok E OpBcbWrite.

(** The property [reboot] sets. *)
Definition reboot_property (command : string) : string :=
  if prop_quiescent E then command +:+ ",quiescent" else command.

(** The action of an event does not depend on the world beyond the
    visibility of the text, and resolving it changes nothing. *)
Definition resolved (evt : InputEvent) (selected : Z) (visible : bool)
  : Z * Z :=
  match evt with
  | EVENT_TOUCH pos =>
      let touch_sel := ui_SelectMenuAt E pos in
      if touch_sel <? 0 then (touch_sel, selected)
      else (kInvokeItem (codes E), touch_sel)
  | EVENT_KEY key => (HandleMenuKey E key visible, selected)
  | EVENT_NONE => (kNoAction (codes E), selected)
  end.

(** What the rotation of logs is assumed to leave alone: a file that is
    not a rotated log. *)
Definition rotation_keeps (path : string) : Prop :=
  forall n fs, rotate_logs_fn E n fs !! path = fs !! path.

(** What [finish_recovery] makes of the control block, the command file
    and the saved locale. *)
Definition finish_bcb (b : bootloader_message) : bootloader_message :=
  if io_ok E OpBcbWrite then zeroed_message else b.

Definition finish_command (hc : bool) (c : option file) : option file :=
  if hc && io_ok E (OpMount COMMAND_FILE) && io_ok E (OpUnlink COMMAND_FILE)
  then None else c.

Definition finish_locale (loc : string) (hc : bool) (l : option file)
  : option file :=
  if negb (String.eqb loc "") && hc && io_ok E (OpMount LOCALE_FILE)
     && io_ok E (OpWriteFile LOCALE_FILE)
  then Some (rewritten loc l) else l.

Definition write_back (fs : gmap string file) (log : saved_log_file)
  : gmap string file :=
  if io_ok E (OpWriteFile (sl_name log))
  then <[sl_name log := file_of log]> fs else fs.

End Notions.

(** ** An example environment

    A device on which every call succeeds, used to run the functions on
    concrete inputs. *)

Definition example_codes : menu_codes :=
  MenuCodes (-1) (-2) (-3) (-4) (-5) (-6) (-7) (-8) (-9).

Definition example_errors : error_codes := ErrorCodes 20 23.

(** A format that empties the volume and reports success. *)
Definition example_format (volume : string) (_ : option string)
    (fs : gmap string file) : Z * gmap string file :=
  (0, filter (fun kv => StartsWith (fst kv) (volume +:+ "/") = false) fs).

Definition rename (old new : string) (fs : gmap string file)
  : gmap string file :=
  match fs !! old with
  | Some f => <[new := f]> (delete old fs)
  | None => fs
  end.

(** A rotation that keeps one generation, on the first call only. *)
Definition example_rotate (n : nat) (fs : gmap string file)
  : gmap string file :=
  match n with
  | O => rename LAST_KMSG_FILE (LAST_KMSG_FILE +:+ ".1")
           (rename LAST_LOG_FILE (LAST_LOG_FILE +:+ ".1") fs)
  | S _ => fs
  end.

Definition example_blockdev : blockdev :=
  BlockDev true (Some 4096) true None true true.

Definition example_metadata : string :=
  "ota-type=BRICK" +:+ NL +:+ "pre-device=walleye" +:+ NL +:+ "serialno=HT7A1".

Definition example_env : Env := {|
  io_ok := fun _ => true;
  format_volume_fn := example_format;
  rotate_logs_fn := example_rotate;
  klog := Some "kernel log";
  dev_PreWipeData := true;
  dev_PostWipeData := true;
  has_metadata_volume := true;
  install_package_fn := fun _ _ wipe => (INSTALL_SUCCESS, wipe);
  sideload_install_fn := fun wipe => (INSTALL_SUCCESS, wipe);
  prompt_and_wait_fn := fun _ => NO_ACTION;
  battery := fun _ => Reading (Some BS_CHARGING) (Some 80);
  prop_bootreason := "reboot";
  prop_debuggable := false;
  prop_quiescent := false;
  prop_product := "walleye";
  prop_serialno := "HT7A1";
  wipe_package := fun _ => Some "package";
  verify_package_fn := fun _ => true;
  archive_metadata := fun _ => Some (Some example_metadata);
  blockdevs := fun _ => example_blockdev;
  codes := example_codes;
  errors := example_errors;
  HandleMenuKey := fun key _ => key;
  ui_SelectMenu := fun sel => sel;
  ui_SelectMenuAt := fun pos => pos;
  ui_ScrollMenu := fun sel updown => sel + updown
|}.

Definition example_files : gmap string file :=
  <[RECOVERY_WIPE := File ("# partitions" +:+ NL +:+ "/dev/block/userdata" +:+ NL) 420 0 0]>
  (<[TEMPORARY_LOG_FILE := File "recovery started" 438 0 0]>
  (<[LOG_FILE := File "older log" 384 1000 1000]>
  (<[LAST_LOG_FILE := File "last session" 416 0 0]>
  (<[COMMAND_FILE := File ("--wipe_cache" +:+ NL) 420 1000 1000]> ∅)))).

Definition example_world : World := {|
  locale := "en-US";
  has_cache := true;
  modified_flash := false;
  reason := None;
  stage := "";
  tmplog_offset := 0;
  userdata_mountable := false;
  userdata_encrypted := true;
  bcb := zeroed_message;
  files := example_files;
  pmsg := [];
  rotations := 0;
  text_visible := false;
  text_ever_visible := false;
  input_queue := [];
  trace := []
|}.

(** The same device with an installer that reports a retryable error. *)
Definition with_install
    (f : string -> Z -> bool -> install_status * bool) (e : Env) : Env :=
  mkEnv (io_ok e) (format_volume_fn e) (rotate_logs_fn e) (klog e)
    (dev_PreWipeData e) (dev_PostWipeData e) (has_metadata_volume e) f
    (sideload_install_fn e) (prompt_and_wait_fn e) (battery e)
    (prop_bootreason e) (prop_debuggable e) (prop_quiescent e)
    (prop_product e) (prop_serialno e) (wipe_package e) (verify_package_fn e)
    (archive_metadata e) (blockdevs e) (codes e) (errors e) (HandleMenuKey e)
    (ui_SelectMenu e) (ui_SelectMenuAt e) (ui_ScrollMenu e).

Definition retrying_env : Env :=
  with_install (fun _ _ wipe => (INSTALL_RETRY, wipe)) example_env.

(** The same device with a formatter that fails and changes nothing. *)
Definition with_format
    (f : string -> option string -> gmap string file -> Z * gmap string file)
    (e : Env) : Env :=
  mkEnv (io_ok e) f (rotate_logs_fn e) (klog e)
    (dev_PreWipeData e) (dev_PostWipeData e) (has_metadata_volume e)
    (install_package_fn e)
    (sideload_install_fn e) (prompt_and_wait_fn e) (battery e)
    (prop_bootreason e) (prop_debuggable e) (prop_quiescent e)
    (prop_product e) (prop_serialno e) (wipe_package e) (verify_package_fn e)
    (archive_metadata e) (blockdevs e) (codes e) (errors e) (HandleMenuKey e)
    (ui_SelectMenu e) (ui_SelectMenuAt e) (ui_ScrollMenu e).

Definition failing_format_env : Env :=
  with_format (fun _ _ fs => (1, fs)) example_env.

(** The same device on a nearly empty battery, off the charger. *)
Definition with_battery (b : nat -> battery_reading) (e : Env) : Env :=
  mkEnv (io_ok e) (format_volume_fn e) (rotate_logs_fn e) (klog e)
    (dev_PreWipeData e) (dev_PostWipeData e) (has_metadata_volume e)
    (install_package_fn e)
    (sideload_install_fn e) (prompt_and_wait_fn e) b
    (prop_bootreason e) (prop_debuggable e) (prop_quiescent e)
    (prop_product e) (prop_serialno e) (wipe_package e) (verify_package_fn e)
    (archive_metadata e) (blockdevs e) (codes e) (errors e) (HandleMenuKey e)
    (ui_SelectMenu e) (ui_SelectMenuAt e) (ui_ScrollMenu e).

Definition low_battery_env : Env :=
  with_battery (fun _ => Reading (Some BS_DISCHARGING) (Some 5)) example_env.

Definition set_reason (r : option string) (w : World) : World :=
  mkWorld (locale w) (has_cache w) (modified_flash w) r (stage w)
    (tmplog_offset w) (userdata_mountable w) (userdata_encrypted w) (bcb w)
    (files w) (pmsg w) (rotations w) (text_visible w) (text_ever_visible w)
    (input_queue w) (trace w).

(** The arguments of an update that reached the retry limit. *)
Definition update_args (n : Z) : list string :=
  ["recovery"; "--update_package=/cache/a.zip";
   "--retry_count=" +:+ to_string n].

Definition update_options (n : Z) : options := {|
  update_package := Some "/cache/a.zip";
  should_wipe_data := false;
  should_prompt_and_wipe_data := false;
  should_wipe_cache := false;
  should_wipe_ab := false;
  wipe_package_size := 0;
  sideload := false;
  sideload_auto_reboot := false;
  just_exit := false;
  shutdown_after := false;
  retry_count := n
|}.

(** A control block that holds a pending update at its second retry. *)
Definition pending_update : bootloader_message :=
  BootMsg "boot-recovery" ""
    ("recovery" +:+ NL +:+ "--update_package=/cache/a.zip" +:+ NL
     +:+ "--retry_count=2" +:+ NL)
    "".

Definition is_prompt_event (e : Event) : bool :=
  match e with
  | EvPromptAndWait _ => true
  | _ => false
  end.

Definition is_format_event (e : Event) : bool :=
  match e with
  | EvFormat _ _ => true
  | _ => false
  end.

Definition is_reboot_event (e : Event) : bool :=
  match e with
  | EvSetProperty _ => true
  | _ => false
  end.

(** ** More of recovery.cpp *)

(** *** Where the arguments come from, and the battery *)

(** The arguments the control block supplies: the kept lines after the
    marker line, when the block could be read. *)
Definition bcb_arguments (E : Env) (w : World) : list string :=
  let boot := if io_ok E OpBcbRead then bcb w else zeroed_message in
  match Split (c_str_terminated RECOVERY_FIELD_SIZE (bm_recovery boot)) newline
  with
  | t0 :: rest =>
      if String.eqb t0 "recovery"
      then filter (fun t => token_kept t = true) rest else []
  | [] => []
  end.

(** The arguments the command file supplies: its kept lines, when there is
    a cache volume that mounts and the file can be read. *)
Definition file_arguments (E : Env) (w : World) : list string :=
  if has_cache w && io_ok E (OpMount COMMAND_FILE) then
    match files w !! COMMAND_FILE with
    | Some f => filter (fun t => token_kept t = true) (Split (f_data f) newline)
    | None => []
    end
  else [].

(** The first source that supplies an argument, in the order of the
    source: command line, control block, command file. *)
Definition resolved_arguments (E : Env) (argv_rest : list string) (w : World)
  : list string :=
  match argv_rest with
  | _ :: _ => argv_rest
  | [] =>
      match bcb_arguments E w with
      | (_ :: _) as l => l
      | [] => file_arguments E w
      end
  end.

(** Whether a character occurs in a string. *)
Fixpoint contains (c : ascii) (s : string) : bool :=
  match s with
  | EmptyString => false
  | String x s' => Ascii.eqb x c || contains c s'
  end.

(** Options the recovery field holds whole and hands back unchanged: no
    option is empty or has a line break or a NUL in it, and the marker line
    with the option lines fits the field with its terminator. *)
Definition storable (options : list string) : Prop :=
  Forall (fun o => o <> "" /\ contains newline o = false
                   /\ contains nul o = false) options
  /\ (String.length ("recovery" +:+ NL
                     +:+ String.concat "" (map (fun o => o +:+ NL) options))
      <= RECOVERY_FIELD_SIZE - 1)%nat.

(** The decision of [is_battery_ok] on the reading it settles for. *)
Definition reading_ok (r : battery_reading) : bool :=
  let charged :=
    match br_status r with
    | Some BS_DISCHARGING | Some BS_NOT_CHARGING => false
    | _ => true
    end in
  let capacity := match br_capacity r with Some c => c | None => 100 end in
  (charged && (BATTERY_WITH_CHARGER_OK_PERCENTAGE <=? capacity))
  || (negb charged && (BATTERY_OK_PERCENTAGE <=? capacity)).

(** [k] reads that were each followed by a sleep of a second. *)
Definition waited (k : nat) : list Event :=
  concat (repeat [EvBatteryRead; EvSleep] k).

(** The number of the read [is_battery_ok] settles for: the first one,
    counted from [from], that does not report the capacity 50, and at most
    [remaining] reads later. *)
Fixpoint settles (E : Env) (remaining from : nat) : nat :=
  match br_capacity (battery E from), remaining with
  | Some c, S remaining' =>
      if c =? 50 then settles E remaining' (S from) else from
  | _, _ => from
  end.

(** The reads of the battery and the sleeps among some events. *)
Definition is_battery_event (e : Event) : bool :=
  match e with
  | EvBatteryRead | EvSleep => true
  | _ => false
  end.

Definition battery_events (l : list Event) : list Event :=
  filter (fun e => is_battery_event e = true) l.

(** A string in lower case, as [strcasecmp] compares it. *)
Fixpoint lower (s : string) : string :=
  match s with
  | EmptyString => EmptyString
  | String c s' => String (tolower c) (lower s')
  end.

(** *** The appending copy *)

(** The destination of an appending copy once [data] is written to it: a
    destination that was not there is created. *)
Definition appended (data : string) (old : option file) : file :=
  let o := match old with Some g => g | None => created "" end in
  File (f_data o +:+ data) (f_mode o) (f_uid o) (f_gid o).

(** The session log in /cache, the temporary log and the cursor between
    them, with the two globals [copy_logs] reads. *)
Definition log_state (w : World)
  : option string * option file * nat * bool * bool :=
  (f_data <$> files w !! LOG_FILE, files w !! TEMPORARY_LOG_FILE,
   tmplog_offset w, modified_flash w, has_cache w).

(** [copy_logs] up to the rotation, and after the appending copy. *)
Definition copy_logs_head (E : Env) : M unit :=
  copy_log_file_to_pmsg TEMPORARY_LOG_FILE LAST_LOG_FILE ;;;
  copy_log_file_to_pmsg TEMPORARY_INSTALL_FILE LAST_INSTALL_FILE ;;;
  _ <- ensure_path_mounted E LAST_LOG_FILE ;;
  _ <- ensure_path_mounted E LAST_KMSG_FILE ;;
  rotate_logs E.

Definition copy_logs_tail (E : Env) : M unit :=
  copy_log_file E TEMPORARY_LOG_FILE LAST_LOG_FILE false ;;;
  copy_log_file E TEMPORARY_INSTALL_FILE LAST_INSTALL_FILE false ;;;
  save_kernel_log E LAST_KMSG_FILE ;;;
  chmod LOG_FILE 384 ;;;
  chown LOG_FILE AID_SYSTEM AID_SYSTEM ;;;
  chmod LAST_KMSG_FILE 384 ;;;
  chown LAST_KMSG_FILE AID_SYSTEM AID_SYSTEM ;;;
  chmod LAST_LOG_FILE 416 ;;;
  chmod LAST_INSTALL_FILE 420 ;;;
  sync.

(** *** Events of a kind *)

(** The events of a list that satisfy [P], in their order. *)
Definition only (P : Event -> bool) (l : list Event) : list Event :=
  filter (fun e => P e = true) l.

(** A run is [quiet] about [P] when it adds no event that satisfies [P]
    to the trace. *)
Definition quiet (P : Event -> bool) : relation World :=
  fun w w' => exists l, trace w' = trace w ++ l /\ only P l = [].

(** *** The requests of a secure wipe *)

(** The requests made of a partition among some events, in their order. *)
Definition ioctls_of (partition : string) (l : list Event) : list string :=
  omap (fun e => match e with
                 | EvIoctl p request =>
                     if String.eqb p partition then Some request else None
                 | _ => None
                 end) l.

(** The block devices opened among some events, in their order. *)
Definition opened_devices (l : list Event) : list string :=
  omap (fun e => match e with
                 | EvOpenBlockDev p => Some p
                 | _ => None
                 end) l.

(** Whether the device says that a discard zeroes the blocks. *)
Definition discard_zeroes (bd : blockdev) : bool :=
  match bd_discard_zeroes bd with
  | Some z => negb (z =? 0)
  | None => false
  end.

(** The partitions a wipe list names: its lines, trimmed, without the
    empty ones and the comments. *)
Definition listed_partitions (partition_list : string) : list string :=
  filter (fun p => StartsWith p "#" || String.eqb p "" = false)
    (map Trim (Split partition_list newline)).

(** *** The results of a menu *)

(** What [get_menu_selection] can return: the time-out value, one of the
    sentinels (Refresh only for a refreshable menu), or an item. *)
Definition menu_result (c : menu_codes) (refreshable : bool) (r : Z) : Prop :=
  r = -1 \/ r = kGoBack c \/ r = kGoHome c
  \/ (r = kRefresh c /\ refreshable = true) \/ 0 <= r.

(** How the events of a menu end: with [EndMenu], followed by [GoHome]
    only for the Home sentinel. *)
Definition menu_closed (c : menu_codes) (r : Z) (l : list Event) : Prop :=
  exists front,
    l = front ++ [EvEndMenu]
    \/ (r = kGoHome c /\ l = front ++ [EvEndMenu; EvGoHome]).

(** *** How main ends *)

(** What [main] does last, by the action it settled on: the message it
    prints and the value it sets the reboot property to. *)
Definition last_words (E : Env) (after : BuiltinAction) : string * string :=
  match after with
  | SHUTDOWN => ("Shutting down..." +:+ NL, "shutdown,")
  | REBOOT_BOOTLOADER => ("Rebooting to bootloader..." +:+ NL, "reboot,bootloader")
  | REBOOT_RECOVERY => ("Rebooting to recovery..." +:+ NL, "reboot,recovery")
  | _ => ("Rebooting..." +:+ NL, reboot_property E "reboot,")
  end.

(** The calls that wipe user data: the hooks around the wipe and a format
    of a volume other than /cache. *)
Definition is_data_wipe_event (e : Event) : bool :=
  match e with
  | EvPreWipeData | EvPostWipeData => true
  | EvFormat volume _ => negb (String.eqb volume CACHE_ROOT)
  | _ => false
  end.

(** *** Alternative invocations *)

(** The entry points of the tools that are linked into the binary. *)
Inductive tool_main :=
| reboot_main | pigz_main | miniunz_main | minizip_main | mksh_main | awk_main
| e2fsdroid_main | fsck_f2fs_main | mke2fs_main | e2fsck_main
| resize2fs_main | tune2fs_main | mkfs_f2fs_main | fsck_msdos_main
| mkfs_exfat_main | fsck_exfat_main | fsck_ntfs_main | mkfs_ntfs_main
| mount_ntfs_main | sgdisk_main.

(** [struct recovery_cmd]; [None] is the null pointer. *)
Record recovery_cmd := RecoveryCmd {
  cmd_name : option string;
  main_func : option tool_main
}.

Definition recovery_cmds : list recovery_cmd :=
  [ RecoveryCmd (Some "reboot") (Some reboot_main);
    RecoveryCmd (Some "poweroff") (Some reboot_main);
    RecoveryCmd (Some "gunzip") (Some pigz_main);
    RecoveryCmd (Some "gzip") (Some pigz_main);
    RecoveryCmd (Some "unzip") (Some miniunz_main);
    RecoveryCmd (Some "zip") (Some minizip_main);
    RecoveryCmd (Some "sh") (Some mksh_main);
    RecoveryCmd (Some "awk") (Some awk_main);
    RecoveryCmd (Some "e2fsdroid") (Some e2fsdroid_main);
    RecoveryCmd (Some "e2fsdroid_static") (Some e2fsdroid_main);
    RecoveryCmd (Some "sload.f2fs") (Some fsck_f2fs_main);
    RecoveryCmd (Some "mke2fs") (Some mke2fs_main);
    RecoveryCmd (Some "mke2fs_static") (Some mke2fs_main);
    RecoveryCmd (Some "e2fsck") (Some e2fsck_main);
    RecoveryCmd (Some "fsck.ext4") (Some e2fsck_main);
    RecoveryCmd (Some "mkfs.ext4") (Some mke2fs_main);
    RecoveryCmd (Some "resize2fs") (Some resize2fs_main);
    RecoveryCmd (Some "tune2fs") (Some tune2fs_main);
    RecoveryCmd (Some "mkfs.f2fs") (Some mkfs_f2fs_main);
    RecoveryCmd (Some "fsck.f2fs") (Some fsck_f2fs_main);
    RecoveryCmd (Some "fsck_msdos") (Some fsck_msdos_main);
    RecoveryCmd (Some "mkfs.exfat") (Some mkfs_exfat_main);
    RecoveryCmd (Some "fsck.exfat") (Some fsck_exfat_main);
    RecoveryCmd (Some "fsck.ntfs") (Some fsck_ntfs_main);
    RecoveryCmd (Some "mkfs.ntfs") (Some mkfs_ntfs_main);
    RecoveryCmd (Some "mount.ntfs") (Some mount_ntfs_main);
    RecoveryCmd (Some "sgdisk") (Some sgdisk_main);
    RecoveryCmd None None ].

(** The loop of [get_command] over an array that ends with the entry
    without a name: the first entry named [command], or that last entry. *)
Fixpoint get_command_in (cmds : list recovery_cmd) (command : string)
  : recovery_cmd :=
  match cmds with
  | [] => RecoveryCmd None None
  | c :: rest =>
      match cmd_name c with
      | None => c
      | Some name =>
          if String.eqb command name then c else get_command_in rest command
      end
  end.

Definition get_command (command : string) : recovery_cmd :=
  get_command_in recovery_cmds command.

(** [strrchr(s, '/')], as the rest of [s] after the last slash. *)
Fixpoint strrchr_slash (s : string) : option string :=
  match s with
  | EmptyString => None
  | String c s' =>
      match strrchr_slash s' with
      | Some r => Some r
      | None => if Ascii.eqb c "/"%char then Some s' else None
      end
  end.

(** What [main] turns into before it does anything of recovery. *)
Inductive invocation :=
| RunAdbd                            (* minadbd_main(); return 0 *)
| RunTool (f : option tool_main)     (* return cmd.main_func(argc, argv) *)
| Unhandled                          (* return 1 *)
| RunRecovery.

(** [argc == 2 && strcmp(argv[1], "--adbd") == 0]. *)
Definition is_adbd (argv_rest : list string) : bool :=
  match argv_rest with
  | [a] => String.eqb a "--adbd"
  | _ => false
  end.

(** The top of [main]: the argument --adbd, then the name the binary was
    started under. *)
Definition invoked_as (argv0 : string) (argv_rest : list string)
  : invocation :=
  if is_adbd argv_rest then RunAdbd
  else
    let command :=
      match strrchr_slash argv0 with
      | Some stripped => stripped
      | None => argv0
      end in
    if negb (String.eqb command "recovery") then
      let cmd := get_command command in
      match cmd_name cmd with
      | Some _ => RunTool (main_func cmd)
      | None => Unhandled
      end
    else RunRecovery.

(** The names of a table of commands, up to the entry without a name. *)
Fixpoint cmd_names (cmds : list recovery_cmd) : list string :=
  match cmds with
  | [] => []
  | c :: rest =>
      match cmd_name c with
      | Some name => name :: cmd_names rest
      | None => []
      end
  end.

(** *** The files of /data that a debuggable build looks at *)

Definition fbe_key_version : string := "/data/unencrypted/key/version".

Definition adb_keys_data : string := "/data/misc/adb/adb_keys".

Definition adb_keys_root : string := "/adb_keys".

Definition PATH_MAX : nat := 4096.

Arguments PATH_MAX : simpl never.

(** What can go wrong in [file_copy] besides the two [fopen]: the copy
    loop can stop on an error after some bytes, and the rename can fail. *)
Record copy_faults := CopyFaults {
  copy_stops : string -> string -> option nat;
  rename_ok : string -> string -> bool
}.

(** The mounts and unmounts among the events. *)
Definition is_volume_event (e : Event) : bool :=
  match e with
  | EvMount _ | EvUnmount _ => true
  | _ => false
  end.

Section Userdata.

Context (E : Env) (F : copy_faults).

(** [file_copy(src, dst)], on the files: the result and the files it
    leaves.  The source is open before the temporary file is created or
    cut to nothing, and is read after. *)
Definition file_copy (src dst : string) (fs : gmap string file)
  : bool * gmap string file :=
  let tmpdst := String.substring 0 (PATH_MAX - 1) (dst +:+ ".tmp") in
  let sfp := match fs !! src with Some _ => true | None => false end in
  let dfp := io_ok E (OpOpenWrite tmpdst) in
  let fs := if dfp then <[tmpdst := rewritten "" (fs !! tmpdst)]> fs else fs in
  let copied :=
    if sfp && dfp then
      let data := match fs !! src with Some f => f_data f | None => "" end in
      let write (bytes : string) :=
        alter (fun f => File bytes (f_mode f) (f_uid f) (f_gid f)) tmpdst fs in
      match copy_stops F src tmpdst with
      | None => (true, write data)
      | Some n => (false, write (String.substring 0 n data))
      end
    else (false, fs) in
  let (ret, fs) := copied in
  if ret then
    if rename_ok F tmpdst dst then (true, rename tmpdst dst fs)
    else (false, fs)
  else
    (false, if io_ok E (OpUnlink tmpdst) then delete tmpdst fs else fs).

(** [access(path, F_OK)] and, for root, [access(path, R_OK)]. *)
Definition access (path : string) : M bool :=
  fs <- get files ;;
  ret (match fs !! path with Some _ => true | None => false end).

Definition copy_userdata_files : M unit :=
  mounted <- ensure_path_mounted E "/data" ;;
  if mounted then
    modify (fun w => set_userdata true (userdata_encrypted w) w) ;;;
    version <- access fbe_key_version ;;
    when (negb version)
      (modify (fun w => set_userdata (userdata_mountable w) false w)) ;;;
    root_keys <- access adb_keys_root ;;
    (if negb root_keys then
       data_keys <- access adb_keys_data ;;
       if data_keys then
         modify (fun w =>
           set_files (snd (file_copy adb_keys_data adb_keys_root (files w))) w)
       else ret tt
     else ret tt) ;;;
    ensure_path_unmounted "/data"
  else ret tt.

End Userdata.

(** *** The locale *)

Definition DEFAULT_LOCALE : string := "en-US".

Definition set_locale (l : string) (w : World) : World :=
  mkWorld l (has_cache w) (modified_flash w) (reason w) (stage w)
    (tmplog_offset w) (userdata_mountable w) (userdata_encrypted w) (bcb w)
    (files w) (pmsg w) (rotations w) (text_visible w) (text_ever_visible w)
    (input_queue w) (trace w).

Section Locale.

Context (E : Env).

Definition load_locale_from_cache : M string :=
  mounted <- ensure_path_mounted E LOCALE_FILE ;;
  if negb mounted then ret ""
  else
    content <- ReadFileToString LOCALE_FILE ;;
    match content with
    | None => ret ""
    | Some content => ret (Trim content)
    end.

(** [main], from [if (locale.empty())] to the line before the [printf]
    of the locale. *)
Definition resolve_locale : M unit :=
  loc <- get locale ;;
  if String.eqb loc "" then
    hc <- get has_cache ;;
    (if hc then
       l <- load_locale_from_cache ;; modify (set_locale l)
     else ret tt) ;;;
    loc <- get locale ;;
    when (String.eqb loc "") (modify (set_locale DEFAULT_LOCALE))
  else ret tt.

End Locale.

(** *** The menus of the update from storage *)

(** [android::volmgr::VolumeInfo], the fields read here. *)
Record VolumeInfo := Volume {
  mId : string;
  mLabel : string;
  mPath : string;
  mMountable : bool
}.

(** The loop of [show_apply_update_menu] over the volumes: the volumes it
    keeps and the menu items, which it adds to [items]. *)
Fixpoint offer_volumes (userdata_mountable userdata_encrypted : bool)
    (volumes : list VolumeInfo) (items : list string)
  : list VolumeInfo * list string :=
  match volumes with
  | [] => ([], items)
  | vol :: rest =>
      if negb (mMountable vol) then
        offer_volumes userdata_mountable userdata_encrypted rest items
      else if String.eqb (mLabel vol) "emulated"
              && (negb userdata_mountable || userdata_encrypted) then
        offer_volumes userdata_mountable userdata_encrypted rest items
      else
        let (kept, items) :=
          offer_volumes userdata_mountable userdata_encrypted rest
            (items ++ ["Choose from " +:+ mLabel vol]) in
        (vol :: kept, items)
  end.

(** The volumes and the items of the menu "Apply update" in a world. *)
Definition apply_update_menu (volumes : list VolumeInfo) (w : World)
  : list VolumeInfo * list string :=
  offer_volumes (userdata_mountable w) (userdata_encrypted w) volumes
    ["Apply from ADB"].

(** [struct dirent], the fields read by [browse_directory]. *)
Inductive d_type_t := DT_DIR | DT_REG | DT_OTHER.

Record dirent := Dirent {
  d_name : string;
  d_type : d_type_t
}.

(** [android::base::EndsWithIgnoreCase(s, suffix)]. *)
Definition EndsWithIgnoreCase (s suffix : string) : bool :=
  let n := String.length s in
  let k := String.length suffix in
  Nat.leb k n && strcaseeq (substr_from (n - k) s) suffix.

(** The order of [std::string], as a relation that can be decided. *)
Definition string_le (a b : string) : Prop := String.leb a b = true.

Global Instance string_le_dec : RelDecision string_le.
Proof. intros a b. unfold string_le. apply _. Defined.

(** The [readdir] loop of [browse_directory]: the directories, with a
    slash added, and the packages, after the entry for the parent. *)
Fixpoint browse_entries (entries : list dirent) (dirs zips : list string)
  : list string * list string :=
  match entries with
  | [] => (dirs, zips)
  | de :: rest =>
      let name := d_name de in
      match d_type de with
      | DT_DIR =>
          if String.eqb name "." || String.eqb name ".."
          then browse_entries rest dirs zips
          else browse_entries rest (dirs ++ [name +:+ "/"]) zips
      | DT_REG =>
          if EndsWithIgnoreCase name ".zip"
          then browse_entries rest dirs (zips ++ [name])
          else browse_entries rest dirs zips
      | DT_OTHER => browse_entries rest dirs zips
      end
  end.

(** The items of the menu of [browse_directory]: both lists sorted, the
    directories after the packages. *)
Definition browse_items (entries : list dirent) : list string :=
  let (dirs, zips) := browse_entries entries [] ["../"] in
  merge_sort string_le zips ++ merge_sort string_le dirs.

(** The packages and the directories of a directory, as the menu names
    them, in the order of the directory. *)
Definition listed_zips (entries : list dirent) : list string :=
  omap (fun de =>
          match d_type de with
          | DT_REG =>
              if EndsWithIgnoreCase (d_name de) ".zip" then Some (d_name de)
              else None
          | _ => None
          end) entries.

Definition listed_dirs (entries : list dirent) : list string :=
  omap (fun de =>
          match d_type de with
          | DT_DIR =>
              if String.eqb (d_name de) "." || String.eqb (d_name de) ".."
              then None else Some (d_name de +:+ "/")
          | _ => None
          end) entries.

(** The volumes the menu "Apply update" offers. *)
Definition offered (userdata_mountable userdata_encrypted : bool)
    (vol : VolumeInfo) : bool :=
  mMountable vol
  && negb (String.eqb (mLabel vol) "emulated"
           && (negb userdata_mountable || userdata_encrypted)).

(** *** More of the example device *)

(** The example device without its cache volume. *)
Definition without_cache (w : World) : World :=
  mkWorld (locale w) false (modified_flash w) (reason w) (stage w)
    (tmplog_offset w) (userdata_mountable w) (userdata_encrypted w) (bcb w)
    (files w) (pmsg w) (rotations w) (text_visible w) (text_ever_visible w)
    (input_queue w) (trace w).

(** The options of a wipe of the cache from the command line. *)
Definition wipe_cache_options : options :=
  Options None false false true false 0 false false false false 0.

(** A copy in which nothing fails, and adb keys on /data only. *)
Definition no_fault : copy_faults :=
  CopyFaults (fun _ _ => None) (fun _ _ => true).

Definition keys_on_data : gmap string file :=
  <[adb_keys_data := File "key" 416 0 0]> ∅.


(** * Facts *)

(** ** Strings *)

Lemma strip_prefix_StartsWith (p s : string) :
  StartsWith s p = match strip_prefix p s with Some _ => true | None => false end.
Proof.
  unfold StartsWith. revert s.
  induction p as [|a p IH]; intros [|b s]; simpl; try reflexivity.
  destruct (ascii_dec a b) as [->|Hne].
  - rewrite Ascii.eqb_refl. apply IH.
  - destruct (Ascii.eqb_spec a b); [contradiction|reflexivity].
Qed.

Lemma strip_prefix_substr (p s v : string) :
  strip_prefix p s = Some v -> substr_from (String.length p) s = v.
Proof.
  revert s. induction p as [|a p IH]; intros [|b s]; simpl; try congruence.
  destruct (Ascii.eqb a b); [apply IH|discriminate].
Qed.

Lemma strip_prefix_app (p s v : string) :
  strip_prefix p s = Some v -> s = p +:+ v.
Proof.
  revert s. induction p as [|a p IH]; intros [|b s]; simpl; try congruence.
  - intros [= <-]. reflexivity.
  - intros [= <-]. reflexivity.
  - destruct (Ascii.eqb_spec a b) as [->|]; [|discriminate].
    intros H. change (String b s = String b (p +:+ v)). f_equal. apply IH, H.
Qed.

Lemma strip_prefix_of_app (p v : string) : strip_prefix p (p +:+ v) = Some v.
Proof.
  induction p as [|a p IH]; [reflexivity|].
  change (strip_prefix (String a p) (String a (p +:+ v)) = Some v).
  simpl. rewrite Ascii.eqb_refl. apply IH.
Qed.

(** ** Files *)

Lemma f_data_rewritten (data : string) (old : option file) :
  f_data (rewritten data old) = data.
Proof. now destruct old. Qed.

(** ** The monad *)

Ltac run :=
  unfold emitted in *;
  unfold eval, exec, bind, ret, emit, modify, get, when in *;
  cbn in *.

Section Runs.

Context (R : relation World) `{!PreOrder R}.

Lemma runs_ret {A} (a : A) : runs (ret a) R.
Proof. intros w. exists a, w. split; reflexivity. Qed.

Lemma runs_get {A} (f : World -> A) : runs (get f) R.
Proof. intros w. exists (f w), w. split; reflexivity. Qed.

Lemma runs_modify (f : World -> World) :
  (forall w, R w (f w)) -> runs (modify f) R.
Proof. intros H w. exists tt, (f w). split; [reflexivity|apply H]. Qed.

Lemma runs_bind {A B} (m : M A) (k : A -> M B) :
  runs m R -> (forall a, runs (k a) R) -> runs (bind m k) R.
Proof.
  intros Hm Hk w. destruct (Hm w) as (a & w1 & Em & R1).
  destruct (Hk a w1) as (b & w2 & Ek & R2).
  exists b, w2. unfold bind. rewrite Em. split; [exact Ek|].
  etransitivity; eassumption.
Qed.

Lemma runs_when (b : bool) (m : M unit) : runs m R -> runs (when b m) R.
Proof. destruct b; [auto|intros _; apply runs_ret]. Qed.

Lemma runs_forM {A} (l : list A) (f : A -> M unit) :
  (forall x, runs (f x) R) -> runs (forM l f) R.
Proof.
  intros H. induction l as [|x l IH]; cbn [forM].
  - apply runs_ret.
  - apply runs_bind; [apply H|intros _; exact IH].
Qed.

End Runs.

(** [runs] under a weaker relation. *)
Lemma runs_weaken {A} (m : M A) (R R' : relation World) :
  (forall w w', R w w' -> R' w w') -> runs m R -> runs m R'.
Proof.
  intros H Hm w. destruct (Hm w) as (a & w' & Em & HR).
  exists a, w'. auto.
Qed.

Lemma runs_exec {A} (m : M A) (R : relation World) (w : World) :
  runs m R -> R w (exec m w) /\ exists a, m w = (Done a, exec m w).
Proof.
  intros H. destruct (H w) as (a & w' & Em & HR). unfold exec.
  rewrite Em. split; [exact HR|now exists a].
Qed.

Create HintDb runs.

Ltac head_of t :=
  lazymatch t with
  | ?f _ => head_of f
  | _ => t
  end.

(** One step of a proof of [runs]: follow the structure of the program,
    use what is known about the functions it calls, or unfold the
    function; [side] proves that a state update respects the relation. *)
Ltac runs_step side :=
  cbv beta;
  lazymatch goal with
  | |- runs (ret _) ?R => apply (runs_ret R)
  | |- runs (get _) ?R => apply (runs_get R)
  | |- runs (bind _ _) ?R => apply (runs_bind R); [|intros ?]
  | |- runs (when _ _) ?R => apply (runs_when R)
  | |- runs (forM _ _) ?R => apply (runs_forM R); intros ?
  | |- runs (modify _) ?R => apply (runs_modify R); intros ?; side
  | |- runs (emit _) ?R => apply (runs_modify R); intros ?; side
  | |- runs (if ?b then _ else _) _ => destruct b
  | |- runs (match ?x with _ => _ end) _ => destruct x
  | |- runs (let (_, _) := ?x in _) _ => destruct x
  | |- runs ?m _ =>
      first [ solve [auto 2 with runs]
            | let h := head_of m in unfold h ]
  end.

Ltac runs_with side := repeat (runs_step side).

Section Steps.

Context (R : relation World) `{!PreOrder R}.

Lemma runs_steps {A} (m : M A) : runs m R -> steps m R.
Proof. intros H w. now apply runs_exec. Qed.

Lemma steps_ret {A} (a : A) : steps (ret a) R.
Proof. intros w. reflexivity. Qed.

Lemma steps_get {A} (f : World -> A) : steps (get f) R.
Proof. intros w. reflexivity. Qed.

Lemma steps_modify (f : World -> World) :
  (forall w, R w (f w)) -> steps (modify f) R.
Proof. intros H w. apply H. Qed.

Lemma steps_bind {A B} (m : M A) (k : A -> M B) :
  steps m R -> (forall a, steps (k a) R) -> steps (bind m k) R.
Proof.
  intros Hm Hk w. specialize (Hm w). unfold exec, bind in *.
  destruct (m w) as [[a|] w1]; cbn in *; [|exact Hm].
  etransitivity; [exact Hm|apply Hk].
Qed.

Lemma steps_when (b : bool) (m : M unit) : steps m R -> steps (when b m) R.
Proof. destruct b; [auto|intros _; apply steps_ret]. Qed.

End Steps.

Lemma steps_at {A} (m : M A) (R : relation World) (w : World) :
  steps m R -> R w (exec m w).
Proof. intros H. apply H. Qed.

Create HintDb steps.

Ltac steps_step side :=
  cbv beta;
  lazymatch goal with
  | |- steps (ret _) ?R => apply (steps_ret R)
  | |- steps (get _) ?R => apply (steps_get R)
  | |- steps (bind _ _) ?R => apply (steps_bind R); [|intros ?]
  | |- steps (when _ _) ?R => apply (steps_when R)
  | |- steps (modify _) ?R => apply (steps_modify R); intros ?; side
  | |- steps (emit _) ?R => apply (steps_modify R); intros ?; side
  | |- steps (if ?b then _ else _) _ => destruct b
  | |- steps (match ?x with _ => _ end) _ => destruct x
  | |- steps (let (_, _) := ?x in _) _ => destruct x
  | |- steps ?m ?R =>
      first [ solve [apply (runs_steps R); auto 2 with runs]
            | solve [auto 2 with steps]
            | let h := head_of m in unfold h ]
  end.

Ltac steps_with side := repeat (steps_step side).

Global Instance same_preorder {X} (f : World -> X) : PreOrder (same f).
Proof.
  split; [intros w; reflexivity|].
  intros a b c H1 H2. unfold same in *. congruence.
Qed.

(** The side condition when the observation is not touched at all. *)
Ltac untouched := unfold same; reflexivity.

Global Instance any_preorder : PreOrder any.
Proof. split; [intros w; exact I|intros a b c _ _; exact I]. Qed.

Global Instance grows_preorder : PreOrder grows.
Proof.
  split.
  - intros w. exists []. symmetry. apply app_nil_r.
  - intros a b c [l1 H1] [l2 H2]. exists (l1 ++ l2).
    rewrite H2, H1. symmetry. apply List.app_assoc.
Qed.

Global Instance both_preorder (R1 R2 : relation World)
  `{!PreOrder R1, !PreOrder R2} : PreOrder (both R1 R2).
Proof.
  split.
  - intros w. split; reflexivity.
  - intros a b c [H1 H2] [H3 H4]. split; etransitivity; eassumption.
Qed.

Ltac grown :=
  first [ eexists; cbn; reflexivity
        | exists []; cbn; symmetry; apply app_nil_r ].

Lemma emitted_grows {A} (m : M A) (w : World) (l : list Event) :
  trace (exec m w) = trace w ++ l -> emitted m w = l.
Proof. unfold emitted. intros ->. apply drop_app_length. Qed.

Lemma bind_Done {A B} (m : M A) (k : A -> M B) (w w1 : World) (a : A) :
  m w = (Done a, w1) -> bind m k w = k a w1.
Proof. intros H. unfold bind. now rewrite H. Qed.

Lemma emitted_bind {A B} (m : M A) (k : A -> M B) (w w1 : World) (a : A) :
  m w = (Done a, w1) -> grows w w1 -> grows w1 (exec (k a) w1) ->
  emitted (bind m k) w = emitted m w ++ emitted (k a) w1.
Proof.
  intros Hm [l1 H1] [l2 H2]. unfold emitted, exec, bind in *.
  rewrite Hm. cbn. rewrite H2, H1, <- List.app_assoc, !drop_app_length.
  f_equal. rewrite List.app_assoc. symmetry. apply drop_app_length.
Qed.

Lemma pause_forever_steps {A} : steps (@pause_forever A) grows.
Proof. intros w. now exists [EvPause]. Qed.

Section Facts.

Context (E : Env).

(** ** The A/B wipe *)

(** C10: with a wipe package of size zero the A/B wipe fails at once.  It
    sets the background and the progress type of the UI and nothing else:
    no read of the staging area, no call to the verifier, no read of the
    partition list, no block device opened. *)
Theorem wipe_ab_device_size_zero (w : World) :
  eval (wipe_ab_device E 0) w = Done false
  /\ emitted (wipe_ab_device E 0) w
     = [EvSetBackground ICON_ERASING; EvSetProgressType PROGRESS_INDETERMINATE]
  /\ files (exec (wipe_ab_device E 0) w) = files w
  /\ bcb (exec (wipe_ab_device E 0) w) = bcb w.
Proof.
  unfold wipe_ab_device, check_wipe_package. run.
  repeat split; try reflexivity.
  rewrite <- app_assoc. apply drop_app_length.
Qed.

(** The metadata scan, line by line. *)

Lemma metadata_field_snoc (key : string) (lines : list string) (x : string) :
  metadata_field key (lines ++ [x])
  = match strip_prefix (key +:+ "=") x with
    | Some v => Some v
    | None => metadata_field key lines
    end.
Proof.
  unfold metadata_field. rewrite omap_app. simpl.
  destruct (strip_prefix (key +:+ "=") x) as [v|]; simpl.
  - apply last_snoc.
  - now rewrite app_nil_r.
Qed.

Lemma scan_of_snoc (lines : list string) (x : string) :
  scan_of E (lines ++ [x]) = scan_line E (scan_of E lines) x.
Proof. unfold scan_of. now rewrite fold_left_app. Qed.

Lemma scan_of_spec (lines : list string) :
  ota_type_matched (scan_of E lines)
    = existsb (String.eqb "ota-type=BRICK") lines
  /\ device_type_matched (scan_of E lines)
    = field_is (metadata_field "pre-device" lines) (prop_product E)
  /\ has_serial_number (scan_of E lines)
    = (match metadata_field "serialno" lines with
       | Some _ => true
       | None => false
       end)
  /\ serial_number_matched (scan_of E lines)
    = field_is (metadata_field "serialno" lines) (prop_serialno E).
Proof.
  induction lines as [|x lines IH] using rev_ind; [now cbn|].
  destruct IH as (Ho & Hd & Hh & Hs).
  rewrite scan_of_snoc, existsb_app, !metadata_field_snoc. cbn [existsb].
  rewrite orb_false_r. unfold scan_line.
  destruct (String.eqb_spec x "ota-type=BRICK") as [->|Hx].
  - cbn. rewrite orb_true_r. auto.
  - rewrite (String.eqb_sym _ x).
    destruct (String.eqb_spec x "ota-type=BRICK"); [contradiction|].
    rewrite orb_false_r.
    rewrite !strip_prefix_StartsWith.
    change ("pre-device" +:+ "=") with "pre-device=".
    change ("serialno" +:+ "=") with "serialno=".
    destruct (strip_prefix "pre-device=" x) as [v|] eqn:Hp.
    + pose proof (strip_prefix_substr _ _ _ Hp) as Hv. rewrite Hv.
      assert (Hq : strip_prefix "serialno=" x = None).
      { destruct x as [|c x]; [discriminate|]. cbn [strip_prefix] in Hp |- *.
        destruct (Ascii.eqb_spec "p" c) as [<-|]; [reflexivity|discriminate]. }
      rewrite Hq. cbn. auto.
    + destruct (strip_prefix "serialno=" x) as [v|] eqn:Hq.
      * pose proof (strip_prefix_substr _ _ _ Hq) as Hv. rewrite Hv.
        cbn. auto.
      * cbn. auto.
Qed.

(** What [check_metadata] accepts, exactly: the marker line, a product
    field equal to the product of the device, and no serial field or one
    equal to the serial number of the device. *)
Lemma check_metadata_spec (metadata : string) :
  check_metadata E metadata = true <->
  In "ota-type=BRICK" (Split metadata newline)
  /\ metadata_field "pre-device" (Split metadata newline)
     = Some (prop_product E)
  /\ (metadata_field "serialno" (Split metadata newline) = None
      \/ metadata_field "serialno" (Split metadata newline)
         = Some (prop_serialno E)).
Proof.
  unfold check_metadata. fold (scan_of E (Split metadata newline)).
  destruct (scan_of_spec (Split metadata newline)) as (-> & -> & -> & ->).
  rewrite !andb_true_iff, orb_true_iff, existsb_exists.
  split.
  - intros [[(x & Hin & Hx) Hd] Hs].
    apply String.eqb_eq in Hx. subst x. split; [exact Hin|]. split.
    + destruct (metadata_field "pre-device" _); [|discriminate].
      apply String.eqb_eq in Hd. now subst.
    + destruct (metadata_field "serialno" _); [|now left].
      destruct Hs as [Hs|Hs]; [discriminate|].
      apply String.eqb_eq in Hs. right. now subst.
  - intros (Hin & Hd & Hs). rewrite Hd. cbn [field_is].
    rewrite String.eqb_refl. split; [split|].
    + exists "ota-type=BRICK". split; [exact Hin|apply String.eqb_refl].
    + reflexivity.
    + destruct Hs as [->| ->]; cbn [field_is negb];
        [left; reflexivity|right; apply String.eqb_refl].
Qed.

(** [check_wipe_package] does not touch the state beyond the trace, and
    its answer depends on the environment only. *)
Lemma check_wipe_package_true (size : N) (w : World) :
  eval (check_wipe_package E size) w = Done true ->
  exists package metadata,
    size <> 0%N
    /\ wipe_package E size = Some package
    /\ verify_package_fn E package = true
    /\ archive_metadata E package = Some (Some metadata)
    /\ check_metadata E metadata = true.
Proof.
  unfold check_wipe_package. run.
  destruct (N.eqb_spec size 0); [discriminate|].
  destruct (wipe_package E size) as [package|] eqn:Hp; [|discriminate].
  destruct (verify_package_fn E package) eqn:Hv; [|discriminate]. cbn.
  destruct (archive_metadata E package) as [[metadata|]|] eqn:Ha;
    try discriminate.
  cbn. intros [= H]. exists package, metadata. auto.
Qed.

Lemma wipe_ab_device_true (size : N) (w : World) :
  eval (wipe_ab_device E size) w = Done true ->
  exists w', eval (check_wipe_package E size) w' = Done true.
Proof.
  unfold wipe_ab_device. run.
  set (w' := set_trace _ _).
  intros H. exists w'.
  destruct (check_wipe_package E size w') as [[[|]|] w'']; cbn in *;
    congruence.
Qed.

(** C6: the A/B wipe goes through only for a package that the verifier
    accepts and whose metadata has the line ota-type=BRICK, a product field
    that, being present, equals the product of the device, and a serial
    field that, if present, equals the serial number of the device. *)
Theorem wipe_ab_device_accepts_only_if (size : N) (w : World) :
  eval (wipe_ab_device E size) w = Done true ->
  exists package metadata,
    wipe_package E size = Some package
    /\ verify_package_fn E package = true
    /\ archive_metadata E package = Some (Some metadata)
    /\ In "ota-type=BRICK" (Split metadata newline)
    /\ (forall v, metadata_field "pre-device" (Split metadata newline) = Some v
                  -> v = prop_product E)
    /\ (forall v, metadata_field "serialno" (Split metadata newline) = Some v
                  -> v = prop_serialno E).
Proof.
  intros H. apply wipe_ab_device_true in H as [w' H].
  apply check_wipe_package_true in H
    as (package & metadata & _ & Hp & Hv & Ha & Hm).
  apply check_metadata_spec in Hm as (Hin & Hd & Hs).
  exists package, metadata. repeat split; try assumption.
  - intros v Hv'. congruence.
  - intros v Hv'. destruct Hs; congruence.
Qed.

Lemma secure_wipe_partition_runs (partition : string) :
  runs (secure_wipe_partition E partition) any.
Proof. runs_with ltac:(exact I). Qed.

Lemma wipe_ab_device_runs (size : N) : runs (wipe_ab_device E size) any.
Proof.
  pose proof secure_wipe_partition_runs as Hw.
  unfold wipe_ab_device.
  repeat (first [ apply Hw | runs_step ltac:(exact I) ]).
Qed.

(** A product field that differs from the product of the device makes the
    A/B wipe fail, whatever the verifier says. *)
Lemma wipe_ab_device_rejects_other_product (size : N) (w : World)
    (package metadata v : string) :
  wipe_package E size = Some package ->
  archive_metadata E package = Some (Some metadata) ->
  metadata_field "pre-device" (Split metadata newline) = Some v ->
  v <> prop_product E ->
  eval (wipe_ab_device E size) w = Done false.
Proof.
  intros Hp Ha Hv Hne.
  destruct (wipe_ab_device_runs size w) as ([|] & w' & Hrun & _);
    unfold eval; rewrite Hrun; [|reflexivity]. exfalso.
  assert (Ht : eval (wipe_ab_device E size) w = Done true)
    by (unfold eval; now rewrite Hrun).
  apply wipe_ab_device_true in Ht as [w0 Ht].
  apply check_wipe_package_true in Ht
    as (package' & metadata' & _ & Hp' & _ & Ha' & Hm).
  rewrite Hp in Hp'. injection Hp' as <-.
  rewrite Ha in Ha'. injection Ha' as <-.
  apply check_metadata_spec in Hm as (_ & Hd & _). congruence.
Qed.

(** ** What the file operations leave alone *)

Lemma copy_logs_runs : runs (copy_logs E) file_effects.
Proof. unfold file_effects. runs_with untouched. Qed.

Lemma erase_volume_runs (volume : string) :
  runs (erase_volume E volume) file_effects.
Proof. unfold file_effects. runs_with untouched. Qed.

(** ** wipe_data *)

(** C4: [wipe_data] always returns, and it returns success exactly when
    the pre-wipe hook, the erase of /data, the erase of /cache if there is
    a cache volume, the erase of /metadata if there is a metadata volume,
    and the post-wipe hook all succeed, each erase taken in the state the
    ones before it leave. *)
Theorem wipe_data_success_iff (w : World) :
  let w0 :=
    exec (modify (set_modified_flash true) ;;;
          ui_Print (NL +:+ "-- Wiping data..." +:+ NL) ;;;
          emit EvPreWipeData) w in
  let w1 := exec (erase_volume E DATA_ROOT) w0 in
  let w2 := if has_cache w then exec (erase_volume E CACHE_ROOT) w1 else w1 in
  (exists b, eval (wipe_data E) w = Done b)
  /\ (eval (wipe_data E) w = Done true <->
      dev_PreWipeData E = true
      /\ eval (erase_volume E DATA_ROOT) w0 = Done true
      /\ (has_cache w = true ->
          eval (erase_volume E CACHE_ROOT) w1 = Done true)
      /\ (has_metadata_volume E = true ->
          eval (erase_volume E METADATA_ROOT) w2 = Done true)
      /\ dev_PostWipeData E = true).
Proof.
  intros w0 w1 w2. subst w0 w1 w2. unfold wipe_data. run.
  destruct (dev_PreWipeData E).
  2:{ split; [exists false; reflexivity|].
      split; [discriminate|intros [? _]; discriminate]. }
  match goal with |- context [erase_volume E DATA_ROOT ?x] =>
    destruct (erase_volume_runs DATA_ROOT x) as (b1 & x1 & E1 & F1)
  end.
  rewrite !E1. cbn.
  assert (Hc : has_cache x1 = has_cache w) by (now injection F1).
  rewrite Hc. destruct (has_cache w).
  - destruct (erase_volume_runs CACHE_ROOT x1) as (b2 & x2 & E2 & F2).
    rewrite !E2. cbn. destruct (has_metadata_volume E).
    + destruct (erase_volume_runs METADATA_ROOT x2) as (b3 & x3 & E3 & F3).
      rewrite !E3. cbn.
      destruct b1, b2, b3, (dev_PostWipeData E); cbn;
        (split; [eexists; reflexivity|]); intuition congruence.
    + destruct b1, b2, (dev_PostWipeData E); cbn;
        (split; [eexists; reflexivity|]); intuition congruence.
  - destruct (has_metadata_volume E).
    + destruct (erase_volume_runs METADATA_ROOT x1) as (b3 & x3 & E3 & F3).
      rewrite !E3. cbn.
      destruct b1, b3, (dev_PostWipeData E); cbn;
        (split; [eexists; reflexivity|]); intuition congruence.
    + destruct b1, (dev_PostWipeData E); cbn;
        (split; [eexists; reflexivity|]); intuition congruence.
Qed.

(** ** erase_volume on /data with reason convert_fbe *)

(** C2, as the code has it: with the reason convert_fbe the erase of /data
    makes the breadcrumb directory and file, then formats the volume,
    handing the breadcrumb directory to the formatter, removes the
    breadcrumb again and reports the outcome of the format.  It returns
    success without formatting only when the directory or the file could
    not be made. *)
Theorem erase_data_convert_fbe (w : World) :
  reason w = Some "convert_fbe" ->
  let m := erase_volume E DATA_ROOT in
  let before :=
    [EvPrint ("Formatting " +:+ DATA_ROOT +:+ "..." +:+ NL);
     EvSetBackground ICON_ERASING; EvSetProgressType PROGRESS_INDETERMINATE;
     EvUnmount DATA_ROOT; EvMkdir CONVERT_FBE_DIR] in
  if io_ok E (OpMkdir CONVERT_FBE_DIR) then
    if io_ok E (OpOpenWrite CONVERT_FBE_FILE) then
      let fs := <[CONVERT_FBE_FILE := rewritten "" (files w !! CONVERT_FBE_FILE)]>
                  (files w) in
      eval m w
      = Done (fst (format_volume_fn E DATA_ROOT (Some CONVERT_FBE_DIR) fs) =? 0)
      /\ emitted m w
         = before ++ [EvFopen CONVERT_FBE_FILE false;
                      EvFormat DATA_ROOT (Some CONVERT_FBE_DIR);
                      EvUnlink CONVERT_FBE_FILE; EvRmdir CONVERT_FBE_DIR]
    else
      eval m w = Done true
      /\ emitted m w
         = before ++ [EvFopen CONVERT_FBE_FILE false;
                      EvPrint "Failed to convert to file encryption"]
  else
    eval m w = Done true
    /\ emitted m w = before ++ [EvPrint "Failed to make convert_fbe dir"].
Proof.
  intros Hr m before. subst m before.
  unfold erase_volume, mkdir, fopen_write, format_volume, unlink,
    ensure_path_unmounted, ui_Print.
  run. rewrite Hr. cbn.
  destruct (io_ok E (OpMkdir CONVERT_FBE_DIR)); cbn.
  - destruct (io_ok E (OpOpenWrite CONVERT_FBE_FILE)); cbn.
    + destruct (format_volume_fn E DATA_ROOT (Some CONVERT_FBE_DIR) _)
        as [rc fs'] eqn:Hf.
      cbn. destruct (io_ok E (OpUnlink CONVERT_FBE_FILE)); cbn;
        (split; [reflexivity|]);
        rewrite <- !List.app_assoc; apply drop_app_length.
    + split; [reflexivity|].
      rewrite <- !List.app_assoc. apply drop_app_length.
  - split; [reflexivity|].
    rewrite <- !List.app_assoc. apply drop_app_length.
Qed.

(** ** The install branch of main *)

Ltac traced_side := split; [grown|untouched].

Lemma copy_logs_traced : runs (copy_logs E) traced.
Proof. unfold traced, file_effects. runs_with traced_side. Qed.

(** The battery check reads the health service and sleeps; its answer
    does not depend on the world. *)
Lemma is_battery_ok_from_run (remaining wait_second : nat) :
  exists b l, forall w,
    is_battery_ok_from E remaining wait_second w
    = (Done b, set_trace (trace w ++ l) w)
    /\ Forall (fun e => e = EvBatteryRead \/ e = EvSleep) l.
Proof.
  revert wait_second.
  induction remaining as [|n IH]; intros ws; cbn [is_battery_ok_from].
  - destruct (match br_capacity (battery E ws) with
              | Some c => c =? 50 | None => false end);
      eexists; exists [EvBatteryRead]; intros w; (split; [reflexivity|]);
      repeat constructor.
  - destruct (match br_capacity (battery E ws) with
              | Some c => c =? 50 | None => false end).
    + destruct (IH (S ws)) as (b & l & H).
      exists b, (EvBatteryRead :: EvSleep :: l). intros w.
      run. destruct (H (set_trace ((trace w ++ [EvBatteryRead]) ++ [EvSleep])
                          (set_trace (trace w ++ [EvBatteryRead]) w)))
        as [-> HF].
      split.
      * cbn. rewrite <- !List.app_assoc. reflexivity.
      * auto.
    + eexists; exists [EvBatteryRead]; intros w; (split; [reflexivity|]);
        repeat constructor.
Qed.

Lemma is_battery_ok_run :
  exists b l, forall w,
    is_battery_ok E w = (Done b, set_trace (trace w ++ l) w)
    /\ Forall (fun e => e = EvBatteryRead \/ e = EvSleep) l.
Proof. apply is_battery_ok_from_run. Qed.

(** C8: when the battery check fails or the boot reason is blacklisted,
    the update branch returns INSTALL_SKIPPED, never calls the installer,
    and its last act is to write the three-line failure record (package
    path, 0, error: code) to the install log. *)
Theorem install_update_skipped (args : list string) (package : string)
    (retry_count : Z) (wipe : bool) (w : World) :
  eval (is_battery_ok E) w = Done false \/ bootreason_in_blacklist E = true ->
  let m := install_update E args package retry_count wipe in
  let code :=
    match eval (is_battery_ok E) w with
    | Done false => kLowBattery (errors E)
    | _ => kBootreasonInBlacklist (errors E)
    end in
  eval m w = Done INSTALL_SKIPPED
  /\ (forall p n, ~ In (EvInstallPackage p n) (emitted m w))
  /\ (exists front,
        emitted m w
        = front ++ [EvWriteFile TEMPORARY_INSTALL_FILE
                      (failure_record package code)])
  /\ (io_ok E (OpWriteFile TEMPORARY_INSTALL_FILE) = true ->
      f_data <$> files (exec m w) !! TEMPORARY_INSTALL_FILE
      = Some (failure_record package code)).
Proof.
  destruct is_battery_ok_run as (b & l & H).
  intros Hskip m code. subst m code.
  unfold install_update, log_failure_code, WriteStringToFile, ui_Print. run.
  destruct (H w) as [Hw HF]. rewrite Hw in *. cbn in *.
  destruct (H (set_modified_flash true w)) as [-> _]. cbn.
  assert (Hno : forall p n front tail,
             Forall (fun e => e = EvBatteryRead \/ e = EvSleep) front ->
             ~ In (EvInstallPackage p n) tail ->
             ~ In (EvInstallPackage p n) (front ++ tail)).
  { intros p n front tail Hf Ht Hin. apply in_app_or in Hin as [Hin|Hin];
      [|auto].
    rewrite Forall_forall in Hf. apply list_elem_of_In, Hf in Hin.
    destruct Hin; discriminate. }
  destruct b; cbn.
  - destruct Hskip as [Hb|Hb]; [discriminate|]. rewrite Hb. cbn.
    set (rec := failure_record package (kBootreasonInBlacklist (errors E))).
    fold rec.
    destruct (io_ok E (OpWriteFile TEMPORARY_INSTALL_FILE)); cbn;
      rewrite <- !List.app_assoc, drop_app_length;
      (split; [reflexivity|]); (split; [|split]).
    all: try (intros p n; apply Hno; [exact HF|];
              cbn; intros [?|[?|[]]]; discriminate).
    all: try (eexists (l ++ [_]); rewrite <- List.app_assoc; reflexivity).
    + intros _. rewrite lookup_insert_eq. cbn. now rewrite f_data_rewritten.
    + discriminate.
  - set (rec := failure_record package (kLowBattery (errors E))).
    fold rec.
    destruct (io_ok E (OpWriteFile TEMPORARY_INSTALL_FILE)); cbn;
      rewrite <- !List.app_assoc, drop_app_length;
      (split; [reflexivity|]); (split; [|split]).
    all: try (intros p n; apply Hno; [exact HF|];
              cbn; intros [?|[?|[]]]; discriminate).
    all: try (eexists (l ++ [_]); rewrite <- List.app_assoc; reflexivity).
    + intros _. rewrite lookup_insert_eq. cbn. now rewrite f_data_rewritten.
    + discriminate.
Qed.

(** *** The retry ledger *)

Lemma set_retry_bootloader_message_run (n : Z) (args : list string)
    (w : World) :
  set_retry_bootloader_message E n args w
  = (Done tt,
     (if bcb_writable E then set_bcb (written (persisted n args) (bcb w))
      else fun w' => w')
       (set_trace (trace w ++ [EvUpdateBcb (persisted n args)]) w)).
Proof.
  unfold set_retry_bootloader_message, update_bootloader_message,
    bcb_writable. run. fold (persisted n args).
  destruct (io_ok E OpBcbRead && io_ok E OpBcbWrite); reflexivity.
Qed.

Lemma set_retry_bootloader_message_grows (n : Z) (args : list string) :
  runs (set_retry_bootloader_message E n args) grows.
Proof. runs_with grown. Qed.

Lemma copy_logs_grows : runs (copy_logs E) grows.
Proof. runs_with grown. Qed.

Lemma wipe_cache_grows : runs (wipe_cache E) grows.
Proof. runs_with grown. Qed.

Hint Resolve set_retry_bootloader_message_grows copy_logs_grows
  wipe_cache_grows : runs.
Hint Resolve pause_forever_steps : steps.

Lemma install_failed_steps (args : list string) (n : Z)
    (status : install_status) :
  steps (install_failed E args n status) grows.
Proof. steps_with grown. Qed.

Hint Resolve install_failed_steps : steps.

Lemma install_attempt_steps (args : list string) (package : string) (n : Z)
    (wipe : bool) :
  steps (install_attempt E args package n wipe) grows.
Proof. steps_with grown. Qed.

Lemma emitted_emit (e : Event) (w : World) : emitted (emit e) w = [e].
Proof. apply emitted_grows. reflexivity. Qed.

Lemma emitted_set_retry (n : Z) (args : list string) (w : World) :
  emitted (set_retry_bootloader_message E n args) w
  = [EvUpdateBcb (persisted n args)].
Proof.
  apply emitted_grows. unfold exec.
  rewrite set_retry_bootloader_message_run.
  destruct (bcb_writable E); reflexivity.
Qed.

(** With a fresh counter the first two events of the attempt are the
    write of counter 1 and the call of the installer. *)
Lemma install_attempt_fresh (args : list string) (package : string)
    (wipe : bool) (w : World) :
  exists rest,
    emitted (install_attempt E args package 0 wipe) w
    = EvUpdateBcb (persisted 1 args) :: EvInstallPackage package 0 :: rest.
Proof.
  unfold install_attempt. change (0 =? 0) with true. cbn [when].
  change (0 + 1) with 1.
  pose proof (set_retry_bootloader_message_run 1 args w) as H1.
  set (w1 := (if bcb_writable E then _ else _) _) in H1.
  assert (G1 : grows w w1) by (subst w1; destruct (bcb_writable E); grown).
  erewrite emitted_bind; [|exact H1|exact G1|].
  2:{ apply (steps_bind grows); [intros ?; grown|intros _].
      destruct (install_package_fn E package 0 wipe) as [status wipe'].
      steps_with grown. }
  rewrite emitted_set_retry.
  erewrite emitted_bind; [|reflexivity|grown|].
  2:{ apply steps_at.
      destruct (install_package_fn E package 0 wipe) as [status wipe'].
      steps_with grown. }
  rewrite emitted_emit. eexists. reflexivity.
Qed.

(** The retry itself: write the counter, print it, ask for the reboot,
    and park if the request went through. *)
Lemma retry_reboot_run (args : list string) (n : Z) (w : World) :
  let m :=
    (set_retry_bootloader_message E n args ;;;
     ui_Print ("Retry attempt " +:+ to_string n +:+ NL) ;;;
     rebooting <- reboot E "reboot,recovery" ;;
     if negb rebooting then ui_Print ("Reboot failed" +:+ NL)
     else pause_forever) in
  let property := reboot_property E "reboot,recovery" in
  let ok := io_ok E (OpSetProperty property) in
  eval m w = (if ok then Parked else Done tt)
  /\ trace (exec m w)
     = trace w ++ [EvUpdateBcb (persisted n args);
                   EvPrint ("Retry attempt " +:+ to_string n +:+ NL);
                   EvSetProperty property]
               ++ [if ok then EvPause else EvPrint ("Reboot failed" +:+ NL)]
  /\ bcb (exec m w)
     = (if bcb_writable E then written (persisted n args) (bcb w) else bcb w)
  /\ text_visible (exec m w) = text_visible w.
Proof.
  intros m property ok. subst m property ok.
  unfold eval, exec, reboot, ui_Print, reboot_property, pause_forever.
  unfold bind. rewrite !set_retry_bootloader_message_run.
  destruct (bcb_writable E); run;
    destruct (io_ok E (OpSetProperty _)); cbn;
    rewrite <- ?List.app_assoc; auto.
Qed.

(** A Retry result below the limit: the counter plus one is written with
    the pending arguments, and the reboot into recovery is asked for. *)
Lemma install_attempt_retry (args : list string) (package : string)
    (n : Z) (wipe : bool) (w : World) :
  fst (install_package_fn E package n wipe) = INSTALL_RETRY ->
  n < RETRY_LIMIT ->
  let m := install_attempt E args package n wipe in
  let property := reboot_property E "reboot,recovery" in
  exists front back,
    emitted m w
    = front ++ [EvUpdateBcb (persisted (n + 1) args);
                EvPrint ("Retry attempt " +:+ to_string (n + 1) +:+ NL);
                EvSetProperty property] ++ back
    /\ (forall p k, ~ In (EvInstallPackage p k) back)
    /\ (io_ok E (OpSetProperty property) = true ->
        eval m w = Parked /\ back = [EvPause])
    /\ (bcb_writable E = true ->
        bcb (exec m w) = written (persisted (n + 1) args) (bcb w)).
Proof.
  intros Hs Hn m property. subst m property.
  unfold install_attempt, install_failed.
  destruct (install_package_fn E package n wipe) as [status wipe'].
  cbn in Hs. subst status. cbn [status_eqb andb negb].
  apply Z.ltb_lt in Hn. rewrite Hn.
  set (retry := bind (set_retry_bootloader_message E (n + 1) args) _).
  pose proof (retry_reboot_run args (n + 1)) as Hretry.
  cbv zeta in Hretry. fold retry in Hretry.
  set (property := reboot_property E "reboot,recovery") in *.
  set (first_write := when (n =? 0) _).
  assert (Hfirst : exists l, forall v,
             first_write v
             = (Done tt, (if (n =? 0) && bcb_writable E
                          then set_bcb (written (persisted (n + 1) args) (bcb v))
                          else fun w' => w')
                           (set_trace (trace v ++ l) v))
             /\ forall p k, ~ In (EvInstallPackage p k) l).
  { subst first_write. destruct (n =? 0); cbn [when andb].
    - exists [EvUpdateBcb (persisted (n + 1) args)]. intros v.
      rewrite set_retry_bootloader_message_run. split; [reflexivity|].
      intros p k [?|[]]; discriminate.
    - exists []. intros v. split.
      + unfold ret. rewrite app_nil_r. now destruct v.
      + intros p k []. }
  destruct Hfirst as (l1 & Hfirst).
  destruct (Hfirst w) as [H1 Hno1].
  clearbody retry first_write. clear Hfirst.
  unfold emitted, eval, exec, ui_Print, ui_ShowText.
  unfold bind, emit, modify, ret, when. rewrite !H1.
  set (w1 := (if (n =? 0) && bcb_writable E then _ else _) _).
  assert (Ht1 : trace w1 = trace w ++ l1)
    by (subst w1; destruct ((n =? 0) && bcb_writable E); reflexivity).
  assert (Hb1 : bcb_writable E = true ->
                written (persisted (n + 1) args) (bcb w1)
                = written (persisted (n + 1) args) (bcb w)).
  { intros Hw. subst w1. rewrite Hw, andb_true_r.
    destruct (n =? 0); reflexivity. }
  clearbody w1. cbn.
  match goal with |- context [copy_logs E ?x] =>
    destruct (copy_logs_traced x) as (u & w3 & E3 & [[lc Hl] Hf])
  end.
  rewrite !E3. cbn in Hl.
  assert (Hb3 : bcb w3 = bcb w1) by (now injection Hf).
  destruct (Hretry w3) as (Hr1 & Hr2 & Hr3 & _).
  unfold eval, exec in Hr1, Hr2, Hr3.
  destruct (retry w3) as [r w5]. cbn in Hr1, Hr2, Hr3. subst r.
  set (front := l1 ++ [EvInstallPackage package n;
                       EvPrint ("Installation aborted." +:+ NL)] ++ lc).
  assert (Hbcb : bcb_writable E = true ->
                 bcb w5 = written (persisted (n + 1) args) (bcb w)).
  { intros Hw. rewrite Hr3, Hw, Hb3. apply Hb1, Hw. }
  destruct (io_ok E (OpSetProperty property)) eqn:Hok.
  - exists front, [EvPause]. cbn. rewrite Hr2, Hl, Ht1.
    rewrite <- !List.app_assoc, drop_app_length.
    split; [subst front; rewrite <- ?List.app_assoc; reflexivity|]. split; [intros p k [?|[]]; discriminate|].
    split; [intros _; split; reflexivity|exact Hbcb].
  - destruct (prop_debuggable E); cbn.
    + exists front, [EvPrint ("Reboot failed" +:+ NL); EvShowText true].
      rewrite Hr2, Hl, Ht1. rewrite <- !List.app_assoc, drop_app_length.
      split; [subst front; rewrite <- ?List.app_assoc; reflexivity|].
      split; [intros p k [?|[?|[]]]; discriminate|].
      split; [discriminate|exact Hbcb].
    + exists front, [EvPrint ("Reboot failed" +:+ NL)].
      rewrite Hr2, Hl, Ht1. rewrite <- !List.app_assoc, drop_app_length.
      split; [subst front; rewrite <- ?List.app_assoc; reflexivity|].
      split; [intros p k [?|[]]; discriminate|].
      split; [discriminate|exact Hbcb].
Qed.

(** A Retry result at the limit: nothing is written, no reboot is asked
    for, and the attempt returns INSTALL_RETRY to [main]. *)
Lemma install_attempt_retry_limit (args : list string) (package : string)
    (n : Z) (wipe : bool) (w : World) :
  fst (install_package_fn E package n wipe) = INSTALL_RETRY ->
  RETRY_LIMIT <= n ->
  let m := install_attempt E args package n wipe in
  eval m w = Done INSTALL_RETRY
  /\ emitted m w
     = [EvInstallPackage package n; EvPrint ("Installation aborted." +:+ NL)]
       ++ (if prop_debuggable E then [EvShowText true] else [])
  /\ bcb (exec m w) = bcb w
  /\ text_visible (exec m w) = prop_debuggable E || text_visible w.
Proof.
  intros Hs Hn m. subst m. unfold install_attempt, install_failed.
  destruct (install_package_fn E package n wipe) as [status wipe'].
  cbn in Hs. subst status. cbn [status_eqb andb negb].
  assert (H0 : (n =? 0) = false) by (unfold RETRY_LIMIT in Hn; lia).
  assert (H4 : (n <? RETRY_LIMIT) = false) by lia.
  rewrite H0, H4. unfold ui_Print, ui_ShowText. run.
  destruct (prop_debuggable E); cbn;
    rewrite <- ?List.app_assoc, drop_app_length; auto.
Qed.

(** After a status other than INSTALL_NONE, [main] waits for commands
    exactly when the text is visible. *)
Lemma waits_for_commands_retry (o : options) (w : World) :
  waits_for_commands o INSTALL_RETRY w = (Done (text_visible w), w).
Proof. reflexivity. Qed.


(** The update branch reaches the attempt when the battery is good and
    the boot reason is not blacklisted. *)
Lemma install_update_proceeds (args : list string) (package : string)
    (n : Z) (wipe : bool) (w : World) :
  eval (is_battery_ok E) w = Done true ->
  bootreason_in_blacklist E = false ->
  install_update E args package n wipe w
  = install_attempt E args package n wipe
      (exec (is_battery_ok E) (set_modified_flash true w)).
Proof.
  destruct is_battery_ok_run as (b & l & H).
  intros Hb Hr. unfold install_update. run.
  destruct (H w) as [Hw _]. rewrite Hw in Hb. cbn in Hb.
  injection Hb as ->.
  destruct (H (set_modified_flash true w)) as [-> _]. cbn.
  now rewrite Hr.
Qed.

(** ** get_args *)

(** C3: no argument on the command line, and a control block whose
    recovery field is the marker token followed by lines of which at least
    one is kept.  Then the arguments are the program name and the kept
    lines, in order; the only calls made are the read of the control block
    and the write of the kept lines back to it, so the command file is
    neither mounted nor read. *)
Theorem get_args_from_control_block (argv0 : string) (rest : list string)
    (w : World) :
  io_ok E OpBcbRead = true ->
  Split (c_str_terminated RECOVERY_FIELD_SIZE (bm_recovery (bcb w))) newline
  = "recovery" :: rest ->
  filter (fun t => token_kept t = true) rest <> [] ->
  let kept := filter (fun t => token_kept t = true) rest in
  eval (get_args E argv0 []) w = Done (argv0 :: kept)
  /\ emitted (get_args E argv0 []) w = [EvReadBcb; EvUpdateBcb kept]
  /\ files (exec (get_args E argv0 []) w) = files w
  /\ (io_ok E OpBcbWrite = true ->
      bm_recovery (bcb (exec (get_args E argv0 []) w)) = recovery_field kept).
Proof.
  intros Hread Hsplit Hkept kept.
  unfold get_args, read_bootloader_message, update_bootloader_message.
  run. rewrite Hread. cbn. rewrite Hsplit. cbn.
  fold kept. destruct kept as [|k kept'] eqn:Hk; [contradiction|].
  cbn.
  destruct (io_ok E OpBcbWrite); cbn;
    rewrite <- ?List.app_assoc, drop_app_length; auto.
  repeat split; auto. discriminate.
Qed.

(** Where the hypothesis on the kept lines matters: with the marker alone
    in the control block and a cache volume at hand, [get_args] goes on to
    the command file. *)
Lemma get_args_marker_alone (argv0 : string) (rest : list string)
    (w : World) :
  io_ok E OpBcbRead = true ->
  Split (c_str_terminated RECOVERY_FIELD_SIZE (bm_recovery (bcb w))) newline
  = "recovery" :: rest ->
  filter (fun t => token_kept t = true) rest = [] ->
  has_cache w = true ->
  io_ok E (OpMount COMMAND_FILE) = true ->
  exists options,
    emitted (get_args E argv0 []) w
    = [EvReadBcb; EvMount COMMAND_FILE; EvReadFile COMMAND_FILE;
       EvUpdateBcb options].
Proof.
  intros Hread Hsplit Hkept Hhc Hmount.
  unfold get_args, read_bootloader_message, update_bootloader_message,
    ensure_path_mounted, ReadFileToString.
  run. rewrite Hread. cbn. rewrite Hsplit. cbn. rewrite Hkept. cbn.
  rewrite Hhc. cbn. rewrite Hmount. cbn.
  destruct (files w !! COMMAND_FILE) as [f|]; cbn;
    destruct (io_ok E OpBcbWrite); cbn;
    rewrite <- ?List.app_assoc, drop_app_length; eexists; reflexivity.
Qed.

(** ** The menu loop *)

Lemma resolve_action_run (evt : InputEvent) (selected : Z) (w : World) :
  resolve_action E evt selected w
  = (Done (resolved E evt selected (text_visible w)), w).
Proof.
  destruct evt as [|pos|key]; cbn; try reflexivity.
  destruct (ui_SelectMenuAt E pos <? 0); reflexivity.
Qed.

(** A negative action leaves the selection of a key event alone, and a
    touch that resolves to a negative action leaves it alone as well. *)
Lemma resolved_negative (evt : InputEvent) (selected : Z) (visible : bool) :
  codes_wf (codes E) ->
  fst (resolved E evt selected visible) <> kInvokeItem (codes E) ->
  snd (resolved E evt selected visible) = selected.
Proof.
  intros _. destruct evt as [|pos|key]; cbn; try reflexivity.
  destruct (ui_SelectMenuAt E pos <? 0); cbn; congruence.
Qed.

Ltac codes_facts H :=
  let Hneg := fresh "Hneg" in
  let Hnd := fresh "Hnd" in
  destruct H as (Hneg & Hnd & ? & ? & ?);
  unfold primitives in Hneg, Hnd;
  repeat match goal with
         | H : Forall _ (_ :: _) |- _ => apply Forall_cons in H as [? H]
         end;
  repeat match goal with
         | H : NoDup (_ :: _) |- _ => apply NoDup_cons in H as [? H]
         end;
  repeat match goal with
         | H : _ ∉ _ :: _ |- _ => apply not_elem_of_cons in H as [? H]
         end.

Ltac decide_codes :=
  repeat match goal with
         | H : ?a <> ?b |- context [?a =? ?b] =>
             rewrite (proj2 (Z.eqb_neq a b) H)
         | H : ?b <> ?a |- context [?a =? ?b] =>
             rewrite (proj2 (Z.eqb_neq a b) (not_eq_sym H))
         | H : ?a < 0 |- context [?a <? 0] =>
             rewrite (proj2 (Z.ltb_lt a 0) H)
         | |- context [?a =? ?a] => rewrite (Z.eqb_refl a)
         end.

(** The [switch] on the three sentinels. *)
Lemma apply_action_sentinels (menu_only refreshable : bool)
    (selected : Z) :
  codes_wf (codes E) ->
  apply_action E menu_only refreshable (kGoBack (codes E)) selected (-1)
  = (selected, kGoBack (codes E))
  /\ apply_action E menu_only refreshable (kGoHome (codes E)) selected (-1)
     = (selected, kGoHome (codes E))
  /\ apply_action E menu_only refreshable (kRefresh (codes E)) selected (-1)
     = (selected, if refreshable then kRefresh (codes E) else -1).
Proof.
  intros H. codes_facts H. unfold apply_action.
  decide_codes. auto.
Qed.

Lemma is_sentinel_spec :
  codes_wf (codes E) ->
  is_sentinel E (kGoBack (codes E)) = true
  /\ is_sentinel E (kGoHome (codes E)) = true
  /\ is_sentinel E (kRefresh (codes E)) = true
  /\ is_sentinel E (-1) = false.
Proof.
  intros H. codes_facts H. unfold is_sentinel.
  decide_codes. rewrite !orb_true_r. auto.
Qed.

(** One turn of the loop on an event that is not a timeout. *)
Lemma menu_loop_turn (fuel : nat) (menu_only refreshable : bool)
    (selected chosen_item : Z) (evt : InputEvent) (q : list InputEvent)
    (w : World) :
  input_queue w = evt :: q ->
  evt <> EVENT_NONE ->
  menu_loop E (S fuel) menu_only refreshable selected chosen_item w
  = (let (action, selected) := resolved E evt selected (text_visible w) in
     let (selected, chosen_item) :=
       apply_action E menu_only refreshable action selected chosen_item in
     if is_sentinel E chosen_item then end_menu E chosen_item
     else if chosen_item <? 0
          then menu_loop E fuel menu_only refreshable selected chosen_item
          else end_menu E chosen_item) (after_input evt q w).
Proof.
  intros Hq Hevt. cbn [menu_loop]. unfold bind at 1, WaitInputEvent.
  rewrite Hq. fold (after_input evt q w).
  destruct evt as [|pos|key]; [contradiction| |];
    unfold bind; rewrite resolve_action_run; reflexivity.
Qed.

(** C7: in any turn of the loop, an event that resolves to Back ends the
    loop with the Back sentinel and one that resolves to Home ends it with
    the Home sentinel (after the device went home), whatever item is
    highlighted; an event that resolves to Refresh ends the loop with the
    Refresh sentinel if the menu is refreshable, and otherwise the loop
    goes on to wait for the next event with the selection unchanged. *)
Theorem menu_loop_navigation (fuel : nat) (menu_only refreshable : bool)
    (selected : Z) (evt : InputEvent) (q : list InputEvent) (w : World) :
  codes_wf (codes E) ->
  input_queue w = evt :: q ->
  evt <> EVENT_NONE ->
  let action := fst (resolved E evt selected (text_visible w)) in
  let m := menu_loop E (S fuel) menu_only refreshable selected (-1) in
  (action = kGoBack (codes E) ->
   eval m w = Done (kGoBack (codes E))
   /\ emitted m w = [EvWaitInput evt; EvEndMenu])
  /\ (action = kGoHome (codes E) ->
      eval m w = Done (kGoHome (codes E))
      /\ emitted m w = [EvWaitInput evt; EvEndMenu; EvGoHome])
  /\ (action = kRefresh (codes E) ->
      if refreshable then
        eval m w = Done (kRefresh (codes E))
        /\ emitted m w = [EvWaitInput evt; EvEndMenu]
      else
        m w = menu_loop E fuel menu_only refreshable selected (-1)
                (after_input evt q w)).
Proof.
  intros Hwf Hq Hevt action m. subst action m.
  unfold emitted, eval, exec.
  rewrite !(menu_loop_turn _ _ _ _ _ _ _ _ Hq Hevt).
  destruct (apply_action_sentinels menu_only refreshable selected Hwf)
    as (Hback & Hhome & Hrefresh).
  destruct (is_sentinel_spec Hwf) as (Sb & Sh & Sr & S1).
  pose proof (resolved_negative evt selected (text_visible w) Hwf) as Hsel.
  destruct (resolved E evt selected (text_visible w)) as [action sel'].
  cbn [fst snd] in *.
  pose proof Hwf as Hwf'. codes_facts Hwf'.
  split; [|split]; intros ->.
  - rewrite Hsel by congruence. rewrite Hback, Sb.
    unfold end_menu, after_input. run. decide_codes. cbn.
    rewrite <- ?List.app_assoc, drop_app_length. auto.
  - rewrite Hsel by congruence. rewrite Hhome, Sh.
    unfold end_menu, after_input. run. decide_codes. cbn.
    rewrite <- ?List.app_assoc, drop_app_length. auto.
  - rewrite Hsel by congruence. rewrite Hrefresh.
    destruct refreshable.
    + rewrite Sr. unfold end_menu, after_input. run. decide_codes. cbn.
      rewrite <- ?List.app_assoc, drop_app_length. auto.
    + rewrite S1. reflexivity.
Qed.

(** A turn of the loop, by the state of the queue. *)
Lemma menu_loop_S (fuel : nat) (menu_only refreshable : bool)
    (selected chosen_item : Z) (w : World) :
  menu_loop E (S fuel) menu_only refreshable selected chosen_item w
  = match input_queue w with
    | [] => (Parked, w)
    | evt :: q =>
        match evt with
        | EVENT_NONE =>
            if text_ever_visible w
            then menu_loop E fuel menu_only refreshable selected chosen_item
                   (after_input evt q w)
            else (Done (-1),
                  set_trace (trace (after_input evt q w) ++ [EvEndMenu])
                    (after_input evt q w))
        | _ =>
            (let (action, selected) := resolved E evt selected (text_visible w) in
             let (selected, chosen_item) :=
               apply_action E menu_only refreshable action selected
                 chosen_item in
             if is_sentinel E chosen_item then end_menu E chosen_item
             else if chosen_item <? 0
                  then menu_loop E fuel menu_only refreshable selected
                         chosen_item
                  else end_menu E chosen_item) (after_input evt q w)
        end
    end.
Proof.
  destruct (input_queue w) as [|evt q] eqn:Hq.
  - cbn [menu_loop]. unfold bind at 1, WaitInputEvent. now rewrite Hq.
  - destruct evt as [|pos|key];
      try (apply menu_loop_turn; [exact Hq|discriminate]).
    cbn [menu_loop]. unfold bind at 1, WaitInputEvent. rewrite Hq.
    fold (after_input EVENT_NONE q w). run.
    destruct (text_ever_visible w); reflexivity.
Qed.

(** The loop takes one event per turn, so any fuel above the length of
    the queue gives the same run: the loop only parks on an empty queue. *)
Lemma menu_loop_fuel (fuel fuel' : nat) (menu_only refreshable : bool)
    (selected chosen_item : Z) (w : World) :
  (length (input_queue w) < fuel)%nat ->
  (length (input_queue w) < fuel')%nat ->
  menu_loop E fuel menu_only refreshable selected chosen_item w
  = menu_loop E fuel' menu_only refreshable selected chosen_item w.
Proof.
  revert fuel' selected chosen_item w.
  induction fuel as [|fuel IH]; intros [|fuel'] selected chosen_item w H1 H2;
    try lia.
  rewrite !menu_loop_S.
  destruct (input_queue w) as [|evt q] eqn:Hq; [reflexivity|].
  cbn [length] in H1, H2.
  assert (Hq1 : input_queue (after_input evt q w) = q) by reflexivity.
  destruct evt as [|pos|key].
  - destruct (text_ever_visible w); [|reflexivity].
    apply IH; rewrite Hq1; lia.
  - destruct (resolved E _ _ _) as [action sel'].
    destruct (apply_action _ _ _ _ _ _) as [sel'' chosen'].
    destruct (is_sentinel E chosen'); [reflexivity|].
    destruct (chosen' <? 0); [|reflexivity].
    apply IH; rewrite Hq1; lia.
  - destruct (resolved E _ _ _) as [action sel'].
    destruct (apply_action _ _ _ _ _ _) as [sel'' chosen'].
    destruct (is_sentinel E chosen'); [reflexivity|].
    destruct (chosen' <? 0); [|reflexivity].
    apply IH; rewrite Hq1; lia.
Qed.

(** ** finish_recovery *)

Ltac other_path := cbv; discriminate.

Lemma copy_logs_finished :
  rotation_keeps E COMMAND_FILE -> rotation_keeps E LOCALE_FILE ->
  runs (copy_logs E) (same finished).
Proof.
  intros Hc Hl.
  runs_with ltac:(unfold same, finished; cbn;
                  rewrite ?lookup_insert_ne, ?lookup_alter_ne, ?Hc, ?Hl
                    by other_path;
                  reflexivity).
Qed.

Lemma copy_logs_unmodified (w : World) :
  modified_flash w = false -> copy_logs E w = (Done tt, w).
Proof. intros H. unfold copy_logs. run. now rewrite H. Qed.

Lemma save_locale_run (w : World) :
  let m :=
    (if negb (String.eqb (locale w) "") && has_cache w then
       mounted <- ensure_path_mounted E LOCALE_FILE ;;
       if negb mounted then ret tt
       else _ <- WriteStringToFile E (locale w) LOCALE_FILE ;; ret tt
     else ret tt) in
  exists w', m w = (Done tt, w')
    /\ finished w'
       = (bcb w, files w !! COMMAND_FILE,
          finish_locale E (locale w) (has_cache w) (files w !! LOCALE_FILE),
          locale w, has_cache w, modified_flash w)
    /\ (pmsg w', rotations w', tmplog_offset w')
       = (pmsg w, rotations w, tmplog_offset w)
    /\ forall p, p <> LOCALE_FILE -> files w' !! p = files w !! p.
Proof.
  intros m. subst m. unfold finish_locale, finished, WriteStringToFile,
    ensure_path_mounted.
  destruct (negb (String.eqb (locale w) "") && has_cache w); cbn.
  2:{ eexists. split; [reflexivity|]. auto. }
  run. destruct (io_ok E (OpMount LOCALE_FILE)); cbn.
  2:{ eexists. split; [reflexivity|]. auto. }
  destruct (io_ok E (OpWriteFile LOCALE_FILE)); cbn;
    (eexists; split; [reflexivity|]); cbn; auto.
  rewrite lookup_insert_eq, lookup_insert_ne by other_path.
  repeat split. intros p Hp. now rewrite lookup_insert_ne.
Qed.

Lemma remove_command_run (w : World) :
  let m :=
    (_ <- clear_bootloader_message E ;;
     (if has_cache w then
        mounted <- ensure_path_mounted E COMMAND_FILE ;;
        (if mounted then _ <- unlink E COMMAND_FILE ;; ret tt else ret tt) ;;;
        ensure_path_unmounted CACHE_ROOT
      else ret tt) ;;;
     sync) in
  exists w', m w = (Done tt, w')
    /\ finished w'
       = (finish_bcb E (bcb w),
          finish_command E (has_cache w) (files w !! COMMAND_FILE),
          files w !! LOCALE_FILE, locale w, has_cache w, modified_flash w)
    /\ (pmsg w', rotations w', tmplog_offset w')
       = (pmsg w, rotations w, tmplog_offset w)
    /\ forall p, p <> COMMAND_FILE -> files w' !! p = files w !! p.
Proof.
  intros m. subst m. unfold finish_bcb, finish_command, finished,
    clear_bootloader_message, unlink, ensure_path_mounted,
    ensure_path_unmounted, sync.
  run.
  destruct (io_ok E OpBcbWrite), (has_cache w) eqn:Hhc,
    (io_ok E (OpMount COMMAND_FILE)), (io_ok E (OpUnlink COMMAND_FILE)); cbn;
    (eexists; split; [reflexivity|]); cbn; rewrite ?Hhc; auto.
  all: rewrite ?lookup_delete_eq, ?lookup_delete_ne by other_path.
  all: repeat split; try reflexivity.
  all: intros p Hp; now rewrite lookup_delete_ne.
Qed.

Lemma finish_recovery_run (w : World) :
  rotation_keeps E COMMAND_FILE -> rotation_keeps E LOCALE_FILE ->
  exists w', finish_recovery E w = (Done tt, w')
    /\ finished w'
       = (finish_bcb E (bcb w),
          finish_command E (has_cache w) (files w !! COMMAND_FILE),
          finish_locale E (locale w) (has_cache w) (files w !! LOCALE_FILE),
          locale w, has_cache w, modified_flash w).
Proof.
  intros Hc Hl. unfold finish_recovery.
  unfold bind at 1 2, get.
  destruct (save_locale_run w) as (wa & Ea & Fa & _).
  rewrite (bind_Done _ _ _ _ _ Ea).
  destruct (copy_logs_finished Hc Hl wa) as (u & wb & Eb & Fb).
  rewrite (bind_Done _ _ _ _ _ Eb).
  unfold same in Fb. rewrite Fa in Fb.
  assert (Hhc : has_cache wb = has_cache w) by (now injection Fb).
  destruct (remove_command_run wb) as (wc & Ec & Fc & _).
  rewrite Hhc in Ec. exists wc. split; [exact Ec|].
  rewrite Fc. unfold finished in Fb. injection Fb as -> -> -> -> -> ->.
  reflexivity.
Qed.

(** Without the modified-flash marker no log is copied or rotated. *)
Lemma finish_recovery_unmodified (w : World) :
  modified_flash w = false ->
  let w' := exec (finish_recovery E) w in
  (pmsg w', rotations w', tmplog_offset w')
  = (pmsg w, rotations w, tmplog_offset w)
  /\ forall p, p <> LOCALE_FILE -> p <> COMMAND_FILE ->
               files w' !! p = files w !! p.
Proof.
  intros Hmf w'.
  destruct (save_locale_run w) as (wa & Ea & Fa & Pa & Oa).
  assert (Hma : modified_flash wa = false).
  { unfold finished in Fa. injection Fa as _ _ _ _ _ ->. exact Hmf. }
  assert (Hhc : has_cache wa = has_cache w).
  { unfold finished in Fa. now injection Fa. }
  destruct (remove_command_run wa) as (wc & Ec & Fc & Pc & Oc).
  rewrite Hhc in Ec.
  assert (Hw' : w' = wc).
  { subst w'. unfold exec, finish_recovery. unfold bind at 1 2, get.
    rewrite (bind_Done _ _ _ _ _ Ea).
    rewrite (bind_Done _ _ _ _ _ (copy_logs_unmodified wa Hma)).
    now rewrite Ec. }
  rewrite Hw'. split; [rewrite Pc; exact Pa|].
  intros p H1 H2. rewrite Oc, Oa by assumption. reflexivity.
Qed.

(** C9: [finish_recovery] returns, and a second call leaves what the
    first established as it is: the control block, the command file, the
    saved locale (and the globals read).  After a call the control block
    is the cleared one if it could be written, the command file is gone if
    /cache could be mounted and the file unlinked; and without the
    modified-flash marker nothing is written to pmsg, no log is rotated or
    copied, and the log cursor stays. *)
Theorem finish_recovery_idempotent (w : World) :
  rotation_keeps E COMMAND_FILE -> rotation_keeps E LOCALE_FILE ->
  let w1 := exec (finish_recovery E) w in
  let w2 := exec (finish_recovery E) w1 in
  eval (finish_recovery E) w = Done tt
  /\ eval (finish_recovery E) w1 = Done tt
  /\ finished w2 = finished w1
  /\ (io_ok E OpBcbWrite = true -> bcb w1 = zeroed_message)
  /\ (has_cache w = true -> io_ok E (OpMount COMMAND_FILE) = true ->
      io_ok E (OpUnlink COMMAND_FILE) = true ->
      files w1 !! COMMAND_FILE = None)
  /\ (modified_flash w = false ->
      (pmsg w1, rotations w1, tmplog_offset w1)
      = (pmsg w, rotations w, tmplog_offset w)
      /\ forall p, p <> LOCALE_FILE -> p <> COMMAND_FILE ->
                   files w1 !! p = files w !! p).
Proof.
  intros Hc Hl w1 w2.
  destruct (finish_recovery_run w Hc Hl) as (v1 & E1 & F1).
  assert (Hw1 : w1 = v1) by (subst w1; unfold exec; now rewrite E1).
  destruct (finish_recovery_run v1 Hc Hl) as (v2 & E2 & F2).
  assert (Hw2 : w2 = v2) by (subst w2; rewrite Hw1; unfold exec; now rewrite E2).
  rewrite Hw2. rewrite Hw1. clear Hw2. unfold eval. rewrite E1, E2. cbn [fst].
  split; [reflexivity|]. split; [reflexivity|].
  pose proof F1 as F1'. unfold finished in F1'.
  injection F1' as Hb Hcm Hlo Hloc Hhc Hmf.
  split; [|split; [|split]].
  - rewrite F2, F1. rewrite Hb, Hcm, Hlo, Hloc, Hhc, Hmf.
    unfold finish_bcb, finish_command, finish_locale.
    destruct (io_ok E OpBcbWrite), (has_cache w),
      (io_ok E (OpMount COMMAND_FILE)), (io_ok E (OpUnlink COMMAND_FILE)),
      (negb (String.eqb (locale w) "")), (io_ok E (OpMount LOCALE_FILE)),
      (io_ok E (OpWriteFile LOCALE_FILE)); cbn; try reflexivity;
      destruct (files w !! LOCALE_FILE); reflexivity.
  - intros Hw. rewrite Hb. unfold finish_bcb. now rewrite Hw.
  - intros H1 H2 H3. rewrite Hcm. unfold finish_command.
    now rewrite H1, H2, H3.
  - intros Hm. rewrite <- Hw1. apply finish_recovery_unmodified, Hm.
Qed.

(** ** erase_volume on /cache: the saved logs *)

Lemma write_log_run (log : saved_log_file) (w : World) :
  write_log E log w
  = (Done tt,
     set_files (write_back E (files w) log)
       (set_trace (trace w ++ [EvWriteFile (sl_name log) (sl_data log)]) w)).
Proof.
  unfold write_log, WriteStringToFileAs, write_back. run.
  destruct (io_ok E (OpWriteFile (sl_name log))); reflexivity.
Qed.

Lemma write_logs_run (logs : list saved_log_file) (w : World) :
  exists w',
    forM logs (write_log E) w = (Done tt, w')
    /\ files w' = fold_left (write_back E) logs (files w)
    /\ modified_flash w' = modified_flash w.
Proof.
  revert w. induction logs as [|log logs IH]; intros w.
  - exists w. auto.
  - cbn [forM fold_left].
    rewrite (bind_Done _ _ _ _ _ (write_log_run log w)).
    match goal with |- context [forM logs (write_log E) ?x] =>
      destruct (IH x) as (w' & -> & Hf & Hm)
    end.
    exists w'. auto.
Qed.

Lemma written_back_lookup (logs : list saved_log_file)
    (fs : gmap string file) (e : saved_log_file) :
  e ∈ logs ->
  io_ok E (OpWriteFile (sl_name e)) = true ->
  (forall e', e' ∈ logs -> sl_name e' = sl_name e -> e' = e) ->
  fold_left (write_back E) logs fs !! sl_name e = Some (file_of e).
Proof.
  induction logs as [|x logs IH] using rev_ind; intros Hin Hok Hsame.
  - inversion Hin.
  - rewrite fold_left_app. cbn [fold_left]. unfold write_back at 1.
    destruct (decide (sl_name x = sl_name e)) as [Heq|Hne].
    + assert (x = e) as ->.
      { apply Hsame; [|exact Heq]. apply elem_of_app. right. constructor. }
      rewrite Hok. apply lookup_insert_eq.
    + assert (e ∈ logs).
      { apply elem_of_app in Hin as [Hin|Hin]; [exact Hin|].
        apply list_elem_of_singleton in Hin. congruence. }
      assert (IH' : fold_left (write_back E) logs fs !! sl_name e
                    = Some (file_of e)).
      { apply IH; [assumption|exact Hok|].
        intros e' He'. apply Hsame, elem_of_app. now left. }
      destruct (io_ok E (OpWriteFile (sl_name x))); [|exact IH'].
      now rewrite lookup_insert_ne.
Qed.

(** Strings: append is associative. *)
Lemma string_app_assoc (a b c : string) : (a +:+ b) +:+ c = a +:+ b +:+ c.
Proof.
  induction a as [|x a IH]; [reflexivity|].
  change (String x ((a +:+ b) +:+ c) = String x (a +:+ b +:+ c)).
  now rewrite IH.
Qed.

(** A file directly in a directory is among its entries. *)
Lemma readdir_entry (dir name : string) (fs : gmap string file) (f : file) :
  name <> "" -> has_slash name = false ->
  fs !! (dir +:+ "/" +:+ name) = Some f ->
  name ∈ readdir dir fs.
Proof.
  intros Hne Hslash Hf. unfold readdir. apply list_elem_of_omap.
  exists (dir +:+ "/" +:+ name, f). split.
  - now apply elem_of_map_to_list.
  - cbn [fst]. unfold dir_entry.
    rewrite <- string_app_assoc, strip_prefix_of_app, Hslash.
    destruct (String.eqb_spec name ""); [contradiction|reflexivity].
Qed.

Lemma is_saved_log_name_nonempty (name : string) :
  is_saved_log_name name = true -> name <> "".
Proof. intros H ->. discriminate. Qed.

(** A saved entry is the capped copy of the file it names. *)
Lemma save_log_entry_Some (fs : gmap string file) (d_name : string)
    (e : saved_log_file) :
  save_log_entry fs d_name = Some e ->
  exists f, fs !! sl_name e = Some f /\ file_of e = capped f.
Proof.
  unfold save_log_entry.
  destruct (is_saved_log_name d_name); [|discriminate].
  destruct (fs !! (CACHE_LOG_DIR +:+ "/" +:+ d_name)) as [f|] eqn:Hf;
    [|discriminate].
  intros [= <-]. exists f. split; [exact Hf|reflexivity].
Qed.

Lemma saved_log_determined (fs : gmap string file) (n n' : string)
    (e e' : saved_log_file) :
  save_log_entry fs n = Some e -> save_log_entry fs n' = Some e' ->
  sl_name e' = sl_name e -> e' = e.
Proof.
  intros H H' Hname.
  destruct (save_log_entry_Some _ _ _ H) as (f & Hf & He).
  destruct (save_log_entry_Some _ _ _ H') as (f' & Hf' & He').
  rewrite Hname, Hf in Hf'. injection Hf' as <-.
  destruct e, e'. cbn in *. unfold file_of, capped in *. cbn in *.
  congruence.
Qed.

(** The erase of /cache, cut after the format. *)
Lemma erase_cache_run (w : World) :
  io_ok E (OpOpendir CACHE_LOG_DIR) = true ->
  exists w_f rc,
    erase_volume E CACHE_ROOT w
    = ((restore_log_files E (loaded_logs (files w)) ;;; copy_logs E) ;;;
       ret (rc =? 0)) w_f
    /\ modified_flash w_f = modified_flash w.
Proof.
  intros Hdir.
  unfold erase_volume, load_log_files, format_volume, ensure_path_mounted,
    ensure_path_unmounted, ui_Print.
  run. rewrite Hdir. cbn. fold (loaded_logs (files w)).
  destruct (format_volume_fn E CACHE_ROOT None (files w)) as [rc fs'].
  cbn. eexists. exists rc. split; reflexivity.
Qed.

Lemma restore_log_files_run (logs : list saved_log_file) (w : World) :
  io_ok E (OpMount CACHE_LOG_DIR) = true ->
  io_ok E (OpMkdirRec CACHE_LOG_DIR) = true ->
  exists w_r,
    restore_log_files E logs w = (Done tt, w_r)
    /\ files w_r = fold_left (write_back E) logs (files w)
    /\ tmplog_offset w_r = O
    /\ modified_flash w_r = modified_flash w.
Proof.
  intros Hm Hd. unfold restore_log_files, ensure_path_mounted,
    mkdir_recursively.
  rewrite Hm, Hd. run.
  match goal with |- context [forM logs (write_log E) ?x] =>
    destruct (write_logs_run logs x) as (w' & Hw & Hf & Hmf)
  end.
  rewrite Hw. eexists. split; [reflexivity|]. cbn. auto.
Qed.


End Facts.

(** * More facts *)

(** ** get_args, the retry counter, the battery and the boot reason *)

Section GetArgsFacts.

Context (E : Env).

Lemma get_args_run (argv0 : string) (argv_rest : list string) (w : World) :
  let options := resolved_arguments E argv_rest w in
  let boot := if io_ok E OpBcbRead then bcb w else zeroed_message in
  let consulted :=
    match argv_rest, bcb_arguments E w with
    | [], [] =>
        if has_cache w then
          EvMount COMMAND_FILE
          :: (if io_ok E (OpMount COMMAND_FILE) then [EvReadFile COMMAND_FILE]
              else [])
        else []
    | _, _ => []
    end in
  get_args E argv0 argv_rest w
  = (Done (argv0 :: options),
     (if bcb_writable E
      then set_bcb (written options (bcb w)) else fun w' => w')
       (set_trace (trace w ++ [EvReadBcb] ++ consulted ++ [EvUpdateBcb options])
          (set_stage (c_str (bm_stage boot)) w))).
Proof.
  cbn zeta. unfold resolved_arguments, bcb_arguments, file_arguments, get_args,
    read_bootloader_message, update_bootloader_message, ensure_path_mounted,
    ReadFileToString, bcb_writable, written.
  run.
  destruct argv_rest as [|a rest]; cbn.
  - destruct (io_ok E OpBcbRead) eqn:Hread; cbn.
    + destruct (Split _ newline) as [|t0 ts]; cbn.
      * destruct (has_cache w) eqn:Hhc; cbn.
        -- destruct (io_ok E (OpMount COMMAND_FILE)); cbn.
           ++ destruct (files w !! COMMAND_FILE) as [f|]; cbn;
                destruct (io_ok E OpBcbWrite); cbn;
                rewrite <- ?List.app_assoc; reflexivity.
           ++ destruct (io_ok E OpBcbWrite); cbn;
                rewrite <- ?List.app_assoc; reflexivity.
        -- destruct (io_ok E OpBcbWrite); cbn;
             rewrite <- ?List.app_assoc; reflexivity.
      * destruct (String.eqb t0 "recovery"); cbn.
        -- destruct (filter _ ts) as [|k ks] eqn:Hk; cbn.
           ++ destruct (has_cache w) eqn:Hhc; cbn.
              ** destruct (io_ok E (OpMount COMMAND_FILE)); cbn.
                 --- destruct (files w !! COMMAND_FILE) as [f|]; cbn;
                       destruct (io_ok E OpBcbWrite); cbn;
                       rewrite <- ?List.app_assoc; reflexivity.
                 --- destruct (io_ok E OpBcbWrite); cbn;
                       rewrite <- ?List.app_assoc; reflexivity.
              ** destruct (io_ok E OpBcbWrite); cbn;
                   rewrite <- ?List.app_assoc; reflexivity.
           ++ destruct (io_ok E OpBcbWrite); cbn;
                rewrite <- ?List.app_assoc; reflexivity.
        -- destruct (has_cache w) eqn:Hhc; cbn.
           ++ destruct (io_ok E (OpMount COMMAND_FILE)); cbn.
              ** destruct (files w !! COMMAND_FILE) as [f|]; cbn;
                   destruct (io_ok E OpBcbWrite); cbn;
                   rewrite <- ?List.app_assoc; reflexivity.
              ** destruct (io_ok E OpBcbWrite); cbn;
                   rewrite <- ?List.app_assoc; reflexivity.
           ++ destruct (io_ok E OpBcbWrite); cbn;
                rewrite <- ?List.app_assoc; reflexivity.
    + destruct (has_cache w) eqn:Hhc; cbn.
      * destruct (io_ok E (OpMount COMMAND_FILE)); cbn.
        -- destruct (files w !! COMMAND_FILE) as [f|]; cbn;
             rewrite <- ?List.app_assoc; reflexivity.
        -- rewrite <- ?List.app_assoc; reflexivity.
      * rewrite <- ?List.app_assoc; reflexivity.
  - destruct (io_ok E OpBcbRead) eqn:Hread; cbn;
      try destruct (io_ok E OpBcbWrite); cbn;
      rewrite <- ?List.app_assoc; reflexivity.
Qed.

(** *** Reading back what was written *)

Lemma app_empty_l (s : string) : "" +:+ s = s.
Proof. reflexivity. Qed.

Lemma app_String (c : ascii) (a b : string) :
  String c a +:+ b = String c (a +:+ b).
Proof. reflexivity. Qed.

Lemma contains_app (c : ascii) (a b : string) :
  contains c (a +:+ b) = contains c a || contains c b.
Proof.
  induction a as [|x a IH]; [reflexivity|].
  rewrite app_String. cbn [contains]. rewrite IH. apply orb_assoc.
Qed.

Lemma length_app (a b : string) :
  String.length (a +:+ b) = (String.length a + String.length b)%nat.
Proof.
  induction a as [|x a IH]; [reflexivity|].
  rewrite app_String. cbn [String.length]. now rewrite IH.
Qed.

Lemma Split_line (t s : string) :
  contains newline t = false ->
  Split (t +:+ NL +:+ s) newline = t :: Split s newline.
Proof.
  induction t as [|c t IH]; intros Hc.
  - reflexivity.
  - cbn [contains] in Hc. apply orb_false_elim in Hc as [Hc Ht].
    rewrite app_String. cbn [Split]. rewrite Hc, (IH Ht). reflexivity.
Qed.

Lemma lines_cons (o : string) (options : list string) :
  String.concat "" (map (fun o => o +:+ NL) (o :: options))
  = o +:+ NL +:+ String.concat "" (map (fun o => o +:+ NL) options).
Proof.
  destruct options as [|o' options]; cbn [map String.concat].
  - induction o as [|c o IH]; [reflexivity|].
    rewrite !app_String. now rewrite IH.
  - rewrite app_empty_l. apply string_app_assoc.
Qed.

Lemma Split_lines (options : list string) :
  Forall (fun o => contains newline o = false) options ->
  Split (String.concat "" (map (fun o => o +:+ NL) options)) newline
  = options ++ [""].
Proof.
  induction 1 as [|o options Ho _ IH]; [reflexivity|].
  rewrite lines_cons, (Split_line _ _ Ho), IH. reflexivity.
Qed.

Lemma contains_lines (c : ascii) (options : list string) :
  c <> newline ->
  Forall (fun o => contains c o = false) options ->
  contains c (String.concat "" (map (fun o => o +:+ NL) options)) = false.
Proof.
  intros Hc. induction 1 as [|o options Ho _ IH]; [reflexivity|].
  assert (Hnl : contains c NL = false).
  { unfold NL. cbn [contains].
    destruct (Ascii.eqb_spec newline c); [congruence|reflexivity]. }
  now rewrite lines_cons, !contains_app, Ho, IH, Hnl.
Qed.

Lemma c_str_whole (s : string) : contains nul s = false -> c_str s = s.
Proof.
  induction s as [|c s IH]; [reflexivity|].
  cbn [contains c_str]. intros H. apply orb_false_elim in H as [Hc Hs].
  rewrite Hc. now rewrite IH.
Qed.

Lemma substring_whole (s : string) (n : nat) :
  (String.length s <= n)%nat -> String.substring 0 n s = s.
Proof.
  revert n. induction s as [|c s IH]; intros [|n] H; cbn in *;
    try reflexivity; try lia.
  rewrite IH by lia. reflexivity.
Qed.

Lemma kept_whole (options : list string) :
  Forall (fun o => o <> "" /\ contains nul o = false) options ->
  filter (fun t => token_kept t = true) (options ++ [""]) = options.
Proof.
  induction 1 as [|o options [Hne Hnul] _ IH]; [reflexivity|].
  cbn [app]. rewrite filter_cons_True, IH; [reflexivity|].
  destruct o as [|c o]; [contradiction|]. cbn in *.
  apply orb_false_elim in Hnul as [Hc _]. rewrite Hc.
  reflexivity.
Qed.

(** A control block that holds a storable list of options hands the same
    list back. *)
Lemma bcb_arguments_written (options : list string) (b : bootloader_message)
    (w : World) :
  io_ok E OpBcbRead = true ->
  storable options ->
  bcb w = written options b ->
  bcb_arguments E w = options.
Proof.
  intros Hread [Hall Hlen] Hb. unfold bcb_arguments.
  rewrite Hread, Hb. cbn [written bm_recovery].
  unfold recovery_field, c_str_terminated.
  rewrite !(substring_whole _ _ Hlen).
  assert (Hnl : Forall (fun o => contains newline o = false) options)
    by (eapply Forall_impl; [exact Hall|]; cbn; tauto).
  assert (Hnul : Forall (fun o => contains nul o = false) options)
    by (eapply Forall_impl; [exact Hall|]; cbn; tauto).
  pose proof (contains_lines nul options ltac:(discriminate) Hnul) as Hbody.
  rewrite c_str_whole by (now rewrite !contains_app, Hbody).
  rewrite (Split_line "recovery") by reflexivity.
  rewrite (Split_lines _ Hnl). cbn [String.eqb].
  change (("recovery" =? "recovery")%string) with true. cbn iota.
  apply kept_whole. eapply Forall_impl; [exact Hall|]; cbn; tauto.
Qed.

Lemma emitted_set_trace (A : Type) (m : M A) (w : World) (l : list Event)
    (f : World -> World) (w0 : World) :
  exec m w = f (set_trace (trace w ++ l) w0) ->
  (forall w', trace (f w') = trace w') ->
  emitted m w = l.
Proof.
  intros H Hf. apply emitted_grows. rewrite H, Hf. reflexivity.
Qed.

Lemma get_args_trace (argv0 : string) (argv_rest : list string) (w : World) :
  exists consulted,
    trace (exec (get_args E argv0 argv_rest) w)
    = trace w ++ [EvReadBcb] ++ consulted
        ++ [EvUpdateBcb (resolved_arguments E argv_rest w)]
    /\ (argv_rest <> [] \/ bcb_arguments E w <> [] -> consulted = [])
    /\ (argv_rest = [] -> bcb_arguments E w = [] -> has_cache w = true ->
        io_ok E (OpMount COMMAND_FILE) = true ->
        consulted = [EvMount COMMAND_FILE; EvReadFile COMMAND_FILE]).
Proof.
  unfold exec. rewrite get_args_run. cbn zeta.
  eexists. split.
  - destruct (bcb_writable E); cbn [snd]; reflexivity.
  - split.
    + intros [H|H].
      * destruct argv_rest; [contradiction|reflexivity].
      * destruct argv_rest; [|reflexivity].
        destruct (bcb_arguments E w); [contradiction|reflexivity].
    + intros -> -> -> ->. reflexivity.
Qed.

(** X1: arguments on the command line are the result as they stand; the
    control block is read (for the stage) and written, and the command
    file is neither mounted nor read, whatever the block and the file
    hold. *)
Theorem get_args_command_line (argv0 a : string) (rest : list string)
    (w : World) :
  let m := get_args E argv0 (a :: rest) in
  eval m w = Done (argv0 :: a :: rest)
  /\ emitted m w = [EvReadBcb; EvUpdateBcb (a :: rest)]
  /\ files (exec m w) = files w.
Proof.
  cbn zeta. unfold eval, emitted, exec. rewrite get_args_run. cbn zeta.
  cbn [fst snd resolved_arguments].
  destruct (bcb_writable E); cbn; rewrite drop_app_length; auto.
Qed.

(** X2: with no argument on the command line and none in the control
    block, the arguments are the kept lines of the command file, the first
    line included; the file is left in place. *)
Theorem get_args_command_file (argv0 : string) (w : World) (f : file) :
  bcb_arguments E w = [] ->
  has_cache w = true ->
  io_ok E (OpMount COMMAND_FILE) = true ->
  files w !! COMMAND_FILE = Some f ->
  let m := get_args E argv0 [] in
  let kept := filter (fun t => token_kept t = true) (Split (f_data f) newline) in
  eval m w = Done (argv0 :: kept)
  /\ emitted m w
     = [EvReadBcb; EvMount COMMAND_FILE; EvReadFile COMMAND_FILE;
        EvUpdateBcb kept]
  /\ files (exec m w) = files w.
Proof.
  intros Hb Hhc Hm Hf. cbn zeta. unfold eval, emitted, exec.
  rewrite get_args_run. cbn zeta.
  unfold resolved_arguments, file_arguments. rewrite Hb, Hhc, Hm, Hf.
  cbn [fst snd andb].
  destruct (bcb_writable E); cbn; rewrite drop_app_length; auto.
Qed.

(** X3: the options [get_args] resolved are the ones it resolves at the
    next start with an empty command line, as long as the control block
    can be written and holds them whole; the second run reads neither the
    command line nor the command file for them and leaves the block as the
    first run wrote it. *)
Theorem get_args_resumes (argv0 argv0' : string) (argv_rest : list string)
    (w : World) :
  bcb_writable E = true ->
  resolved_arguments E argv_rest w <> [] ->
  storable (resolved_arguments E argv_rest w) ->
  let w1 := exec (get_args E argv0 argv_rest) w in
  eval (get_args E argv0' []) w1
  = Done (argv0' :: resolved_arguments E argv_rest w)
  /\ emitted (get_args E argv0' []) w1
     = [EvReadBcb; EvUpdateBcb (resolved_arguments E argv_rest w)]
  /\ bcb (exec (get_args E argv0' []) w1) = bcb w1.
Proof.
  intros Hw Hne Hst. cbn zeta.
  set (options := resolved_arguments E argv_rest w) in *.
  assert (Hread : io_ok E OpBcbRead = true).
  { unfold bcb_writable in Hw. now apply andb_true_iff in Hw. }
  assert (Hb : bcb (exec (get_args E argv0 argv_rest) w)
               = written options (bcb w)).
  { unfold exec. rewrite get_args_run. cbn zeta. now rewrite Hw. }
  pose proof (bcb_arguments_written options (bcb w) _ Hread Hst Hb) as Hargs.
  assert (Hres : resolved_arguments E []
                   (exec (get_args E argv0 argv_rest) w) = options).
  { unfold resolved_arguments at 1. rewrite Hargs.
    destruct options; [contradiction|reflexivity]. }
  remember (exec (get_args E argv0 argv_rest) w) as w1 eqn:Hw1.
  unfold eval, emitted, exec.
  rewrite get_args_run. cbn zeta. rewrite Hres, Hargs, Hw.
  cbn [fst snd]. split; [reflexivity|].
  destruct options as [|o os]; [contradiction|].
  cbn. rewrite drop_app_length. split; [reflexivity|].
  rewrite Hb. reflexivity.
Qed.

(** X4: the retry counter written by [set_retry_bootloader_message] is
    what [get_args] finds at the next start: the pending arguments with
    the one counter, when the control block can be written and holds them
    whole. *)
Theorem retry_count_resumes (n : Z) (args : list string) (argv0 : string)
    (w : World) :
  bcb_writable E = true ->
  storable (persisted n args) ->
  let w1 := exec (set_retry_bootloader_message E n args) w in
  eval (get_args E argv0 []) w1 = Done (argv0 :: persisted n args)
  /\ emitted (get_args E argv0 []) w1
     = [EvReadBcb; EvUpdateBcb (persisted n args)].
Proof.
  intros Hw Hst. cbn zeta.
  assert (Hread : io_ok E OpBcbRead = true).
  { unfold bcb_writable in Hw. now apply andb_true_iff in Hw. }
  assert (Hb : bcb (exec (set_retry_bootloader_message E n args) w)
               = written (persisted n args) (bcb w)).
  { unfold exec. rewrite set_retry_bootloader_message_run. now rewrite Hw. }
  pose proof (bcb_arguments_written _ (bcb w) _ Hread Hst Hb) as Hargs.
  assert (Hne : persisted n args <> []).
  { unfold persisted. intros H. apply app_eq_nil in H as [_ H]. discriminate. }
  remember (exec (set_retry_bootloader_message E n args) w) as w1 eqn:Hw1.
  unfold eval, emitted, exec.
  rewrite get_args_run. cbn zeta.
  unfold resolved_arguments. rewrite Hargs, Hw.
  destruct (persisted n args) as [|o os]; [contradiction|].
  cbn. rewrite drop_app_length. split; reflexivity.
Qed.

End GetArgsFacts.

(* ================= retry token ================= *)

Section RetryCountFacts.

Context (E : Env).

Lemma StartsWith_app (p s : string) : StartsWith (p +:+ s) p = true.
Proof.
  rewrite strip_prefix_StartsWith, strip_prefix_of_app. reflexivity.
Qed.

Lemma retry_token_StartsWith (n : Z) :
  StartsWith ("--retry_count=" +:+ to_string n) "--retry_count" = true.
Proof.
  change ("--retry_count=" +:+ to_string n)
    with ("--retry_count" +:+ ("=" +:+ to_string n)).
  apply StartsWith_app.
Qed.

Lemma persisted_others (n : Z) (args : list string) :
  filter (fun arg => StartsWith arg "--retry_count" = false) (persisted n args)
  = filter (fun arg => StartsWith arg "--retry_count" = false) args.
Proof.
  unfold persisted. rewrite filter_app, list_filter_filter.
  rewrite filter_cons_False by (rewrite retry_token_StartsWith; discriminate).
  rewrite filter_nil, app_nil_r.
  apply list_filter_iff. tauto.
Qed.

Lemma persisted_counter (n : Z) (args : list string) :
  filter (fun arg => StartsWith arg "--retry_count" = true) (persisted n args)
  = ["--retry_count=" +:+ to_string n].
Proof.
  unfold persisted. rewrite filter_app, list_filter_filter.
  rewrite filter_cons_True by apply retry_token_StartsWith.
  rewrite filter_nil.
  replace (filter _ args) with (@nil string); [reflexivity|].
  symmetry. induction args as [|a args IH]; [reflexivity|].
  rewrite filter_cons_False; [exact IH|]. intros [H1 H2]. congruence.
Qed.

(** X5: the options [set_retry_bootloader_message] hands to the control
    block are the arguments that are no retry counter, in their order,
    followed by the one counter; setting the counter again on these
    options replaces the counter and keeps the rest, so counters do not
    pile up over the retries. *)
Theorem set_retry_bootloader_message_replaces (n m : Z) (args : list string)
    (w w' : World) :
  exists options,
    emitted (set_retry_bootloader_message E n args) w = [EvUpdateBcb options]
    /\ options
       = filter (fun arg => StartsWith arg "--retry_count" = false) args
         ++ ["--retry_count=" +:+ to_string n]
    /\ filter (fun arg => StartsWith arg "--retry_count" = true) options
       = ["--retry_count=" +:+ to_string n]
    /\ emitted (set_retry_bootloader_message E m options) w'
       = emitted (set_retry_bootloader_message E m args) w'.
Proof.
  exists (persisted n args). split; [apply emitted_set_retry|].
  split; [reflexivity|]. split; [apply persisted_counter|].
  rewrite !emitted_set_retry. unfold persisted at 1 3.
  now rewrite persisted_others.
Qed.

End RetryCountFacts.

(* ================= battery ================= *)

Section BatteryFacts.

Context (E : Env).

Lemma battery_events_waited (k : nat) :
  battery_events (waited k ++ [EvBatteryRead]) = waited k ++ [EvBatteryRead].
Proof.
  unfold battery_events, waited.
  induction k as [|k IH]; [reflexivity|].
  cbn [repeat concat]. rewrite <- !List.app_assoc. cbn [app].
  rewrite !filter_cons_True by reflexivity. now rewrite IH.
Qed.

Lemma is_battery_ok_from_settles (remaining from : nat) (w : World) :
  let k := settles E remaining from in
  is_battery_ok_from E remaining from w
  = (Done (reading_ok (battery E k)),
     set_trace (trace w ++ waited (k - from) ++ [EvBatteryRead]) w).
Proof.
  revert from w. induction remaining as [|remaining IH]; intros from w.
  - cbn [settles is_battery_ok_from].
    assert (Hk : match br_capacity (battery E from) with
                 | Some _ | _ => from end = from)
      by (destruct (br_capacity (battery E from)); reflexivity).
    rewrite Hk, Nat.sub_diag. run. unfold reading_ok.
    destruct (br_capacity (battery E from)) as [c|]; [destruct (c =? 50)|];
      reflexivity.
  - cbn [settles is_battery_ok_from]. run.
    destruct (br_capacity (battery E from)) as [c|] eqn:Hc.
    + destruct (c =? 50) eqn:H50.
      * rewrite IH. cbn zeta. cbn.
        assert (Hle : (S from <= settles E remaining (S from))%nat).
        { clear. revert from. induction remaining as [|r IH]; intros from;
            cbn [settles].
          - destruct (br_capacity (battery E (S from))); lia.
          - destruct (br_capacity (battery E (S from))) as [c|]; [|lia].
            destruct (c =? 50); [|lia]. specialize (IH (S from)). lia. }
        replace (settles E remaining (S from) - from)%nat
          with (S (settles E remaining (S from) - S from)) by lia.
        unfold waited. cbn [repeat concat].
        rewrite <- !List.app_assoc. reflexivity.
      * rewrite Nat.sub_diag. unfold reading_ok. rewrite Hc. reflexivity.
    + rewrite Nat.sub_diag. unfold reading_ok. rewrite Hc. reflexivity.
Qed.

Lemma settles_spec (remaining from : nat) :
  let k := settles E remaining from in
  (from <= k <= from + remaining)%nat
  /\ (forall j, (from <= j < k)%nat -> br_capacity (battery E j) = Some 50)
  /\ (k = (from + remaining)%nat \/ br_capacity (battery E k) <> Some 50).
Proof.
  revert from. induction remaining as [|remaining IH]; intros from;
    cbn [settles].
  - assert (Hk : match br_capacity (battery E from) with
                 | Some _ | _ => from end = from)
      by (destruct (br_capacity (battery E from)); reflexivity).
    rewrite Hk. split; [lia|]. split; [intros; lia|left; lia].
  - destruct (br_capacity (battery E from)) as [c|] eqn:Hc.
    + destruct (c =? 50) eqn:H50.
      * destruct (IH (S from)) as (Hr & Hall & Hend). cbn zeta in *.
        split; [lia|]. split.
        -- intros j Hj. destruct (decide (j = from)) as [->|Hne].
           ++ rewrite Hc. f_equal. now apply Z.eqb_eq.
           ++ apply Hall. lia.
        -- destruct Hend as [->|Hend]; [left; lia|now right].
      * split; [lia|]. split; [intros; lia|]. right. rewrite Hc.
        intros [= ->]. discriminate.
    + split; [lia|]. split; [intros; lia|]. right. now rewrite Hc.
Qed.

(** X6: [is_battery_ok] always returns.  It reads the battery until a
    read does not report the capacity 50, sleeping a second after each
    read that does, and gives up waiting after
    [BATTERY_READ_TIMEOUT_IN_SEC] sleeps; the read it stops at alone
    decides: at least 15 percent when charging, full or of unknown status,
    at least 20 percent otherwise, an unreadable capacity counting as
    100. *)
Theorem is_battery_ok_decides (w : World) :
  exists k,
    (k <= BATTERY_READ_TIMEOUT_IN_SEC)%nat
    /\ (forall j, (j < k)%nat -> br_capacity (battery E j) = Some 50)
    /\ (k = BATTERY_READ_TIMEOUT_IN_SEC
        \/ br_capacity (battery E k) <> Some 50)
    /\ eval (is_battery_ok E) w = Done (reading_ok (battery E k))
    /\ battery_events (emitted (is_battery_ok E) w)
       = waited k ++ [EvBatteryRead].
Proof.
  exists (settles E BATTERY_READ_TIMEOUT_IN_SEC 0).
  destruct (settles_spec BATTERY_READ_TIMEOUT_IN_SEC 0) as (Hr & Hall & Hend).
  cbn zeta in *. split; [lia|]. split; [intros; apply Hall; lia|].
  split; [exact Hend|].
  unfold eval, emitted, exec, is_battery_ok.
  rewrite is_battery_ok_from_settles. cbn zeta. cbn [fst snd trace set_trace].
  rewrite Nat.sub_0_r, drop_app_length, battery_events_waited. auto.
Qed.

End BatteryFacts.

(* ================= bootreason ================= *)

Section BootReasonFacts.

Context (E : Env).

Lemma strcaseeq_lower (a b : string) :
  strcaseeq a b = String.eqb (lower a) (lower b).
Proof.
  revert b. induction a as [|x a IH]; intros [|y b]; cbn [strcaseeq lower];
    try reflexivity.
  cbn [String.eqb]. rewrite IH.
  destruct (Ascii.eqb_spec (tolower x) (tolower y)); reflexivity.
Qed.

(** X7: the boot reason is in the blacklist exactly when, case put aside,
    it is one of the two listed words as a whole; a reason that only
    starts with or contains one of them is not. *)
Theorem bootreason_in_blacklist_iff :
  bootreason_in_blacklist E = true
  <-> lower (prop_bootreason E) = "kernel_panic"
      \/ lower (prop_bootreason E) = "panic".
Proof.
  unfold bootreason_in_blacklist, bootreason_blacklist.
  cbn [existsb]. rewrite !strcaseeq_lower, orb_false_r.
  change (lower "kernel_panic") with "kernel_panic".
  change (lower "Panic") with "panic".
  destruct (String.eqb_spec (prop_bootreason E) "") as [->|Hne].
  - split; [discriminate|]. intros [H|H]; discriminate.
  - rewrite orb_true_iff, !String.eqb_eq. split; intros [H|H]; auto.
Qed.

End BootReasonFacts.

(** ** The appending copy of the log *)

Section CopyLogFileFacts.

Context (E : Env).

Lemma substr_from_app (a b : string) :
  substr_from (String.length a) (a +:+ b) = b.
Proof. induction a as [|c a IH]; [now destruct b|exact IH]. Qed.

Lemma substr_from_all (n : nat) (a : string) :
  (String.length a <= n)%nat -> substr_from n a = "".
Proof.
  revert n. induction a as [|c a IH]; intros [|n] H; cbn in *;
    try reflexivity; try lia.
  apply IH. lia.
Qed.

Lemma substr_from_app_le (n : nat) (a b : string) :
  (n <= String.length a)%nat ->
  substr_from n (a +:+ b) = substr_from n a +:+ b.
Proof.
  revert n. induction a as [|c a IH]; intros [|n] H; cbn in *;
    try reflexivity; try lia.
  apply IH. lia.
Qed.

Lemma string_app_nil_r (a : string) : a +:+ "" = a.
Proof.
  induction a as [|c a IH]; [reflexivity|].
  change (String c (a +:+ "") = String c a). now rewrite IH.
Qed.

(** An appending copy that can open its destination. *)
Lemma copy_log_file_append_run (src dst : string) (w : World) (f : file) :
  src <> dst ->
  io_ok E (OpMount dst) = true ->
  io_ok E (OpOpenWrite dst) = true ->
  files w !! src = Some f ->
  let data := substr_from (tmplog_offset w) (f_data f) in
  copy_log_file E src dst true w
  = (Done tt,
     set_tmplog_offset (Nat.max (tmplog_offset w) (String.length (f_data f)))
       (set_files (<[dst := appended data (files w !! dst)]> (files w))
          (set_trace (trace w ++ [EvMount dst; EvMkdirRec dst; EvFopen dst true;
                                  EvReadFile src; EvWriteFile dst data]) w))).
Proof.
  intros Hne Hm Ho Hf. cbn zeta.
  unfold copy_log_file, fopen_path_write, fopen_write, ensure_path_mounted,
    mkdir_recursively, ReadFileToString, fwrite.
  run. rewrite Hm. cbn. rewrite Ho. cbn.
  rewrite lookup_insert_ne by congruence. rewrite Hf. cbn.
  rewrite alter_insert_eq. unfold appended.
  rewrite <- !List.app_assoc. cbn [app].
  destruct (files w !! dst) as [g|]; reflexivity.
Qed.

(** X8: the appending copy hands over each byte of the source once.  A
    copy made with the cursor inside the source appends the bytes from the
    cursor on and leaves the cursor at the end of the source; when the
    source has grown by [more] since, the next copy appends [more] and
    nothing else. *)
Theorem copy_log_file_appends_new_bytes (src dst more : string) (w : World)
    (f : file) :
  src <> dst ->
  io_ok E (OpMount dst) = true ->
  io_ok E (OpOpenWrite dst) = true ->
  files w !! src = Some f ->
  (tmplog_offset w <= String.length (f_data f))%nat ->
  let copy := copy_log_file E src dst true in
  let w1 := exec copy w in
  let grown := File (f_data f +:+ more) (f_mode f) (f_uid f) (f_gid f) in
  let w2 := exec copy (set_files (<[src := grown]> (files w1)) w1) in
  let old := match files w !! dst with Some g => f_data g | None => "" end in
  let first := substr_from (tmplog_offset w) (f_data f) in
  f_data <$> files w1 !! dst = Some (old +:+ first)
  /\ tmplog_offset w1 = String.length (f_data f)
  /\ f_data <$> files w2 !! dst = Some ((old +:+ first) +:+ more)
  /\ tmplog_offset w2 = String.length (f_data f +:+ more).
Proof.
  intros Hne Hm Ho Hf Hoff. cbn zeta.
  set (first := substr_from (tmplog_offset w) (f_data f)).
  assert (Hw1 : exists w1, exec (copy_log_file E src dst true) w = w1
            /\ files w1 !! dst = Some (appended first (files w !! dst))
            /\ tmplog_offset w1 = String.length (f_data f)).
  { eexists. split; [reflexivity|]. unfold exec.
    rewrite (copy_log_file_append_run src dst w f Hne Hm Ho Hf). cbn zeta.
    cbn [snd]. split; [cbn; apply lookup_insert_eq|cbn; lia]. }
  destruct Hw1 as (w1 & -> & H1 & Hoff1).
  split; [|split; [exact Hoff1|]].
  { rewrite H1. cbn. unfold appended.
    destruct (files w !! dst); reflexivity. }
  set (grown := File (f_data f +:+ more) (f_mode f) (f_uid f) (f_gid f)).
  set (w1' := set_files (<[src := grown]> (files w1)) w1).
  assert (Hf' : files w1' !! src = Some grown)
    by (cbn; apply lookup_insert_eq).
  unfold exec.
  rewrite (copy_log_file_append_run src dst w1' grown Hne Hm Ho Hf').
  cbn zeta. cbn [snd].
  assert (Hd : files w1' !! dst = Some (appended first (files w !! dst))).
  { cbn [w1' files set_files]. rewrite lookup_insert_ne by congruence.
    exact H1. }
  assert (Ho1 : tmplog_offset w1' = String.length (f_data f)) by exact Hoff1.
  rewrite Hd, Ho1. cbn [files set_files set_tmplog_offset tmplog_offset].
  rewrite lookup_insert_eq. cbn [grown f_data].
  rewrite substr_from_app. split.
  - cbn. unfold appended. destruct (files w !! dst); reflexivity.
  - rewrite !length_app. lia.
Qed.

End CopyLogFileFacts.

Section CopyLogsFacts.

Context (E : Env).

Lemma copy_logs_parts (w : World) :
  modified_flash w = true -> has_cache w = true ->
  copy_logs E w
  = (copy_logs_head E ;;;
     copy_log_file E TEMPORARY_LOG_FILE LOG_FILE true ;;;
     copy_logs_tail E) w.
Proof.
  intros Hmf Hhc.
  unfold copy_logs, copy_logs_head, copy_logs_tail, copy_log_file_to_pmsg,
    ensure_path_mounted, rotate_logs, ReadFileToString.
  unfold bind, get, ret, emit, modify. cbn. rewrite Hmf. cbn. rewrite Hhc. cbn.
  reflexivity.
Qed.

Ltac different := cbv; discriminate.

Ltac lookups :=
  repeat match goal with
         | |- context [alter ?f ?i ?m !! ?j] =>
             first [ rewrite (lookup_alter_ne f m i j) by different
                   | rewrite (lookup_alter_eq f m i) ]
         | |- context [<[?i := ?x]> ?m !! ?j] =>
             first [ rewrite (lookup_insert_ne m i j x) by different
                   | rewrite (lookup_insert_eq m i x) ]
         | |- context [delete ?i ?m !! ?j] =>
             first [ rewrite (lookup_delete_ne m i j) by different
                   | rewrite (lookup_delete_eq m i) ]
         end.

Ltac keeps_log_state :=
  unfold same, log_state; cbn; lookups;
  rewrite <- ?option_fmap_compose; reflexivity.

Lemma copy_log_file_other (src dst : string) :
  dst <> LOG_FILE -> dst <> TEMPORARY_LOG_FILE ->
  runs (copy_log_file E src dst false) (same log_state).
Proof.
  intros H1 H2. unfold copy_log_file. cbn [when].
  runs_with ltac:(unfold same, log_state; cbn;
                  rewrite ?lookup_insert_ne, ?lookup_alter_ne by congruence;
                  reflexivity).
Qed.

Lemma copy_logs_tail_runs : runs (copy_logs_tail E) (same log_state).
Proof.
  pose proof (copy_log_file_other TEMPORARY_LOG_FILE LAST_LOG_FILE
                ltac:(cbv; discriminate) ltac:(cbv; discriminate)) as H1.
  pose proof (copy_log_file_other TEMPORARY_INSTALL_FILE LAST_INSTALL_FILE
                ltac:(cbv; discriminate) ltac:(cbv; discriminate)) as H2.
  unfold copy_logs_tail.
  repeat first [ exact H1 | exact H2 | runs_step keeps_log_state ].
Qed.

Lemma copy_logs_head_runs :
  rotation_keeps E LOG_FILE -> rotation_keeps E TEMPORARY_LOG_FILE ->
  runs (copy_logs_head E) (same log_state).
Proof.
  intros HL HT. unfold copy_logs_head.
  runs_with ltac:(unfold same, log_state; cbn; rewrite ?HL, ?HT; reflexivity).
Qed.

(** What a call of [copy_logs] that copies to /cache makes of the session
    log and of the cursor. *)
Lemma copy_logs_log_file (w : World) (f : file) :
  modified_flash w = true -> has_cache w = true ->
  io_ok E (OpMount LOG_FILE) = true ->
  io_ok E (OpOpenWrite LOG_FILE) = true ->
  rotation_keeps E LOG_FILE -> rotation_keeps E TEMPORARY_LOG_FILE ->
  files w !! TEMPORARY_LOG_FILE = Some f ->
  exists w1,
    copy_logs E w = (Done tt, w1)
    /\ log_state w1
       = (Some (default "" (f_data <$> files w !! LOG_FILE)
                +:+ substr_from (tmplog_offset w) (f_data f)),
          Some f,
          Nat.max (tmplog_offset w) (String.length (f_data f)),
          true, true).
Proof.
  intros Hmf Hhc Hm Ho HL HT Hf.
  rewrite (copy_logs_parts w Hmf Hhc).
  destruct (copy_logs_head_runs HL HT w) as ([] & w0 & E0 & S0).
  rewrite (bind_Done _ _ _ _ _ E0).
  unfold same, log_state in S0. injection S0 as S1 S2 S3 S4 S5.
  assert (Hf0 : files w0 !! TEMPORARY_LOG_FILE = Some f) by congruence.
  rewrite (bind_Done _ _ _ _ _
             (copy_log_file_append_run E TEMPORARY_LOG_FILE LOG_FILE w0 f
                ltac:(cbv; discriminate) Hm Ho Hf0)).
  match goal with |- context [copy_logs_tail E ?w] => set (wa := w) end.
  destruct (copy_logs_tail_runs wa) as ([] & w1 & E1 & S).
  exists w1. split; [exact E1|].
  rewrite S. unfold log_state, wa. cbn.
  rewrite lookup_insert_eq, lookup_insert_ne by (cbv; discriminate).
  rewrite Hf0, S3, S4, S5, Hmf, Hhc. unfold appended.
  rewrite <- S1. destruct (files w0 !! LOG_FILE); reflexivity.
Qed.

(** X9: a call of [copy_logs] that copies to /cache appends the part of
    the temporary log after the cursor to the session log and moves the
    cursor to the end; a second call, with nothing logged in between, adds
    nothing to the session log. *)
Theorem copy_logs_appends_once (w : World) (f : file) :
  modified_flash w = true -> has_cache w = true ->
  io_ok E (OpMount LOG_FILE) = true ->
  io_ok E (OpOpenWrite LOG_FILE) = true ->
  rotation_keeps E LOG_FILE -> rotation_keeps E TEMPORARY_LOG_FILE ->
  files w !! TEMPORARY_LOG_FILE = Some f ->
  (tmplog_offset w <= String.length (f_data f))%nat ->
  let w1 := exec (copy_logs E) w in
  let w2 := exec (copy_logs E) w1 in
  f_data <$> files w1 !! LOG_FILE
  = Some (default "" (f_data <$> files w !! LOG_FILE)
          +:+ substr_from (tmplog_offset w) (f_data f))
  /\ tmplog_offset w1 = String.length (f_data f)
  /\ f_data <$> files w2 !! LOG_FILE = f_data <$> files w1 !! LOG_FILE
  /\ tmplog_offset w2 = tmplog_offset w1.
Proof.
  intros Hmf Hhc Hm Ho HL HT Hf Hoff. cbn zeta.
  destruct (copy_logs_log_file w f Hmf Hhc Hm Ho HL HT Hf) as (w1 & E1 & S1).
  assert (Hexec1 : exec (copy_logs E) w = w1) by (unfold exec; now rewrite E1).
  rewrite Hexec1.
  unfold log_state in S1. injection S1 as L1 T1 O1 M1 C1.
  destruct (copy_logs_log_file w1 f M1 C1 Hm Ho HL HT T1) as (w2 & E2 & S2).
  assert (Hexec2 : exec (copy_logs E) w1 = w2) by (unfold exec; now rewrite E2).
  rewrite Hexec2.
  unfold log_state in S2. injection S2 as L2 T2 O2 M2 C2.
  rewrite L1, L2, O2, O1, L1. cbn [default]. unfold id.
  rewrite !(Nat.max_r _ _ Hoff), Nat.max_id.
  rewrite (substr_from_all (String.length (f_data f))) by lia.
  rewrite string_app_nil_r. repeat split; reflexivity.
Qed.

(** X10: without a cache volume, [copy_logs] hands the temporary log and
    the install log to pmsg and does nothing else: no mount, no rotation,
    no file written, the cursor left where it was. *)
Theorem copy_logs_without_cache (w : World) :
  modified_flash w = true -> has_cache w = false ->
  let content path :=
    match files w !! path with Some f => f_data f | None => "" end in
  let log := content TEMPORARY_LOG_FILE in
  let install := content TEMPORARY_INSTALL_FILE in
  eval (copy_logs E) w = Done tt
  /\ emitted (copy_logs E) w
     = [EvReadFile TEMPORARY_LOG_FILE; EvPmsgWrite LAST_LOG_FILE log;
        EvReadFile TEMPORARY_INSTALL_FILE;
        EvPmsgWrite LAST_INSTALL_FILE install]
  /\ pmsg (exec (copy_logs E) w)
     = pmsg w ++ [(LAST_LOG_FILE, log); (LAST_INSTALL_FILE, install)]
  /\ (files (exec (copy_logs E) w), rotations (exec (copy_logs E) w),
      tmplog_offset (exec (copy_logs E) w))
     = (files w, rotations w, tmplog_offset w).
Proof.
  intros Hmf Hhc. cbn zeta.
  unfold copy_logs, copy_log_file_to_pmsg, ReadFileToString.
  run. rewrite Hmf. cbn. rewrite Hhc. cbn.
  rewrite <- !List.app_assoc, drop_app_length. cbn.
  destruct (files w !! TEMPORARY_LOG_FILE),
    (files w !! TEMPORARY_INSTALL_FILE); cbn; auto.
Qed.

End CopyLogsFacts.

(** ** What the wipes format *)

Global Instance quiet_preorder (P : Event -> bool) : PreOrder (quiet P).
Proof.
  split.
  - intros w. exists []. split; [symmetry; apply app_nil_r|reflexivity].
  - intros a b c (l1 & H1 & Q1) (l2 & H2 & Q2). exists (l1 ++ l2). split.
    + rewrite H2, H1. symmetry. apply List.app_assoc.
    + unfold only in *. now rewrite filter_app, Q1, Q2.
Qed.

Ltac quietly :=
  first [ exists []; split; [cbn; symmetry; apply app_nil_r|reflexivity]
        | eexists [_]; split; [cbn; reflexivity|reflexivity] ].

Lemma only_app (P : Event -> bool) (l1 l2 : list Event) :
  only P (l1 ++ l2) = only P l1 ++ only P l2.
Proof. apply filter_app. Qed.

Section WipeFacts.

Context (E : Env).

Lemma copy_logs_no_format : runs (copy_logs E) (quiet is_format_event).
Proof. runs_with quietly. Qed.

Lemma restore_log_files_no_format (logs : list saved_log_file) :
  runs (restore_log_files E logs) (quiet is_format_event).
Proof. runs_with quietly. Qed.

Lemma load_log_files_run (volume : string) (w : World) :
  load_log_files E volume w
  = (Done (if io_ok E (OpOpendir CACHE_LOG_DIR) then loaded_logs (files w)
           else []),
     set_trace (trace w ++ [EvMount volume; EvOpendir CACHE_LOG_DIR]) w).
Proof.
  unfold load_log_files, ensure_path_mounted. run.
  rewrite <- List.app_assoc.
  destruct (io_ok E (OpOpendir CACHE_LOG_DIR)); reflexivity.
Qed.

(** An erase that is not the one of /data for convert_fbe: the outcome is
    that of the one format it makes. *)
Lemma erase_volume_step (volume : string) (w : World) :
  String.eqb volume DATA_ROOT && reason_is (reason w) "convert_fbe" = false ->
  exists w' l,
    erase_volume E volume w
    = (Done (fst (format_volume_fn E volume None (files w)) =? 0), w')
    /\ file_effects w w'
    /\ trace w' = trace w ++ l
    /\ only is_format_event l = [EvFormat volume None].
Proof.
  intros Hplain.
  destruct (erase_volume_runs E volume w) as (b & w' & Eq & Hfx).
  exists w'. rewrite Eq.
  revert Eq. unfold erase_volume, format_volume, ensure_path_unmounted,
    ui_Print.
  unfold bind at 1.
  destruct (String.eqb volume CACHE_ROOT) eqn:Hc.
  - rewrite load_log_files_run. run. rewrite Hplain.
    destruct (format_volume_fn E volume None (files w)) as [rc fs'] eqn:Hfmt.
    cbn. rewrite ?Hfmt. cbn.
    match goal with |- context [restore_log_files E ?logs ?x] =>
      destruct (restore_log_files_no_format logs x) as ([] & x1 & E1 & Q1)
    end.
    rewrite E1.
    destruct (copy_logs_no_format x1) as ([] & x2 & E2 & Q2).
    rewrite E2. intros [= <- <-].
    destruct Q1 as (l1 & T1 & N1), Q2 as (l2 & T2 & N2).
    eexists. split; [reflexivity|]. split; [exact Hfx|].
    split.
    + rewrite T2, T1. cbn [trace set_trace set_files].
      rewrite <- !List.app_assoc. reflexivity.
    + cbn [app]. unfold only in *.
      repeat (rewrite filter_cons_False by (cbn; discriminate)).
      rewrite filter_cons_True by reflexivity.
      now rewrite filter_app, N1, N2.
  - run. rewrite Hplain.
    destruct (format_volume_fn E volume None (files w)) as [rc fs'] eqn:Hfmt.
    cbn. rewrite ?Hfmt. cbn. intros [= <- <-].
    eexists. split; [reflexivity|]. split; [exact Hfx|].
    split.
    + cbn. rewrite <- !List.app_assoc. reflexivity.
    + reflexivity.
Qed.

(** X11: outside the convert_fbe case, [erase_volume] formats the volume
    once and returns whether the formatter returned 0; for /cache this is
    so whether or not the saved logs could be read or written back. *)
Theorem erase_volume_reports_format (volume : string) (w : World) :
  String.eqb volume DATA_ROOT && reason_is (reason w) "convert_fbe" = false ->
  eval (erase_volume E volume) w
  = Done (fst (format_volume_fn E volume None (files w)) =? 0)
  /\ only is_format_event (emitted (erase_volume E volume) w)
     = [EvFormat volume None].
Proof.
  intros Hplain.
  destruct (erase_volume_step volume w Hplain) as (w' & l & Eq & _ & Ht & Hl).
  unfold eval, emitted, exec. rewrite Eq. cbn [fst snd].
  now rewrite Ht, drop_app_length.
Qed.

Lemma reason_kept (w w' : World) : file_effects w w' -> reason w' = reason w.
Proof. intros H. now injection H. Qed.

Lemma has_cache_kept (w w' : World) :
  file_effects w w' -> has_cache w' = has_cache w.
Proof. intros H. now injection H. Qed.

(** X12: once the pre-wipe hook has succeeded, [wipe_data] formats /data,
    then /cache if there is a cache volume, then /metadata if there is a
    metadata volume, whatever the outcome of the formats before; when the
    hook fails it formats nothing. *)
Theorem wipe_data_formats (w : World) :
  reason_is (reason w) "convert_fbe" = false ->
  only is_format_event (emitted (wipe_data E) w)
  = if dev_PreWipeData E then
      [EvFormat DATA_ROOT None]
      ++ (if has_cache w then [EvFormat CACHE_ROOT None] else [])
      ++ (if has_metadata_volume E then [EvFormat METADATA_ROOT None] else [])
    else [].
Proof.
  intros Hr. unfold wipe_data. run.
  destruct (dev_PreWipeData E).
  2:{ cbn. rewrite <- !List.app_assoc, drop_app_length. reflexivity. }
  assert (step : forall volume x,
            reason x = reason w ->
            exists b x' l,
              erase_volume E volume x = (Done b, x')
              /\ reason x' = reason w /\ has_cache x' = has_cache x
              /\ trace x' = trace x ++ l
              /\ only is_format_event l = [EvFormat volume None]).
  { intros volume x Hx.
    destruct (erase_volume_step volume x) as (x' & l & Eq & Hfx & Ht & Hl).
    - rewrite Hx, Hr. apply andb_false_r.
    - eexists. exists x', l.
      rewrite (reason_kept _ _ Hfx), (has_cache_kept _ _ Hfx). eauto. }
  match goal with |- context [erase_volume E DATA_ROOT ?x] =>
    destruct (step DATA_ROOT x eq_refl)
      as (b1 & x1 & l1 & E1 & R1 & C1 & T1 & L1)
  end.
  rewrite !E1. cbn. rewrite C1. cbn.
  destruct (has_cache w).
  - destruct (step CACHE_ROOT x1 R1) as (b2 & x2 & l2 & E2 & R2 & C2 & T2 & L2).
    rewrite !E2. cbn.
    destruct (has_metadata_volume E).
    + destruct (step METADATA_ROOT x2 R2)
        as (b3 & x3 & l3 & E3 & R3 & C3 & T3 & L3).
      rewrite !E3.
      destruct b1, b2, b3, (dev_PostWipeData E); cbn;
        rewrite T3, T2, T1; cbn; rewrite <- ?List.app_assoc, drop_app_length;
        unfold only in *; rewrite ?filter_app, L1, L2, L3; reflexivity.
    + destruct b1, b2, (dev_PostWipeData E); cbn;
        rewrite T2, T1; cbn; rewrite <- ?List.app_assoc, drop_app_length;
        unfold only in *; rewrite ?filter_app, L1, L2; reflexivity.
  - destruct (has_metadata_volume E).
    + destruct (step METADATA_ROOT x1 R1)
        as (b3 & x3 & l3 & E3 & R3 & C3 & T3 & L3).
      rewrite !E3.
      destruct b1, b3, (dev_PostWipeData E); cbn;
        rewrite T3, T1; cbn; rewrite <- ?List.app_assoc, drop_app_length;
        unfold only in *; rewrite ?filter_app, L1, L3; reflexivity.
    + destruct b1, (dev_PostWipeData E); cbn;
        rewrite T1; cbn; rewrite <- ?List.app_assoc, drop_app_length;
        unfold only in *; rewrite ?filter_app, L1; reflexivity.
Qed.

(** X13: [wipe_data] always sets the modified-flash marker, and it marks
    the user data as not encrypted and not mountable exactly when it
    returns success; after a failed wipe the two flags are as before. *)
Theorem wipe_data_marks (w : World) :
  let w' := exec (wipe_data E) w in
  exists b,
    eval (wipe_data E) w = Done b
    /\ modified_flash w' = true
    /\ (userdata_mountable w', userdata_encrypted w')
       = (if b then (false, false)
          else (userdata_mountable w, userdata_encrypted w)).
Proof.
  cbn zeta. unfold wipe_data. run.
  destruct (dev_PreWipeData E).
  2:{ exists false. auto. }
  assert (step : forall volume x,
            exists b x',
              erase_volume E volume x = (Done b, x')
              /\ (modified_flash x', userdata_mountable x',
                  userdata_encrypted x', has_cache x')
                 = (modified_flash x, userdata_mountable x,
                    userdata_encrypted x, has_cache x)).
  { intros volume x.
    destruct (erase_volume_runs E volume x) as (b & x' & Eq & Hfx).
    exists b, x'. split; [exact Eq|]. injection Hfx. intros. congruence. }
  match goal with |- context [erase_volume E DATA_ROOT ?x] =>
    destruct (step DATA_ROOT x) as (b1 & x1 & E1 & S1)
  end.
  rewrite !E1. cbn. injection S1 as M1 U1 N1 C1. cbn in *. rewrite C1.
  destruct (has_cache w).
  - destruct (step CACHE_ROOT x1) as (b2 & x2 & E2 & S2).
    rewrite !E2. cbn. injection S2 as M2 U2 N2 C2.
    destruct (has_metadata_volume E).
    + destruct (step METADATA_ROOT x2) as (b3 & x3 & E3 & S3).
      rewrite !E3. injection S3 as M3 U3 N3 C3.
      destruct b1, b2, b3, (dev_PostWipeData E); cbn;
        eexists; (split; [reflexivity|]); split; congruence.
    + destruct b1, b2, (dev_PostWipeData E); cbn;
        eexists; (split; [reflexivity|]); split; congruence.
  - destruct (has_metadata_volume E).
    + destruct (step METADATA_ROOT x1) as (b3 & x3 & E3 & S3).
      rewrite !E3. injection S3 as M3 U3 N3 C3.
      destruct b1, b3, (dev_PostWipeData E); cbn;
        eexists; (split; [reflexivity|]); split; congruence.
    + destruct b1, (dev_PostWipeData E); cbn;
        eexists; (split; [reflexivity|]); split; congruence.
Qed.

(** X14: without a cache volume [wipe_cache] prints that there is none and
    fails, with nothing formatted and the modified-flash marker left as it
    was; with one it sets the marker, formats /cache once and returns
    whether the formatter returned 0. *)
Theorem wipe_cache_outcome (w : World) :
  let m := wipe_cache E in
  if has_cache w then
    eval m w = Done (fst (format_volume_fn E CACHE_ROOT None (files w)) =? 0)
    /\ only is_format_event (emitted m w) = [EvFormat CACHE_ROOT None]
    /\ modified_flash (exec m w) = true
  else
    eval m w = Done false
    /\ emitted m w = [EvPrint ("No /cache partition found." +:+ NL)]
    /\ modified_flash (exec m w) = modified_flash w
    /\ files (exec m w) = files w.
Proof.
  cbn zeta. unfold wipe_cache. run.
  destruct (has_cache w) eqn:Hhc; cbn.
  2:{ rewrite drop_app_length. auto. }
  match goal with |- context [erase_volume E "/cache" ?x] =>
    destruct (erase_volume_step "/cache" x eq_refl)
      as (x1 & l & Eq & Hfx & Ht & Hl)
  end.
  change "/cache" with CACHE_ROOT in *.
  rewrite !Eq. cbn. split; [reflexivity|]. split.
  - rewrite Ht. cbn. rewrite <- !List.app_assoc, drop_app_length.
    unfold only in *. rewrite ?filter_app, Hl. reflexivity.
  - injection Hfx. intros. congruence.
Qed.

End WipeFacts.

(** ** The secure wipe *)

Section SecureWipeFacts.

Context (E : Env).

Lemma secure_wipe_partition_run (partition : string) :
  let bd := blockdevs E partition in
  let sized := match bd_size bd with Some n => negb (n =? 0) | None => false end in
  let requests :=
    if bd_open_ok bd then
      "BLKGETSIZE64"
      :: (if sized then
            "BLKSECDISCARD"
            :: (if bd_secdiscard_ok bd then []
                else "BLKDISCARDZEROES"
                     :: (if discard_zeroes bd then ["BLKDISCARD"]
                         else ["BLKZEROOUT"]))
          else [])
    else [] in
  let ok :=
    bd_open_ok bd && sized
    && (bd_secdiscard_ok bd
        || (if discard_zeroes bd then bd_discard_ok bd else bd_zeroout_ok bd)) in
  forall w,
    secure_wipe_partition E partition w
    = (Done ok,
       set_trace (trace w ++ EvOpenBlockDev partition
                             :: map (EvIoctl partition) requests) w).
Proof.
  cbn zeta. intros w. unfold secure_wipe_partition, discard_zeroes. run.
  destruct (bd_open_ok (blockdevs E partition)); cbn; [|reflexivity].
  destruct (bd_size (blockdevs E partition)) as [[|n|n]|]; cbn;
    rewrite <- ?List.app_assoc; try reflexivity.
  - destruct (bd_secdiscard_ok (blockdevs E partition)); cbn;
      rewrite <- ?List.app_assoc; [reflexivity|].
    destruct (bd_discard_zeroes (blockdevs E partition)) as [z|]; cbn;
      [destruct (z =? 0); cbn|]; rewrite <- ?List.app_assoc; reflexivity.
  - destruct (bd_secdiscard_ok (blockdevs E partition)); cbn;
      rewrite <- ?List.app_assoc; [reflexivity|].
    destruct (bd_discard_zeroes (blockdevs E partition)) as [z|]; cbn;
      [destruct (z =? 0); cbn|]; rewrite <- ?List.app_assoc; reflexivity.
Qed.

Lemma ioctls_of_requests (partition : string) (requests : list string) :
  ioctls_of partition
    (EvOpenBlockDev partition :: map (EvIoctl partition) requests)
  = requests.
Proof.
  unfold ioctls_of. cbn [omap list_omap].
  induction requests as [|r rs IH]; [reflexivity|].
  cbn [map omap list_omap] in *. rewrite String.eqb_refl. now rewrite IH.
Qed.

Lemma opened_devices_requests (partition : string) (requests : list string) :
  opened_devices
    (EvOpenBlockDev partition :: map (EvIoctl partition) requests)
  = [partition].
Proof.
  unfold opened_devices. cbn [omap list_omap]. f_equal.
  induction requests as [|r rs IH]; [reflexivity|exact IH].
Qed.

(** X15: [secure_wipe_partition] succeeds exactly when the device opens,
    reports a size that is not zero, and either takes BLKSECDISCARD or
    takes the one fallback it is given: BLKDISCARD when the device says a
    discard zeroes the blocks, BLKZEROOUT otherwise.  A fallback is only
    tried after BLKSECDISCARD failed, and never both. *)
Theorem secure_wipe_partition_outcome (partition : string) (w : World) :
  let bd := blockdevs E partition in
  let m := secure_wipe_partition E partition in
  let requests := ioctls_of partition (emitted m w) in
  (eval m w = Done true <->
   bd_open_ok bd = true
   /\ (exists n, bd_size bd = Some n /\ n <> 0)
   /\ (bd_secdiscard_ok bd = true
       \/ (discard_zeroes bd = true /\ bd_discard_ok bd = true)
       \/ (discard_zeroes bd = false /\ bd_zeroout_ok bd = true)))
  /\ (In "BLKDISCARD" requests ->
      bd_secdiscard_ok bd = false /\ discard_zeroes bd = true)
  /\ (In "BLKZEROOUT" requests ->
      bd_secdiscard_ok bd = false /\ discard_zeroes bd = false)
  /\ opened_devices (emitted m w) = [partition].
Proof.
  cbn zeta. unfold eval, emitted, exec.
  rewrite secure_wipe_partition_run. cbn zeta. cbn [fst snd trace set_trace].
  rewrite drop_app_length, ioctls_of_requests, opened_devices_requests.
  split; [|split; [|split; [|reflexivity]]].
  - destruct (bd_open_ok _); cbn; [|intuition discriminate].
    destruct (bd_size _) as [n|]; cbn.
    2:{ split; [discriminate|]. intros (_ & (n & Hn & _) & _). discriminate. }
    destruct (Z.eqb_spec n 0) as [->|Hn]; cbn.
    { split; [discriminate|]. intros (_ & (n & [= <-] & Hn) & _).
      contradiction. }
    destruct (bd_secdiscard_ok _); cbn.
    { split; [|reflexivity]. intros _. eauto 6. }
    destruct (discard_zeroes _), (bd_discard_ok _), (bd_zeroout_ok _); cbn;
      (split;
       [ intros H;
         first [ discriminate H
               | split; [reflexivity|]; split; [eauto|]; auto ]
       | intros (_ & _ & [H|[[H1 H2]|[H1 H2]]]);
         first [ discriminate | reflexivity ] ]).
  - destruct (bd_open_ok _); cbn; [|tauto].
    destruct (match bd_size _ with Some n => _ | None => _ end); cbn;
      [|intuition discriminate].
    destruct (bd_secdiscard_ok _); cbn; [intuition discriminate|].
    destruct (discard_zeroes _); cbn; intuition discriminate.
  - destruct (bd_open_ok _); cbn; [|tauto].
    destruct (match bd_size _ with Some n => _ | None => _ end); cbn;
      [|intuition discriminate].
    destruct (bd_secdiscard_ok _); cbn; [intuition discriminate|].
    destruct (discard_zeroes _); cbn; intuition discriminate.
Qed.

Lemma secure_wipe_partition_events (partition : string) :
  exists ok requests, forall w,
    secure_wipe_partition E partition w
    = (Done ok,
       set_trace (trace w ++ EvOpenBlockDev partition
                             :: map (EvIoctl partition) requests) w).
Proof.
  eexists. eexists. intros w. apply secure_wipe_partition_run.
Qed.

(** *** wipe_ab_device *)

Lemma check_wipe_package_run (size : N) :
  exists b l,
    opened_devices l = []
    /\ forall w,
         check_wipe_package E size w = (Done b, set_trace (trace w ++ l) w).
Proof.
  unfold check_wipe_package.
  destruct (N.eqb size 0).
  { exists false, []. split; [reflexivity|]. intros w. run.
    rewrite app_nil_r. now destruct w. }
  destruct (wipe_package E size) as [package|].
  2:{ exists false, [EvReadWipePackage size]. split; [reflexivity|].
      intros w. run. reflexivity. }
  destruct (verify_package_fn E package) eqn:Hv.
  2:{ exists false, [EvReadWipePackage size; EvVerifyPackage].
      split; [reflexivity|]. intros w. run.
      now rewrite <- List.app_assoc. }
  destruct (archive_metadata E package) as [[metadata|]|] eqn:Ha.
  - exists (check_metadata E metadata),
      [EvReadWipePackage size; EvVerifyPackage; EvOpenArchive; EvReadMetadata].
    split; [reflexivity|]. intros w. run.
    now rewrite <- !List.app_assoc.
  - exists false,
      [EvReadWipePackage size; EvVerifyPackage; EvOpenArchive; EvReadMetadata].
    split; [reflexivity|]. intros w. run.
    now rewrite <- !List.app_assoc.
  - exists false, [EvReadWipePackage size; EvVerifyPackage; EvOpenArchive].
    split; [reflexivity|]. intros w. run.
    now rewrite <- !List.app_assoc.
Qed.

(** The loop over the lines of the wipe list. *)
Lemma wipe_lines_run (lines : list string) :
  exists l,
    opened_devices l
    = filter (fun p => StartsWith p "#" || String.eqb p "" = false)
        (map Trim lines)
    /\ forall w,
         forM lines (fun line =>
           let partition := Trim line in
           if StartsWith partition "#" || String.eqb partition "" then ret tt
           else _ <- secure_wipe_partition E partition ;; ret tt) w
         = (Done tt, set_trace (trace w ++ l) w).
Proof.
  induction lines as [|line lines (l & Hl & IH)].
  - exists []. split; [reflexivity|]. intros w. cbn. rewrite app_nil_r.
    now destruct w.
  - cbn [map forM].
    destruct (StartsWith (Trim line) "#" || String.eqb (Trim line) "") eqn:Hs.
    + exists l. split.
      * rewrite filter_cons_False by (rewrite Hs; discriminate). exact Hl.
      * intros w. unfold bind at 1. cbn. rewrite IH. reflexivity.
    + destruct (secure_wipe_partition_events (Trim line))
        as (ok & requests & Hp).
      exists ((EvOpenBlockDev (Trim line)
               :: map (EvIoctl (Trim line)) requests) ++ l).
      split.
      * rewrite filter_cons_True by exact Hs.
        unfold opened_devices in *. rewrite omap_app.
        fold (opened_devices
                (EvOpenBlockDev (Trim line)
                 :: map (EvIoctl (Trim line)) requests)).
        rewrite opened_devices_requests, Hl. reflexivity.
      * intros w. unfold bind at 1. unfold bind at 1.
        rewrite Hp. cbn [ret]. rewrite IH. cbn [trace set_trace]. f_equal.
        rewrite <- List.app_assoc. now destruct w.
Qed.

(** X16: once the wipe package is accepted, [wipe_ab_device] opens for a
    secure wipe the partitions that /etc/recovery.wipe names, in the
    order of the file, comments and blank lines left out, and returns
    success whatever becomes of the single wipes; when the file cannot be
    read it fails and opens no device. *)
Theorem wipe_ab_device_wipes_listed (size : N) (w : World) :
  eval (check_wipe_package E size) w = Done true ->
  let m := wipe_ab_device E size in
  match files w !! RECOVERY_WIPE with
  | Some f =>
      eval m w = Done true
      /\ opened_devices (emitted m w) = listed_partitions (f_data f)
  | None =>
      eval m w = Done false /\ opened_devices (emitted m w) = []
  end.
Proof.
  intros Hcheck. cbn zeta.
  destruct (check_wipe_package_run size) as (b & lc & Hlc & Hrun).
  assert (b = true) as ->.
  { unfold eval in Hcheck. rewrite Hrun in Hcheck. now injection Hcheck. }
  assert (Hw : exists l,
             opened_devices l
             = match files w !! RECOVERY_WIPE with
               | Some f => listed_partitions (f_data f)
               | None => []
               end
             /\ wipe_ab_device E size w
                = (Done (match files w !! RECOVERY_WIPE with
                         | Some _ => true
                         | None => false
                         end),
                   set_trace (trace w ++ l) w)).
  { unfold wipe_ab_device.
    erewrite bind_Done by reflexivity.
    erewrite bind_Done by reflexivity.
    erewrite bind_Done by apply Hrun.
    cbn [negb].
    erewrite bind_Done by reflexivity.
    cbn [files set_trace].
    destruct (files w !! RECOVERY_WIPE) as [f|]; cbn [fmap option_fmap option_map].
    - destruct (wipe_lines_run (Split (f_data f) newline)) as (l & Hl & Hloop).
      erewrite bind_Done by apply Hloop.
      eexists. split; [|cbn [ret trace set_trace]; rewrite <- !List.app_assoc;
                        reflexivity].
      unfold opened_devices in *. rewrite !omap_app, Hlc, Hl. reflexivity.
    - eexists. split; [|cbn [ret trace set_trace]; rewrite <- !List.app_assoc;
                        reflexivity].
      unfold opened_devices in *. rewrite !omap_app, Hlc. reflexivity. }
  destruct Hw as (l & Hl & Hw).
  unfold eval, emitted, exec. rewrite Hw. cbn [fst snd trace set_trace].
  rewrite drop_app_length, Hl.
  destruct (files w !! RECOVERY_WIPE); auto.
Qed.

(** X17: [check_wipe_package] always returns, and it accepts exactly the
    packages of a size that is not zero which can be read, which the
    verifier accepts, whose metadata can be read and has the line
    ota-type=BRICK, a pre-device field equal to the property
    ro.build.product (which [prop_product] stands for), and either no
    serialno field or one equal to the property ro.serialno
    ([prop_serialno]).  A package without a pre-device field is
    rejected. *)
Theorem check_wipe_package_accepts_iff (size : N) (w : World) :
  (exists b, eval (check_wipe_package E size) w = Done b)
  /\ (eval (check_wipe_package E size) w = Done true <->
      size <> 0%N
      /\ exists package metadata,
           wipe_package E size = Some package
           /\ verify_package_fn E package = true
           /\ archive_metadata E package = Some (Some metadata)
           /\ In "ota-type=BRICK" (Split metadata newline)
           /\ metadata_field "pre-device" (Split metadata newline)
              = Some (prop_product E)
           /\ (metadata_field "serialno" (Split metadata newline) = None
               \/ metadata_field "serialno" (Split metadata newline)
                  = Some (prop_serialno E))).
Proof.
  split.
  { destruct (check_wipe_package_run size) as (b & l & _ & Hrun).
    exists b. unfold eval. now rewrite Hrun. }
  split.
  - intros H.
    apply check_wipe_package_true in H
      as (package & metadata & Hs & Hp & Hv & Ha & Hm).
    split; [exact Hs|]. exists package, metadata.
    apply check_metadata_spec in Hm. tauto.
  - intros (Hs & package & metadata & Hp & Hv & Ha & Hm).
    apply (check_metadata_spec E) in Hm.
    unfold check_wipe_package, eval.
    destruct (N.eqb_spec size 0) as [->|_]; [contradiction|].
    run. rewrite Hp. cbn. rewrite Hv. cbn. rewrite Ha. cbn.
    now rewrite Hm.
Qed.

End SecureWipeFacts.

(** ** get_menu_selection and its callers *)

Section MenuFacts.

Context (E : Env).

Lemma apply_action_result (menu_only refreshable : bool)
    (action selected : Z) :
  menu_result (codes E) refreshable
    (snd (apply_action E menu_only refreshable action selected (-1))).
Proof.
  unfold apply_action, menu_result.
  destruct (action <? 0) eqn:Hneg.
  - repeat match goal with
           | |- context [if (?a =? ?b) then _ else _] =>
               destruct (a =? b); cbn [snd]; auto
           end.
    + destruct (Z.ltb_spec selected 0); auto 6.
    + destruct refreshable; auto 6.
  - apply Z.ltb_ge in Hneg. destruct menu_only; cbn; auto 6.
Qed.

Lemma menu_result_again (refreshable : bool) (r : Z) :
  menu_result (codes E) refreshable r ->
  is_sentinel E r = false -> (r <? 0) = true -> r = -1.
Proof.
  unfold is_sentinel. intros H Hs Hneg.
  apply orb_false_elim in Hs as [Hs Hr].
  apply orb_false_elim in Hs as [Hb Hh].
  apply Z.eqb_neq in Hb, Hh, Hr. apply Z.ltb_lt in Hneg.
  destruct H as [H|[H|[H|[[H _]|H]]]]; try congruence. lia.
Qed.

Lemma end_menu_run (r : Z) (w : World) :
  end_menu E r w
  = (Done r,
     set_trace (trace w ++ EvEndMenu
                :: (if r =? kGoHome (codes E) then [EvGoHome] else [])) w).
Proof.
  unfold end_menu. run. destruct (r =? kGoHome (codes E)); cbn.
  - now rewrite <- List.app_assoc.
  - reflexivity.
Qed.

(** The loop from its head: where it ends, and what it leaves of the
    queue when it parks. *)
Lemma menu_loop_outcome (fuel : nat) (menu_only refreshable : bool)
    (selected : Z) (w : World) :
  (length (input_queue w) < fuel)%nat ->
  exists l,
    trace (exec (menu_loop E fuel menu_only refreshable selected (-1)) w)
    = trace w ++ l
    /\ match eval (menu_loop E fuel menu_only refreshable selected (-1)) w with
       | Done r =>
           menu_result (codes E) refreshable r
           /\ menu_closed (codes E) r l
       | Parked =>
           input_queue
             (exec (menu_loop E fuel menu_only refreshable selected (-1)) w)
           = []
       end.
Proof.
  revert selected w.
  induction fuel as [|fuel IH]; intros selected w Hfuel; [lia|].
  unfold eval, exec. rewrite menu_loop_S.
  destruct (input_queue w) as [|evt q] eqn:Hq.
  { exists []. cbn. rewrite app_nil_r. auto. }
  cbn [length] in Hfuel.
  assert (Hq1 : input_queue (after_input evt q w) = q) by reflexivity.
  assert (Ht1 : trace (after_input evt q w) = trace w ++ [EvWaitInput evt])
    by reflexivity.
  assert (next : forall sel,
            exists l,
              trace (exec (menu_loop E fuel menu_only refreshable sel (-1))
                       (after_input evt q w)) = trace w ++ l
              /\ match eval (menu_loop E fuel menu_only refreshable sel (-1))
                         (after_input evt q w) with
                 | Done r =>
                     menu_result (codes E) refreshable r
                     /\ menu_closed (codes E) r l
                 | Parked =>
                     input_queue
                       (exec (menu_loop E fuel menu_only refreshable sel (-1))
                          (after_input evt q w)) = []
                 end).
  { intros sel.
    destruct (IH sel (after_input evt q w)) as (l & Hl & Hres);
      [rewrite Hq1; lia|].
    exists ([EvWaitInput evt] ++ l). split.
    - rewrite Hl, Ht1. now rewrite <- List.app_assoc.
    - destruct (eval _ _) as [r|]; [|exact Hres].
      destruct Hres as (Hr & front & Hc). split; [exact Hr|].
      exists ([EvWaitInput evt] ++ front).
      destruct Hc as [->|[-> ->]]; [left|right; split; [reflexivity|]];
        now rewrite <- List.app_assoc. }
  assert (turn : forall action sel,
            let r := apply_action E menu_only refreshable action sel (-1) in
            exists l,
              trace
                ((if is_sentinel E (snd r) then end_menu E (snd r)
                  else if snd r <? 0
                       then menu_loop E fuel menu_only refreshable (fst r)
                              (snd r)
                       else end_menu E (snd r)) (after_input evt q w)).2
              = trace w ++ l
              /\ match
                   ((if is_sentinel E (snd r) then end_menu E (snd r)
                     else if snd r <? 0
                          then menu_loop E fuel menu_only refreshable (fst r)
                                 (snd r)
                          else end_menu E (snd r)) (after_input evt q w)).1
                 with
                 | Done r' =>
                     menu_result (codes E) refreshable r'
                     /\ menu_closed (codes E) r' l
                 | Parked =>
                     input_queue
                       ((if is_sentinel E (snd r) then end_menu E (snd r)
                         else if snd r <? 0
                              then menu_loop E fuel menu_only refreshable
                                     (fst r) (snd r)
                              else end_menu E (snd r))
                          (after_input evt q w)).2 = []
                 end).
  { intros action sel r.
    pose proof (apply_action_result menu_only refreshable action sel) as Hr.
    fold r in Hr.
    assert (ended :
              exists l,
                trace (end_menu E (snd r) (after_input evt q w)).2
                = trace w ++ l
                /\ menu_result (codes E) refreshable (snd r)
                /\ menu_closed (codes E) (snd r) l).
    { rewrite end_menu_run. cbn [snd trace set_trace]. rewrite Ht1.
      eexists. split; [rewrite <- List.app_assoc; reflexivity|].
      split; [exact Hr|]. exists [EvWaitInput evt].
      destruct (Z.eqb_spec (snd r) (kGoHome (codes E))); auto. }
    destruct (is_sentinel E (snd r)) eqn:Hs.
    - destruct ended as (l & Hl & Hres). exists l. split; [exact Hl|].
      rewrite end_menu_run. exact Hres.
    - destruct (snd r <? 0) eqn:Hneg.
      + rewrite (menu_result_again _ _ Hr Hs Hneg). apply next.
      + destruct ended as (l & Hl & Hres). exists l. split; [exact Hl|].
        rewrite end_menu_run. exact Hres. }
  destruct evt as [|pos|key].
  - destruct (text_ever_visible w).
    + apply next.
    + exists [EvWaitInput EVENT_NONE; EvEndMenu]. cbn [fst snd trace set_trace].
      rewrite Ht1, <- List.app_assoc. split; [reflexivity|].
      split; [left; reflexivity|]. exists [EvWaitInput EVENT_NONE]. now left.
  - destruct (resolved E (EVENT_TOUCH pos) selected (text_visible w))
      as [action sel].
    specialize (turn action sel). cbn zeta in turn.
    destruct (apply_action E menu_only refreshable action sel (-1))
      as [sel' chosen']. exact turn.
  - destruct (resolved E (EVENT_KEY key) selected (text_visible w))
      as [action sel].
    specialize (turn action sel). cbn zeta in turn.
    destruct (apply_action E menu_only refreshable action sel (-1))
      as [sel' chosen']. exact turn.
Qed.

(** The loop does not look at the trace. *)
Lemma menu_loop_untraced (fuel : nat) (menu_only refreshable : bool)
    (selected chosen_item : Z) (w : World) (t : list Event) :
  let m := menu_loop E fuel menu_only refreshable selected chosen_item in
  fst (m (set_trace t w)) = fst (m w)
  /\ input_queue (snd (m (set_trace t w))) = input_queue (snd (m w)).
Proof.
  cbn zeta. revert selected chosen_item w t.
  induction fuel as [|fuel IH]; intros selected chosen_item w t;
    [split; reflexivity|].
  rewrite !menu_loop_S. cbn [input_queue set_trace].
  destruct (input_queue w) as [|evt q] eqn:Hq; [split; reflexivity|].
  assert (next : forall sel ch,
            let m := menu_loop E fuel menu_only refreshable sel ch in
            fst (m (after_input evt q (set_trace t w)))
            = fst (m (after_input evt q w))
            /\ input_queue (snd (m (after_input evt q (set_trace t w))))
               = input_queue (snd (m (after_input evt q w)))).
  { intros sel ch. cbn zeta. unfold after_input.
    cbn [trace set_trace input_queue set_input_queue].
    destruct (IH sel ch (set_input_queue q w) (t ++ [EvWaitInput evt]))
      as [A1 B1].
    destruct (IH sel ch (set_input_queue q w) (trace w ++ [EvWaitInput evt]))
      as [A2 B2].
    split; [exact (eq_trans A1 (eq_sym A2))|exact (eq_trans B1 (eq_sym B2))]. }
  assert (ended : forall r,
            fst (end_menu E r (after_input evt q (set_trace t w)))
            = fst (end_menu E r (after_input evt q w))
            /\ input_queue (snd (end_menu E r (after_input evt q (set_trace t w))))
               = input_queue (snd (end_menu E r (after_input evt q w))))
    by (intros r; rewrite !end_menu_run; split; reflexivity).
  destruct evt as [|pos|key].
  - cbn [text_ever_visible set_trace].
    destruct (text_ever_visible w); [apply next|split; reflexivity].
  - cbn [text_visible set_trace].
    destruct (resolved E _ _ _) as [action sel].
    destruct (apply_action _ _ _ _ _ _) as [sel' chosen'].
    destruct (is_sentinel E chosen'); [apply ended|].
    destruct (chosen' <? 0); [apply next|apply ended].
  - cbn [text_visible set_trace].
    destruct (resolved E _ _ _) as [action sel].
    destruct (apply_action _ _ _ _ _ _) as [sel' chosen'].
    destruct (is_sentinel E chosen'); [apply ended|].
    destruct (chosen' <? 0); [apply next|apply ended].
Qed.

Lemma get_menu_selection_outcome (menu_only : bool) (initial_selection : Z)
    (refreshable : bool) (w : World) :
  let m := get_menu_selection E menu_only initial_selection refreshable in
  exists l,
    trace (exec m w)
    = trace w ++ [EvFlushKeys; EvStartMenu initial_selection] ++ l
    /\ match eval m w with
       | Done r =>
           menu_result (codes E) refreshable r /\ menu_closed (codes E) r l
       | Parked => input_queue (exec m w) = []
       end.
Proof.
  cbn zeta. unfold get_menu_selection, eval, exec.
  erewrite bind_Done by reflexivity.
  erewrite bind_Done by reflexivity.
  erewrite bind_Done by reflexivity.
  match goal with |- context [menu_loop E ?fuel _ _ _ _ ?x] =>
    destruct (menu_loop_outcome fuel menu_only refreshable
                initial_selection x) as (l & Hl & Hres); [cbn; lia|]
  end.
  exists l. split; [|exact Hres].
  unfold exec in Hl. rewrite Hl. cbn. now rewrite <- !List.app_assoc.
Qed.

(** X18: [get_menu_selection] starts by flushing the keys and showing the
    menu.  When it returns, the value is -1, the Back or the Home
    sentinel, the Refresh sentinel (for a refreshable menu only) or a
    number that is not negative, and the last call was [EndMenu], followed
    by [GoHome] only for the Home sentinel; it waits for ever only once
    every event of the queue has been taken. *)
Theorem get_menu_selection_returns (menu_only : bool) (initial_selection : Z)
    (refreshable : bool) (w : World) :
  let m := get_menu_selection E menu_only initial_selection refreshable in
  exists l,
    emitted m w = [EvFlushKeys; EvStartMenu initial_selection] ++ l
    /\ match eval m w with
       | Done r =>
           menu_result (codes E) refreshable r /\ menu_closed (codes E) r l
       | Parked => input_queue (exec m w) = []
       end.
Proof.
  cbn zeta.
  destruct (get_menu_selection_outcome menu_only initial_selection
              refreshable w) as (l & Hl & Hres).
  exists l. split; [|exact Hres]. now apply emitted_grows.
Qed.

(** X19: a time-out ends the menu with -1 when the text was never shown,
    and is passed over when it was: the menu then goes on with the rest of
    the queue as if the time-out had not been in it. *)
Theorem get_menu_selection_timeout (menu_only : bool) (initial_selection : Z)
    (refreshable : bool) (q : list InputEvent) (w : World) :
  input_queue w = EVENT_NONE :: q ->
  let m := get_menu_selection E menu_only initial_selection refreshable in
  if text_ever_visible w then
    eval m w = eval m (set_input_queue q w)
    /\ input_queue (exec m w) = input_queue (exec m (set_input_queue q w))
  else
    eval m w = Done (-1)
    /\ emitted m w
       = [EvFlushKeys; EvStartMenu initial_selection;
          EvWaitInput EVENT_NONE; EvEndMenu]
    /\ input_queue (exec m w) = q.
Proof.
  intros Hq. cbn zeta. unfold get_menu_selection, eval, emitted, exec.
  repeat erewrite (bind_Done _ _ w) by reflexivity.
  repeat erewrite (bind_Done _ _ (set_input_queue q w)) by reflexivity.
  repeat erewrite bind_Done by reflexivity.
  cbn [input_queue set_trace set_input_queue]. rewrite Hq. cbn [length].
  rewrite menu_loop_S. cbn [input_queue set_trace]. rewrite Hq.
  cbn [text_ever_visible set_trace].
  destruct (text_ever_visible w) eqn:Hv.
  - unfold after_input. cbn [trace set_trace input_queue set_input_queue].
    destruct (menu_loop_untraced (S (length q)) menu_only refreshable
                initial_selection (-1) (set_input_queue q w)
                (((trace w ++ [EvFlushKeys])
                  ++ [EvStartMenu initial_selection])
                 ++ [EvWaitInput EVENT_NONE])) as [A1 B1].
    destruct (menu_loop_untraced (S (length q)) menu_only refreshable
                initial_selection (-1) (set_input_queue q w)
                ((trace w ++ [EvFlushKeys])
                 ++ [EvStartMenu initial_selection])) as [A2 B2].
    split; [exact (eq_trans A1 (eq_sym A2))|exact (eq_trans B1 (eq_sym B2))].
  - cbn. rewrite <- !List.app_assoc, drop_app_length. auto.
Qed.

(** *** yes_no and prompt_and_wipe_data *)

Ltac distinct_codes H :=
  let Hneg := fresh "Hneg" in
  let Hnd := fresh "Hnd" in
  destruct H as (Hneg & Hnd & ? & ? & ?);
  unfold primitives in Hneg, Hnd;
  repeat match goal with
         | H : Forall _ (_ :: _) |- _ => apply Forall_cons in H as [? H]
         end;
  repeat match goal with
         | H : NoDup (_ :: _) |- _ => apply NoDup_cons in H as [? H]
         end;
  repeat match goal with
         | H : _ ∉ _ :: _ |- _ => apply not_elem_of_cons in H as [? H]
         end.

Lemma not_refresh (r : Z) :
  codes_wf (codes E) ->
  menu_result (codes E) false r -> (r =? kRefresh (codes E)) = false.
Proof.
  intros Hwf Hr. apply Z.eqb_neq. intros ->. distinct_codes Hwf.
  destruct Hr as [Hr|[Hr|[Hr|[[_ Hr]|Hr]]]];
    first [ contradiction | discriminate Hr
          | symmetry in Hr; contradiction
          | apply Z.le_ngt in Hr; contradiction ].
Qed.

(** X20: a menu that is not refreshable never returns the Refresh
    sentinel, so [yes_no] shows its menu once; it answers yes exactly
    when item 1 was chosen, and no on Back, Home and a time-out. *)
Theorem yes_no_asks_once (w : World) :
  codes_wf (codes E) ->
  yes_no E w
  = (chosen_item <- get_menu_selection E true 0 false ;;
     ret (chosen_item =? 1)) w.
Proof.
  intros Hwf. unfold yes_no. erewrite bind_Done by reflexivity.
  cbn [yes_no_loop]. unfold bind.
  destruct (get_menu_selection_outcome true 0 false w) as (l & _ & Hres).
  cbn zeta in Hres. unfold eval in Hres.
  destruct (get_menu_selection E true 0 false w) as [[r|] w1];
    [|reflexivity].
  cbn [fst] in Hres. destruct Hres as [Hr _].
  now rewrite (not_refresh r Hwf Hr).
Qed.

Lemma get_menu_selection_grows (menu_only : bool) (initial_selection : Z)
    (refreshable : bool) :
  steps (get_menu_selection E menu_only initial_selection refreshable) grows.
Proof.
  intros w.
  destruct (get_menu_selection_outcome menu_only initial_selection
              refreshable w) as (l & Hl & _).
  eexists. exact Hl.
Qed.

Lemma yes_no_loop_grows (fuel : nat) : steps (yes_no_loop E fuel) grows.
Proof.
  induction fuel as [|fuel IH]; [intros w; reflexivity|].
  cbn [yes_no_loop]. apply (steps_bind grows).
  - apply get_menu_selection_grows.
  - intros c. destruct (c =? kRefresh (codes E));
      [exact IH|apply (steps_ret grows)].
Qed.

Lemma yes_no_grows : steps (yes_no E) grows.
Proof.
  unfold yes_no. apply (steps_bind grows);
    [apply (steps_get grows)|intros q; apply yes_no_loop_grows].
Qed.

Lemma erase_volume_grows (volume : string) :
  runs (erase_volume E volume) grows.
Proof.
  pose proof (copy_logs_grows E) as Hc.
  unfold erase_volume.
  repeat first [ exact Hc | runs_step grown ].
Qed.

(** [wipe_data] returns, and calls the pre-wipe hook on its way. *)
Lemma wipe_data_prewipe (w : World) :
  exists b w' l,
    wipe_data E w = (Done b, w')
    /\ trace w' = trace w ++ l /\ In EvPreWipeData l.
Proof.
  pose proof erase_volume_grows as He.
  unfold wipe_data.
  erewrite bind_Done by reflexivity.
  erewrite bind_Done by reflexivity.
  erewrite bind_Done by reflexivity.
  match goal with
  | |- exists b w' l, ?prog ?x = _ /\ _ =>
      assert (Hr : runs prog grows)
        by (repeat first [ apply He | runs_step grown ]);
      destruct (Hr x) as (b & w' & Eq & l & Hl)
  end.
  exists b, w'. eexists. split; [exact Eq|]. rewrite Hl. cbn [trace set_trace].
  rewrite <- !List.app_assoc. split; [reflexivity|].
  cbn. auto.
Qed.

Lemma prompt_and_wipe_data_loop_false (fuel : nat) (w w' : World) :
  prompt_and_wipe_data_loop E fuel w = (Done false, w') ->
  exists l, trace w' = trace w ++ l /\ In EvPreWipeData l.
Proof.
  revert w. induction fuel as [|fuel IH]; intros w; [discriminate|].
  cbn [prompt_and_wipe_data_loop]. unfold bind at 1.
  pose proof (get_menu_selection_grows true 0 false w) as [l1 H1].
  unfold exec in H1.
  destruct (get_menu_selection E true 0 false w) as [[c|] w1];
    [|discriminate].
  cbn [snd] in H1. destruct (c =? 1); cbn [negb]; [|discriminate].
  unfold ask_to_wipe_data, bind.
  pose proof (yes_no_grows w1) as [l2 H2]. unfold exec in H2.
  destruct (yes_no E w1) as [[yes|] w2]; [|discriminate].
  cbn [snd] in H2. destruct yes.
  - destruct (wipe_data_prewipe w2) as (b & w3 & l3 & Eq & H3 & Hin).
    rewrite Eq. intros [= -> <-]. exists (l1 ++ l2 ++ l3). split.
    + rewrite H3, H2, H1. now rewrite <- !List.app_assoc.
    + rewrite !in_app_iff. auto.
  - intros H. destruct (IH _ H) as (l3 & H3 & Hin).
    exists (l1 ++ l2 ++ l3). split.
    + rewrite H3, H2, H1. now rewrite <- !List.app_assoc.
    + rewrite !in_app_iff. auto.
Qed.

(** X21: [prompt_and_wipe_data] reports success without wiping anything
    when the first menu returns anything but item 1: Back, Home, a
    time-out and "Try again" all end it there, in the state the menu
    left.  It reports a failure only after [wipe_data] was called. *)
Theorem prompt_and_wipe_data_outcome (w : World) :
  let menu := get_menu_selection E true 0 false in
  let m := prompt_and_wipe_data E in
  (forall c, eval menu w = Done c -> c <> 1 -> m w = (Done true, exec menu w))
  /\ (eval m w = Done false -> In EvPreWipeData (emitted m w)).
Proof.
  cbn zeta. unfold prompt_and_wipe_data. split.
  - intros c Hc Hne. erewrite bind_Done by reflexivity.
    cbn [prompt_and_wipe_data_loop]. unfold bind, eval, exec in *.
    destruct (get_menu_selection E true 0 false w) as [[c'|] w1];
      [|discriminate].
    cbn [fst] in Hc. injection Hc as ->.
    apply Z.eqb_neq in Hne. now rewrite Hne.
  - unfold eval, emitted, exec. erewrite !bind_Done by reflexivity.
    destruct (prompt_and_wipe_data_loop E _ w) as [[[|]|] w'] eqn:Hl;
      try discriminate.
    intros _. apply prompt_and_wipe_data_loop_false in Hl as (l & Hl & Hin).
    cbn [snd]. now rewrite Hl, drop_app_length.
Qed.

End MenuFacts.

(** ** main: the end of the session *)

Section MainFacts.

Context (E : Env).

Lemma finish_recovery_clears (w : World) :
  exists w' l1 l2,
    finish_recovery E w = (Done tt, w')
    /\ trace w' = trace w ++ l1 ++ EvClearBcb :: l2
    /\ bcb w' = finish_bcb E (bcb w).
Proof.
  unfold finish_recovery.
  erewrite bind_Done by reflexivity.
  erewrite bind_Done by reflexivity.
  match goal with
  | |- context [bind ?m _ w] =>
      assert (H1 : runs m (both grows (same bcb)))
        by (runs_with ltac:(split; [grown|untouched]));
      destruct (H1 w) as ([] & w1 & E1 & [l1 T1] & B1)
  end.
  erewrite bind_Done by exact E1.
  destruct (copy_logs_traced E w1) as ([] & w2 & E2 & [l2 T2] & F2).
  erewrite bind_Done by exact E2.
  assert (B2 : bcb w2 = bcb w1) by (now injection F2).
  assert (Hc : clear_bootloader_message E w2
               = (Done (io_ok E OpBcbWrite),
                  (if io_ok E OpBcbWrite then set_bcb zeroed_message
                   else fun x => x)
                    (set_trace (trace w2 ++ [EvClearBcb]) w2))).
  { unfold clear_bootloader_message. run.
    destruct (io_ok E OpBcbWrite); reflexivity. }
  erewrite bind_Done by exact Hc. unfold finish_bcb.
  match goal with
  | |- context [bind ?m _ ?x] =>
      assert (H3 : runs (bind m (fun _ => sync)) (both grows (same bcb)))
        by (runs_with ltac:(split; [grown|untouched]));
      destruct (H3 x) as ([] & w3 & E3 & [l3 T3] & B3)
  end.
  exists w3, (l1 ++ l2), l3. split; [exact E3|]. split.
  - rewrite T3. destruct (io_ok E OpBcbWrite); cbn [trace set_trace set_bcb];
      rewrite T2, T1, <- !List.app_assoc; reflexivity.
  - rewrite B3. unfold same in *.
    destruct (io_ok E OpBcbWrite); cbn; congruence.
Qed.

(** X22: on the runs that do not enter [prompt_and_wait] (the command of
    [main] has returned, the text is not visible, and the status is not
    INSTALL_NONE or --sideload_auto_reboot was given), [main] runs
    [finish_recovery], which clears the control block, stops the volume
    manager and the UI, and only then prints its last message and sets
    the reboot property: a shutdown if --shutdown_after was given, a
    reboot otherwise; it never returns.  Nothing is said here of the runs
    that enter the menu. *)
Theorem main_finishes_before_reboot (o : options) (args : list string)
    (w w1 : World) (status : install_status) :
  run_command E o args w = (Done status, w1) ->
  (status_eqb status INSTALL_NONE && negb (sideload_auto_reboot o))
  || text_visible w1 = false ->
  let m := main_from_status E o args in
  let after := if shutdown_after o then SHUTDOWN else REBOOT in
  eval m w = Parked
  /\ (exists front back,
        trace (exec m w)
        = trace w1 ++ front ++ EvClearBcb :: back
          ++ [EvVolumesStop; EvSync; EvUiStop;
              EvPrint (fst (last_words E after));
              EvSetProperty (snd (last_words E after)); EvPause])
  /\ bcb (exec m w) = finish_bcb E (bcb w1).
Proof.
  intros Hrun Hskip. cbn zeta. unfold eval, exec, main_from_status.
  erewrite bind_Done by exact Hrun.
  match goal with
  | |- context [bind ?m _ w1] =>
      assert (H1 : runs m (both grows (same (fun x => (bcb x, text_visible x)))))
        by (runs_with ltac:(split; [grown|untouched]));
      destruct (H1 w1) as ([] & w2 & E2 & [l2 T2] & S2)
  end.
  erewrite bind_Done by exact E2.
  injection S2 as B2 V2.
  assert (Hw : waits_for_commands o status w2 = (Done false, w2)).
  { unfold waits_for_commands. run. now rewrite V2, Hskip. }
  erewrite bind_Done by exact Hw. cbv iota.
  erewrite bind_Done by reflexivity.
  destruct (finish_recovery_clears w2) as (w4 & l4 & l5 & E4 & T4 & B4).
  erewrite bind_Done by exact E4.
  erewrite bind_Done by reflexivity.
  erewrite bind_Done by reflexivity.
  erewrite bind_Done by reflexivity.
  assert (Hb : bcb w4 = finish_bcb E (bcb w1)) by congruence.
  assert (Ht : trace w4 = trace w1 ++ (l2 ++ l4) ++ EvClearBcb :: l5).
  { rewrite T4, T2. now rewrite <- !List.app_assoc. }
  unfold last_words, reboot, reboot_property, pause_forever.
  destruct (shutdown_after o); run;
    (split; [reflexivity|]); (split; [|exact Hb]);
    exists (l2 ++ l4), l5; rewrite Ht;
    rewrite <- !List.app_assoc; cbn [app]; reflexivity.
Qed.

(** *** An update leaves the user data alone *)

Lemma is_battery_ok_spares_data :
  runs (is_battery_ok E) (quiet is_data_wipe_event).
Proof.
  destruct (is_battery_ok_run E) as (b & l & H). intros w.
  destruct (H w) as [Eq Hl].
  exists b. eexists. split; [exact Eq|]. exists l. split; [reflexivity|].
  clear Eq H. unfold only. induction Hl as [|e l [->| ->] _ IH]; [reflexivity| |];
    rewrite filter_cons_False by (cbn; discriminate); exact IH.
Qed.

Lemma copy_logs_spares_data : runs (copy_logs E) (quiet is_data_wipe_event).
Proof. runs_with quietly. Qed.

Lemma wipe_cache_spares_data : runs (wipe_cache E) (quiet is_data_wipe_event).
Proof.
  pose proof copy_logs_spares_data as Hc.
  unfold wipe_cache, erase_volume.
  repeat first [ exact Hc | runs_step quietly ].
Qed.

Lemma pause_forever_quiet (A : Type) (P : Event -> bool) :
  P EvPause = false -> steps (@pause_forever A) (quiet P).
Proof.
  intros HP w. exists [EvPause]. split; [reflexivity|].
  unfold only. rewrite filter_cons_False by (rewrite HP; discriminate).
  reflexivity.
Qed.

Lemma install_update_spares_data (args : list string) (package : string)
    (n : Z) (wipe : bool) :
  steps (install_update E args package n wipe) (quiet is_data_wipe_event).
Proof.
  pose proof copy_logs_spares_data as Hc.
  pose proof wipe_cache_spares_data as Hw.
  pose proof is_battery_ok_spares_data as Hb.
  pose proof (fun A => pause_forever_quiet A is_data_wipe_event eq_refl) as Hp.
  unfold install_update, install_attempt, install_failed.
  repeat first [ apply Hp
               | apply (runs_steps _ _ Hc)
               | apply (runs_steps _ _ Hw)
               | apply (runs_steps _ _ Hb)
               | steps_step quietly ].
Qed.

(** X23: with an update package among the arguments, [main] runs the
    update and nothing else: whatever the other arguments ask for and
    however the installation ends, the command calls no wipe hook and
    formats no volume but /cache. *)
Theorem update_spares_user_data (o : options) (args : list string)
    (package : string) (w : World) :
  update_package o = Some package ->
  only is_data_wipe_event (emitted (run_command E o args) w) = [].
Proof.
  intros Hu. unfold run_command. rewrite Hu.
  destruct (install_update_spares_data args package (retry_count o)
              (should_wipe_cache o) w) as (l & Hl & Hq).
  now rewrite (emitted_grows _ _ _ Hl).
Qed.

End MainFacts.

(** ** Alternative invocations *)

Lemma get_command_in_found (cmds : list recovery_cmd) (command : string) :
  match cmd_name (get_command_in cmds command) with
  | Some name => name = command /\ In (get_command_in cmds command) cmds
  | None => ~ In command (cmd_names cmds)
  end.
Proof.
  induction cmds as [|c rest IH]; [cbn; tauto|].
  cbn [get_command_in cmd_names].
  destruct (cmd_name c) as [name|] eqn:Hc.
  - destruct (String.eqb_spec command name) as [->|Hne].
    + rewrite Hc. split; [reflexivity|now left].
    + destruct (cmd_name (get_command_in rest command)) as [n|].
      * destruct IH. split; [assumption|now right].
      * cbn. intros [H|H]; [congruence|contradiction].
  - rewrite Hc. cbn. tauto.
Qed.

(** X24: [get_command] returns the entry of the table that is named like
    the command, and the entry without a name exactly when the table has
    no entry of that name; and no entry of the table hides behind an
    earlier one of the same name. *)
Theorem get_command_finds (command : string) :
  match cmd_name (get_command command) with
  | Some name => name = command /\ In (get_command command) recovery_cmds
  | None => ~ In command (cmd_names recovery_cmds)
  end
  /\ NoDup (cmd_names recovery_cmds).
Proof.
  split; [apply get_command_in_found|].
  apply (bool_decide_unpack _). vm_compute. exact I.
Qed.

Lemma strrchr_slash_none (s : string) :
  has_slash s = false -> strrchr_slash s = None.
Proof.
  induction s as [|c s IH]; [reflexivity|].
  cbn [has_slash strrchr_slash]. intros H.
  apply orb_false_elim in H as [Hc Hs]. now rewrite (IH Hs), Hc.
Qed.

Lemma strrchr_slash_app (dir name : string) :
  has_slash name = false ->
  strrchr_slash (dir +:+ "/" +:+ name) = Some name.
Proof.
  intros Hn. induction dir as [|c dir IH].
  - change ("" +:+ "/" +:+ name) with (String "/" name).
    cbn [strrchr_slash]. now rewrite (strrchr_slash_none _ Hn).
  - change (String c dir +:+ "/" +:+ name)
      with (String c (dir +:+ "/" +:+ name)).
    cbn [strrchr_slash]. now rewrite IH.
Qed.

(** X25: the binary decides what it is by the last component of the path
    it was started under; the directories before it play no part.  (The
    single argument --adbd comes first.) *)
Theorem invoked_as_base_name (dir name : string) (argv_rest : list string) :
  has_slash name = false ->
  invoked_as (dir +:+ "/" +:+ name) argv_rest = invoked_as name argv_rest.
Proof.
  intros Hn. unfold invoked_as.
  now rewrite (strrchr_slash_app dir name Hn), (strrchr_slash_none name Hn).
Qed.

(** ** The files of /data that a debuggable build looks at *)

Section UserdataFacts.

Context (E : Env) (F : copy_faults).

Lemma length_substring_0 (n : nat) (s : string) :
  String.length (String.substring 0 n s) = Nat.min n (String.length s).
Proof.
  revert n. induction s as [|c s IH]; intros [|n]; cbn; try reflexivity.
  now rewrite IH.
Qed.

Lemma tmpdst_fresh (dst : string) :
  (String.length dst < PATH_MAX - 1)%nat ->
  String.substring 0 (PATH_MAX - 1) (dst +:+ ".tmp") <> dst.
Proof.
  intros Hlen Heq. apply (f_equal String.length) in Heq.
  rewrite length_substring_0, length_app in Heq. cbn [String.length] in Heq.
  lia.
Qed.


(** X27: [copy_userdata_files] changes nothing when /data does not mount.
    When it does, the user data is marked mountable, and marked not
    encrypted if the key version file is missing (it is never marked
    encrypted here); the adb keys are copied only when the root has none
    and /data has some, so keys that are in place are never overwritten;
    and /data, mounted once, is unmounted again. *)
Theorem copy_userdata_files_outcome (w : World) :
  let m := copy_userdata_files E F in
  let w' := exec m w in
  let present path :=
    match files w !! path with Some _ => true | None => false end in
  eval m w = Done tt
  /\ if io_ok E (OpMount "/data") then
       userdata_mountable w' = true
       /\ userdata_encrypted w'
          = userdata_encrypted w && present fbe_key_version
       /\ files w'
          = (if negb (present adb_keys_root) && present adb_keys_data
             then snd (file_copy E F adb_keys_data adb_keys_root (files w))
             else files w)
       /\ only is_volume_event (emitted m w)
          = [EvMount "/data"; EvUnmount "/data"]
     else
       (userdata_mountable w', userdata_encrypted w', files w')
       = (userdata_mountable w, userdata_encrypted w, files w)
       /\ only is_volume_event (emitted m w) = [EvMount "/data"].
Proof.
  cbn zeta. unfold copy_userdata_files, access, ensure_path_mounted,
    ensure_path_unmounted.
  run. destruct (io_ok E (OpMount "/data")); cbn.
  2:{ rewrite drop_app_length. auto. }
  destruct (files w !! fbe_key_version); cbn;
    destruct (files w !! adb_keys_root); cbn;
    destruct (files w !! adb_keys_data); cbn;
    rewrite <- ?List.app_assoc, drop_app_length;
    rewrite ?andb_true_r, ?andb_false_r; auto.
Qed.

End UserdataFacts.

(** ** The locale *)

Section LocaleFacts.

Context (E : Env).

Lemma load_locale_from_cache_run (w : World) :
  load_locale_from_cache E w
  = (Done (if io_ok E (OpMount LOCALE_FILE)
           then match files w !! LOCALE_FILE with
                | Some f => Trim (f_data f)
                | None => ""
                end
           else ""),
     set_trace (trace w ++ EvMount LOCALE_FILE
                :: (if io_ok E (OpMount LOCALE_FILE)
                    then [EvReadFile LOCALE_FILE] else [])) w).
Proof.
  unfold load_locale_from_cache, ensure_path_mounted, ReadFileToString. run.
  destruct (io_ok E (OpMount LOCALE_FILE)); cbn; [|reflexivity].
  rewrite <- List.app_assoc.
  destruct (files w !! LOCALE_FILE); reflexivity.
Qed.

(** X28: the locale that [finish_recovery] saves is the one the next
    start finds: with a cache volume that mounts and a locale file that
    can be written, [load_locale_from_cache] returns the saved locale
    trimmed, and [main] then runs under it, or under the default locale
    if nothing is left of it.  After [resolve_locale] the locale is never
    empty. *)
Theorem locale_survives_reboot (w : World) :
  has_cache w = true ->
  locale w <> "" ->
  io_ok E (OpMount LOCALE_FILE) = true ->
  io_ok E (OpWriteFile LOCALE_FILE) = true ->
  rotation_keeps E COMMAND_FILE -> rotation_keeps E LOCALE_FILE ->
  let next := set_locale "" (exec (finish_recovery E) w) in
  eval (load_locale_from_cache E) next = Done (Trim (locale w))
  /\ locale (exec (resolve_locale E) next)
     = (if String.eqb (Trim (locale w)) "" then DEFAULT_LOCALE
        else Trim (locale w))
  /\ forall x, locale (exec (resolve_locale E) x) <> "".
Proof.
  intros Hhc Hloc Hm Hw HC HL. cbn zeta.
  destruct (finish_recovery_run E w HC HL) as (w1 & E1 & F1).
  assert (Hexec1 : exec (finish_recovery E) w = w1) by (unfold exec; now rewrite E1).
  rewrite Hexec1. unfold finished in F1. injection F1 as _ _ Hfile _ Hc1 _.
  unfold finish_locale in Hfile. rewrite Hhc, Hm, Hw in Hfile.
  apply String.eqb_neq in Hloc. rewrite Hloc in Hfile. cbn in Hfile.
  assert (Hload : load_locale_from_cache E (set_locale "" w1)
                  = (Done (Trim (locale w)),
                     set_trace (trace w1 ++ [EvMount LOCALE_FILE;
                                             EvReadFile LOCALE_FILE])
                       (set_locale "" w1))).
  { rewrite load_locale_from_cache_run. rewrite Hm.
    cbn [files set_locale]. rewrite Hfile. now rewrite f_data_rewritten. }
  split; [unfold eval; now rewrite Hload|]. split.
  - unfold resolve_locale, exec.
    erewrite bind_Done by reflexivity. cbn [locale set_locale String.eqb].
    erewrite bind_Done by reflexivity. cbn [has_cache set_locale].
    rewrite Hc1, Hhc.
    erewrite bind_Done by (erewrite bind_Done by exact Hload; reflexivity).
    erewrite bind_Done by reflexivity. cbn [locale set_locale set_trace].
    destruct (String.eqb (Trim (locale w)) ""); reflexivity.
  - intros x. unfold resolve_locale, exec.
    erewrite bind_Done by reflexivity.
    destruct (String.eqb_spec (locale x) "") as [Hx|Hx]; [|exact Hx].
    erewrite bind_Done by reflexivity.
    assert (Hstep : exists x1,
              (if has_cache x
               then l <- load_locale_from_cache E ;; modify (set_locale l)
               else ret tt) x = (Done tt, x1)).
    { destruct (has_cache x); [|eauto].
      eexists. erewrite bind_Done by apply load_locale_from_cache_run.
      reflexivity. }
    destruct Hstep as (x1 & Hstep).
    erewrite bind_Done by exact Hstep.
    erewrite bind_Done by reflexivity.
    destruct (String.eqb_spec (locale x1) "") as [H1|H1]; cbn; [|exact H1].
    discriminate.
Qed.

End LocaleFacts.

(** ** The menus of the update from storage *)

Section StorageMenuFacts.

Lemma offer_volumes_spec (m e : bool) (volumes : list VolumeInfo)
    (items : list string) :
  offer_volumes m e volumes items
  = (filter (fun v => offered m e v = true) volumes,
     items ++ map (fun v => "Choose from " +:+ mLabel v)
                (filter (fun v => offered m e v = true) volumes)).
Proof.
  revert items. induction volumes as [|vol rest IH]; intros items.
  - cbn. now rewrite app_nil_r.
  - cbn [offer_volumes].
    destruct (mMountable vol) eqn:Hm; cbn [negb].
    + destruct (String.eqb (mLabel vol) "emulated" && (negb m || e)) eqn:Hs.
      * rewrite filter_cons_False
          by (unfold offered; rewrite Hm, Hs; discriminate).
        apply IH.
      * rewrite IH, filter_cons_True
          by (unfold offered; rewrite Hm, Hs; reflexivity).
        cbn [map]. now rewrite <- List.app_assoc.
    + rewrite filter_cons_False by (unfold offered; rewrite Hm; discriminate).
      apply IH.
Qed.

Lemma lookup_map {A B : Type} (f : A -> B) (l : list A) (i : nat) (x : A) :
  l !! i = Some x -> map f l !! i = Some (f x).
Proof.
  revert i. induction l as [|y l IH]; intros [|i]; cbn; try discriminate.
  - now intros [= ->].
  - apply IH.
Qed.

(** X29: in the menu "Apply update" the item after the first that is
    numbered i + 1 names the volume numbered i among those kept, which is
    the volume [apply_from_storage] is then given; the volumes kept are
    the mountable ones, without the emulated storage unless the user data
    is mountable and not encrypted. *)
Theorem apply_update_menu_lines_up (volumes : list VolumeInfo) (w : World) :
  let kept := fst (apply_update_menu volumes w) in
  let items := snd (apply_update_menu volumes w) in
  items !! O = Some "Apply from ADB"
  /\ length items = S (length kept)
  /\ (forall i v, kept !! i = Some v ->
                  items !! S i = Some ("Choose from " +:+ mLabel v))
  /\ (forall v, v ∈ kept <->
                v ∈ volumes /\ mMountable v = true
                /\ (mLabel v = "emulated" ->
                    userdata_mountable w = true
                    /\ userdata_encrypted w = false)).
Proof.
  cbn zeta. unfold apply_update_menu. rewrite offer_volumes_spec.
  cbn [fst snd app]. split; [reflexivity|]. split.
  { cbn [length]. now rewrite length_map. }
  split.
  { intros i v Hi. cbn.
    now apply (lookup_map (fun v => "Choose from " +:+ mLabel v)). }
  intros v. rewrite list_elem_of_filter. unfold offered.
  destruct (mMountable v); cbn [andb].
  2:{ split; [intros [? _]; discriminate|intros (_ & ? & _); discriminate]. }
  destruct (String.eqb_spec (mLabel v) "emulated") as [He|He]; cbn [andb negb].
  - destruct (userdata_mountable w), (userdata_encrypted w); cbn;
      split; try (intros [? _]; discriminate);
      try (intros (Hin & _ & H); destruct (H He); discriminate).
    + intros [_ Hin]. auto.
    + intros [Hin _]. auto.
  - split; [intros [_ Hin]; split; [exact Hin|]; split; [reflexivity|];
            intros; contradiction|intros (Hin & _); auto].
Qed.

(** *** The order of strings *)

Lemma ascii_compare_refl (x : ascii) : Ascii.compare x x = Eq.
Proof. unfold Ascii.compare. apply N.compare_refl. Qed.

Lemma ascii_compare_lt_trans (x y z : ascii) :
  Ascii.compare x y = Lt -> Ascii.compare y z = Lt -> Ascii.compare x z = Lt.
Proof.
  unfold Ascii.compare. rewrite !N.compare_lt_iff. apply N.lt_trans.
Qed.

Global Instance string_le_trans : Transitive string_le.
Proof.
  unfold string_le, String.leb. intros a.
  induction a as [|x a IH]; intros [|y b] [|z c]; cbn; try congruence.
  destruct (Ascii.compare x y) eqn:Hxy; try discriminate;
    destruct (Ascii.compare y z) eqn:Hyz; try discriminate.
  - apply Ascii.compare_eq_iff in Hxy, Hyz. subst.
    rewrite ascii_compare_refl. apply IH.
  - apply Ascii.compare_eq_iff in Hxy. subst. now rewrite Hyz.
  - apply Ascii.compare_eq_iff in Hyz. subst. now rewrite Hxy.
  - now rewrite (ascii_compare_lt_trans _ _ _ Hxy Hyz).
Qed.

Global Instance string_le_total : Total string_le.
Proof. intros a b. apply String.leb_total. Qed.

Lemma string_le_refl (a : string) : string_le a a.
Proof. destruct (string_le_total a a); assumption. Qed.

Lemma browse_entries_spec (entries : list dirent) (dirs zips : list string) :
  browse_entries entries dirs zips
  = (dirs ++ listed_dirs entries, zips ++ listed_zips entries).
Proof.
  revert dirs zips. induction entries as [|de rest IH]; intros dirs zips.
  - cbn. now rewrite !app_nil_r.
  - cbn [browse_entries]. unfold listed_dirs, listed_zips.
    cbn [omap list_omap]. fold (listed_dirs rest). fold (listed_zips rest).
    destruct (d_type de).
    + destruct (String.eqb (d_name de) "." || String.eqb (d_name de) "..");
        rewrite IH; [reflexivity|]. now rewrite <- List.app_assoc.
    + destruct (EndsWithIgnoreCase (d_name de) ".zip");
        rewrite IH; [|reflexivity]. now rewrite <- List.app_assoc.
    + apply IH.
Qed.

(** The head of a sorted list is the least of its elements. *)
Lemma merge_sort_head (x : string) (l : list string) :
  hd_error (merge_sort string_le (x :: l)) = Some x
  <-> Forall (string_le x) l.
Proof.
  pose proof (StronglySorted_merge_sort string_le (x :: l)) as Hs.
  pose proof (merge_sort_Permutation string_le (x :: l)) as Hp.
  destruct (merge_sort string_le (x :: l)) as [|h t] eqn:Hm.
  { apply Permutation_nil_l in Hp. discriminate. }
  apply StronglySorted_inv in Hs as [_ Hh]. cbn [hd_error].
  rewrite Forall_forall in Hh. split.
  - intros [= ->]. apply Forall_forall. intros z Hz.
    assert (Hin : z ∈ x :: t).
    { rewrite Hp. now right. }
    apply elem_of_cons in Hin as [->|Hin]; [apply string_le_refl|].
    now apply Hh.
  - intros Hall. f_equal. rewrite Forall_forall in Hall.
    assert (Hhx : h ∈ x :: l) by (rewrite <- Hp; left).
    assert (Hxh : x ∈ h :: t) by (rewrite Hp; left).
    apply String.leb_antisym.
    + apply elem_of_cons in Hxh as [->|Hxh]; [apply string_le_refl|].
      now apply Hh.
    + apply elem_of_cons in Hhx as [->|Hhx]; [apply string_le_refl|].
      now apply Hall.
Qed.

(** X30: the menu of [browse_directory] lists the entry for the parent
    and the packages, sorted together, and after them the directories,
    sorted; every package and every directory but "." and ".." is listed
    once.  The entry for the parent is item 0, the one the code takes for
    "go up", exactly when no package has a name that sorts before "../". *)
Theorem browse_items_listing (entries : list dirent) :
  browse_items entries
  = merge_sort string_le ("../" :: listed_zips entries)
    ++ merge_sort string_le (listed_dirs entries)
  /\ browse_items entries
     ≡ₚ "../" :: listed_zips entries ++ listed_dirs entries
  /\ (hd_error (browse_items entries) = Some "../"
      <-> Forall (string_le "../") (listed_zips entries)).
Proof.
  unfold browse_items. rewrite browse_entries_spec. cbn [app].
  split; [reflexivity|]. split.
  - rewrite !merge_sort_Permutation. reflexivity.
  - rewrite <- merge_sort_head.
    destruct (merge_sort string_le ("../" :: listed_zips entries)) eqn:Hm;
      [|reflexivity].
    pose proof (merge_sort_Permutation string_le
                  ("../" :: listed_zips entries)) as Hp.
    rewrite Hm in Hp. apply Permutation_nil_l in Hp. discriminate.
Qed.

End StorageMenuFacts.

(** * Runs on the example device *)




(** C2, as stated, fails whenever the breadcrumb can be made: the volume
    is formatted, and with a formatter that fails the erase fails. *)
Lemma convert_fbe_formats_data :
  let w := set_reason (Some "convert_fbe") example_world in
  let m := erase_volume failing_format_env DATA_ROOT in
  eval m w = Done false
  /\ filter (fun e => is_format_event e = true) (emitted m w)
     = [EvFormat DATA_ROOT (Some CONVERT_FBE_DIR)].
Proof. vm_compute. split; reflexivity. Qed.

Lemma erase_data_convert_fbe_witness :
  reason (set_reason (Some "convert_fbe") example_world) = Some "convert_fbe"
  /\ eval (erase_volume example_env DATA_ROOT)
       (set_reason (Some "convert_fbe") example_world) = Done true.
Proof.
  split; [reflexivity|].
  pose proof (erase_data_convert_fbe example_env
                (set_reason (Some "convert_fbe") example_world) eq_refl) as H.
  cbv zeta in H.
  change (io_ok example_env (OpMkdir CONVERT_FBE_DIR)) with true in H.
  change (io_ok example_env (OpOpenWrite CONVERT_FBE_FILE)) with true in H.
  cbv iota in H. destruct H as [H _]. exact H.
Defined.

(** C3, as stated, fails when the marker stands alone: with the recovery
    field "recovery" and a line break, which is what
    [set_sdcard_update_bootloader_message] leaves, no line after the marker
    is kept, and with a cache volume [get_args] mounts and reads the
    command file and returns its arguments. *)
Lemma marker_alone_reads_command_file :
  let w := set_bcb (BootMsg "boot-recovery" "" ("recovery" +:+ NL) "")
             example_world in
  let m := get_args example_env "recovery" [] in
  Split (c_str_terminated RECOVERY_FIELD_SIZE (bm_recovery (bcb w))) newline
  = ["recovery"; ""]
  /\ eval m w = Done ["recovery"; "--wipe_cache"]
  /\ emitted m w
     = [EvReadBcb; EvMount COMMAND_FILE; EvReadFile COMMAND_FILE;
        EvUpdateBcb ["--wipe_cache"]].
Proof. vm_compute. repeat split; reflexivity. Qed.

(** The scenario of the specification: the control block holds the
    pending update and no argument is given. *)
Lemma get_args_from_control_block_witness :
  eval (get_args example_env "recovery" []) (set_bcb pending_update example_world)
  = Done ["recovery"; "--update_package=/cache/a.zip"; "--retry_count=2"]
  /\ emitted (get_args example_env "recovery" [])
       (set_bcb pending_update example_world)
     = [EvReadBcb;
        EvUpdateBcb ["--update_package=/cache/a.zip"; "--retry_count=2"]].
Proof.
  destruct (get_args_from_control_block example_env "recovery"
              ["--update_package=/cache/a.zip"; "--retry_count=2"; ""]
              (set_bcb pending_update example_world))
    as (H1 & H2 & _).
  - reflexivity.
  - vm_compute. reflexivity.
  - vm_compute. discriminate.
  - split; [exact H1|exact H2].
Defined.



(** The wipe package of the example device is accepted, and its metadata
    is as the theorem says. *)
Lemma wipe_ab_device_accepts_only_if_witness :
  eval (wipe_ab_device example_env 1) example_world = Done true
  /\ exists package metadata,
       wipe_package example_env 1 = Some package
       /\ verify_package_fn example_env package = true
       /\ archive_metadata example_env package = Some (Some metadata)
       /\ In "ota-type=BRICK" (Split metadata newline)
       /\ (forall v,
             metadata_field "pre-device" (Split metadata newline) = Some v ->
             v = prop_product example_env)
       /\ (forall v,
             metadata_field "serialno" (Split metadata newline) = Some v ->
             v = prop_serialno example_env).
Proof.
  assert (H : eval (wipe_ab_device example_env 1) example_world = Done true)
    by (vm_compute; reflexivity).
  split; [exact H|].
  exact (wipe_ab_device_accepts_only_if example_env 1 example_world H).
Defined.

Lemma example_codes_wf : codes_wf (codes example_env).
Proof.
  unfold codes_wf, primitives. cbn. split; [|split].
  - repeat constructor.
  - apply (bool_decide_unpack _). vm_compute. exact I.
  - repeat split; discriminate.
Qed.

(** On the example device a key is its own action: the keys -7, -8 and -9
    are Back, Home and Refresh. *)
Lemma menu_loop_navigation_witness :
  eval (menu_loop example_env 1 true false 3 (-1))
    (set_input_queue [EVENT_KEY (-7)] example_world) = Done (-7)
  /\ eval (menu_loop example_env 1 true false 3 (-1))
       (set_input_queue [EVENT_KEY (-8)] example_world) = Done (-8)
  /\ eval (menu_loop example_env 1 true true 3 (-1))
       (set_input_queue [EVENT_KEY (-9)] example_world) = Done (-9)
  /\ eval (menu_loop example_env 1 true false 3 (-1))
       (set_input_queue [EVENT_KEY (-9)] example_world) = Parked.
Proof.
  pose proof (fun refreshable key =>
    menu_loop_navigation example_env 0 true refreshable 3 (EVENT_KEY key) []
      (set_input_queue [EVENT_KEY key] example_world)
      example_codes_wf eq_refl ltac:(discriminate)) as H.
  cbv zeta in H.
  destruct (H false (-7)) as (Hback & _).
  destruct (H false (-8)) as (_ & Hhome & _).
  destruct (H true (-9)) as (_ & _ & Hrefresh).
  destruct (H false (-9)) as (_ & _ & Hswallow).
  split; [apply Hback; reflexivity|].
  split; [apply Hhome; reflexivity|].
  split; [apply (Hrefresh eq_refl)|].
  unfold eval. rewrite (Hswallow eq_refl). reflexivity.
Defined.

(** On a nearly empty battery the update is skipped with error 20. *)
Lemma install_update_skipped_witness :
  eval (is_battery_ok low_battery_env) example_world = Done false
  /\ eval (install_update low_battery_env (update_args 0) "/cache/a.zip" 0
             false) example_world = Done INSTALL_SKIPPED
  /\ f_data <$> files (exec (install_update low_battery_env (update_args 0)
                               "/cache/a.zip" 0 false) example_world)
                !! TEMPORARY_INSTALL_FILE
     = Some ("/cache/a.zip" +:+ NL +:+ "0" +:+ NL +:+ "error: 20").
Proof.
  assert (H : eval (is_battery_ok low_battery_env) example_world = Done false)
    by (vm_compute; reflexivity).
  split; [exact H|].
  destruct (install_update_skipped low_battery_env (update_args 0)
              "/cache/a.zip" 0 false example_world (or_introl H))
    as (H1 & _ & _ & H4).
  split; [exact H1|]. exact (H4 eq_refl).
Defined.

Lemma example_rotate_keeps (path : string) :
  path <> LAST_LOG_FILE -> path <> LAST_LOG_FILE +:+ ".1" ->
  path <> LAST_KMSG_FILE -> path <> LAST_KMSG_FILE +:+ ".1" ->
  rotation_keeps example_env path.
Proof.
  intros H1 H2 H3 H4 [|n] fs; [|reflexivity].
  cbn [rotate_logs_fn example_env example_rotate]. unfold rename.
  destruct (fs !! LAST_LOG_FILE) eqn:Hl.
  - destruct (<[_ := _]> (delete LAST_LOG_FILE fs) !! LAST_KMSG_FILE).
    + now rewrite lookup_insert_ne, lookup_delete_ne, lookup_insert_ne,
        lookup_delete_ne.
    + now rewrite lookup_insert_ne, lookup_delete_ne.
  - destruct (fs !! LAST_KMSG_FILE); [|reflexivity].
    now rewrite lookup_insert_ne, lookup_delete_ne.
Qed.

(** Two calls in a row on the example device. *)
Lemma finish_recovery_idempotent_witness :
  let w1 := exec (finish_recovery example_env) example_world in
  let w2 := exec (finish_recovery example_env) w1 in
  finished w2 = finished w1
  /\ bcb w1 = zeroed_message
  /\ files w1 !! COMMAND_FILE = None
  /\ rotations w1 = O.
Proof.
  destruct (finish_recovery_idempotent example_env example_world)
    as (_ & _ & H & Hb & Hc & Hm).
  - apply example_rotate_keeps; cbv; discriminate.
  - apply example_rotate_keeps; cbv; discriminate.
  - split; [exact H|]. split; [exact (Hb eq_refl)|].
    split; [exact (Hc eq_refl eq_refl eq_refl)|].
    destruct (Hm eq_refl) as [Hp _].
    exact (f_equal (fun t => snd (fst t)) Hp).
Defined.

(** The next boot after the first retry on that device: the control
    block gives back the pending update with counter 1 (and the program
    name that [main] handed to [set_retry_bootloader_message] with the
    other arguments). *)
Lemma resume_after_retry :
  let w := exec (install_attempt retrying_env (update_args 0) "/cache/a.zip"
                   0 false) example_world in
  eval (get_args retrying_env "recovery" []) w
  = Done ["recovery"; "recovery"; "--update_package=/cache/a.zip";
          "--retry_count=1"].
Proof. vm_compute. reflexivity. Qed.

(** [--wipe_ab] without [--wipe_package_size] ends in INSTALL_ERROR. *)
Lemma wipe_ab_without_size :
  let o := Options None false false false true 0 false false false false 0 in
  eval (run_command example_env o ["recovery"; "--wipe_ab"]) example_world
  = Done INSTALL_ERROR.
Proof. vm_compute. reflexivity. Qed.

(** ** More runs on the example device *)

(** The command file of the example device supplies the arguments when
    the command line and the control block have none. *)
Lemma get_args_command_file_witness :
  bcb_arguments example_env example_world = []
  /\ eval (get_args example_env "recovery" []) example_world
     = Done ["recovery"; "--wipe_cache"].
Proof.
  split; [reflexivity|].
  pose proof (get_args_command_file example_env "recovery" example_world _
                eq_refl eq_refl eq_refl eq_refl) as H.
  cbv zeta in H. destruct H as [H _]. exact H.
Defined.

Lemma wipe_data_option_storable : storable ["--wipe_data"].
Proof.
  split.
  - repeat constructor; discriminate.
  - apply Nat.leb_le. reflexivity.
Defined.

(** An option of the command line is found again at the next start. *)
Lemma get_args_resumes_witness :
  bcb_writable example_env = true
  /\ eval (get_args example_env "recovery" [])
       (exec (get_args example_env "recovery" ["--wipe_data"]) example_world)
     = Done ["recovery"; "--wipe_data"].
Proof.
  split; [reflexivity|].
  pose proof (get_args_resumes example_env "recovery" "recovery"
                ["--wipe_data"] example_world eq_refl
                ltac:(discriminate) wipe_data_option_storable) as H.
  cbv zeta in H. destruct H as [H _]. exact H.
Defined.

Lemma first_retry_storable : storable (persisted 1 (update_args 0)).
Proof.
  split.
  - repeat constructor; discriminate.
  - apply Nat.leb_le. reflexivity.
Defined.

(** The arguments of the update come back with the program name among
    them, as [main] hands all of [args] to the retry counter. *)
Lemma retry_count_resumes_witness :
  bcb_writable example_env = true
  /\ eval (get_args example_env "recovery" [])
       (exec (set_retry_bootloader_message example_env 1 (update_args 0))
          example_world)
     = Done ["recovery"; "recovery"; "--update_package=/cache/a.zip";
             "--retry_count=1"].
Proof.
  split; [reflexivity|].
  pose proof (retry_count_resumes example_env 1 (update_args 0) "recovery"
                example_world eq_refl first_retry_storable) as H.
  cbv zeta in H. destruct H as [H _]. exact H.
Defined.

(** The log of the example device is appended to the session log, and
    what is logged after that is appended by the next copy. *)
Lemma copy_log_file_appends_new_bytes_witness :
  let copy := copy_log_file example_env TEMPORARY_LOG_FILE LOG_FILE true in
  let w1 := exec copy example_world in
  let grown := File ("recovery started" +:+ ", done") 438 0 0 in
  let w2 :=
    exec copy (set_files (<[TEMPORARY_LOG_FILE := grown]> (files w1)) w1) in
  TEMPORARY_LOG_FILE <> LOG_FILE
  /\ f_data <$> files w1 !! LOG_FILE = Some "older logrecovery started"
  /\ f_data <$> files w2 !! LOG_FILE
     = Some "older logrecovery started, done".
Proof.
  cbv zeta.
  assert (Hne : TEMPORARY_LOG_FILE <> LOG_FILE) by discriminate.
  split; [exact Hne|].
  pose proof (copy_log_file_appends_new_bytes example_env TEMPORARY_LOG_FILE
                LOG_FILE ", done" example_world
                (File "recovery started" 438 0 0) Hne eq_refl eq_refl eq_refl
                ltac:(apply Nat.leb_le; reflexivity)) as H.
  cbv zeta in H. destruct H as (H1 & _ & H2 & _). split; [exact H1|exact H2].
Defined.

Lemma example_rotate_keeps_logs :
  rotation_keeps example_env LOG_FILE
  /\ rotation_keeps example_env TEMPORARY_LOG_FILE.
Proof. split; apply example_rotate_keeps; discriminate. Defined.

(** A second [copy_logs] adds nothing to the session log. *)
Lemma copy_logs_appends_once_witness :
  let w := set_modified_flash true example_world in
  let w1 := exec (copy_logs example_env) w in
  let w2 := exec (copy_logs example_env) w1 in
  modified_flash w = true
  /\ f_data <$> files w1 !! LOG_FILE = Some "older logrecovery started"
  /\ f_data <$> files w2 !! LOG_FILE = f_data <$> files w1 !! LOG_FILE.
Proof.
  cbv zeta. split; [reflexivity|].
  pose proof (copy_logs_appends_once example_env
                (set_modified_flash true example_world)
                (File "recovery started" 438 0 0) eq_refl eq_refl eq_refl
                eq_refl (proj1 example_rotate_keeps_logs)
                (proj2 example_rotate_keeps_logs) eq_refl
                ltac:(apply Nat.leb_le; reflexivity)) as H.
  cbv zeta in H. destruct H as (H1 & _ & H2 & _). split; [exact H1|exact H2].
Defined.

(** The example device without its cache volume: the logs go to pmsg. *)
Lemma copy_logs_without_cache_witness :
  let w := without_cache (set_modified_flash true example_world) in
  has_cache w = false
  /\ pmsg (exec (copy_logs example_env) w)
     = [(LAST_LOG_FILE, "recovery started"); (LAST_INSTALL_FILE, "")]
  /\ files (exec (copy_logs example_env) w) = files w.
Proof.
  cbv zeta. split; [reflexivity|].
  pose proof (copy_logs_without_cache example_env
                (without_cache (set_modified_flash true example_world))
                eq_refl eq_refl) as H.
  cbv zeta in H. destruct H as (_ & _ & H1 & H2). split; [exact H1|].
  exact (f_equal (fun t => fst (fst t)) H2).
Defined.

(** The erase of /cache on the example device. *)
Lemma erase_volume_reports_format_witness :
  String.eqb CACHE_ROOT DATA_ROOT = false
  /\ eval (erase_volume example_env CACHE_ROOT) example_world = Done true
  /\ only is_format_event
       (emitted (erase_volume example_env CACHE_ROOT) example_world)
     = [EvFormat CACHE_ROOT None].
Proof.
  split; [reflexivity|].
  exact (erase_volume_reports_format example_env CACHE_ROOT example_world
           eq_refl).
Defined.

(** The three formats of a data wipe on the example device. *)
Lemma wipe_data_formats_witness :
  reason_is (reason example_world) "convert_fbe" = false
  /\ only is_format_event (emitted (wipe_data example_env) example_world)
     = [EvFormat DATA_ROOT None; EvFormat CACHE_ROOT None;
        EvFormat METADATA_ROOT None].
Proof.
  split; [reflexivity|].
  exact (wipe_data_formats example_env example_world eq_refl).
Defined.

(** The one partition that the list of the example device names. *)
Lemma wipe_ab_device_wipes_listed_witness :
  eval (check_wipe_package example_env 1) example_world = Done true
  /\ eval (wipe_ab_device example_env 1) example_world = Done true
  /\ opened_devices (emitted (wipe_ab_device example_env 1) example_world)
     = ["/dev/block/userdata"].
Proof.
  split; [reflexivity|].
  exact (wipe_ab_device_wipes_listed example_env 1 example_world eq_refl).
Defined.

(** A time-out with the text never shown ends the menu. *)
Lemma get_menu_selection_timeout_witness :
  let w := set_input_queue [EVENT_NONE; EVENT_KEY 5] example_world in
  input_queue w = [EVENT_NONE; EVENT_KEY 5]
  /\ eval (get_menu_selection example_env true 0 false) w = Done (-1)
  /\ input_queue (exec (get_menu_selection example_env true 0 false) w)
     = [EVENT_KEY 5].
Proof.
  cbv zeta. split; [reflexivity|].
  pose proof (get_menu_selection_timeout example_env true 0 false
                [EVENT_KEY 5]
                (set_input_queue [EVENT_NONE; EVENT_KEY 5] example_world)
                eq_refl) as H.
  cbv zeta in H. destruct H as (H1 & _ & H2). split; [exact H1|exact H2].
Defined.

(** [yes_no] on the example device, with a time-out as the answer. *)
Lemma yes_no_asks_once_witness :
  let w := set_input_queue [EVENT_NONE] example_world in
  codes_wf (codes example_env)
  /\ yes_no example_env w
     = (chosen_item <- get_menu_selection example_env true 0 false ;;
        ret (chosen_item =? 1)) w.
Proof.
  cbv zeta. split; [exact example_codes_wf|].
  exact (yes_no_asks_once example_env
           (set_input_queue [EVENT_NONE] example_world) example_codes_wf).
Defined.

(** A wipe of the cache from the command line, with the text hidden: the
    menu is not entered, the session is finished, the control block
    cleared, and [main] does not return. *)
Lemma main_finishes_before_reboot_witness :
  let args := ["recovery"; "--wipe_cache"] in
  let m := main_from_status example_env wipe_cache_options args in
  let w1 := exec (run_command example_env wipe_cache_options args)
              example_world in
  eval (run_command example_env wipe_cache_options args) example_world
  = Done INSTALL_SUCCESS
  /\ text_visible w1 = false
  /\ eval m example_world = Parked
  /\ bcb (exec m example_world) = zeroed_message.
Proof.
  cbv zeta. split; [reflexivity|]. split; [reflexivity|].
  pose proof (main_finishes_before_reboot example_env wipe_cache_options
                ["recovery"; "--wipe_cache"] example_world
                (exec (run_command example_env wipe_cache_options
                         ["recovery"; "--wipe_cache"]) example_world)
                INSTALL_SUCCESS ltac:(vm_compute; reflexivity)
                ltac:(vm_compute; reflexivity)) as H.
  cbv zeta in H. destruct H as (H1 & _ & H2). split; [exact H1|exact H2].
Defined.

(** An update on the example device wipes nothing of the user. *)
Lemma update_spares_user_data_witness :
  update_package (update_options 0) = Some "/cache/a.zip"
  /\ only is_data_wipe_event
       (emitted (run_command example_env (update_options 0) (update_args 0))
          example_world)
     = [].
Proof.
  split; [reflexivity|].
  exact (update_spares_user_data example_env (update_options 0)
           (update_args 0) "/cache/a.zip" example_world eq_refl).
Defined.

(** The shell, started by its full path. *)
Lemma invoked_as_base_name_witness :
  has_slash "sh" = false
  /\ invoked_as "/sbin/sh" [] = RunTool (Some mksh_main).
Proof.
  split; [reflexivity|].
  exact (eq_trans (invoked_as_base_name "/sbin" "sh" [] eq_refl) eq_refl).
Defined.


Lemma example_rotate_keeps_settings :
  rotation_keeps example_env COMMAND_FILE
  /\ rotation_keeps example_env LOCALE_FILE.
Proof. split; apply example_rotate_keeps; discriminate. Defined.

(** The locale of the example device at the next start. *)
Lemma locale_survives_reboot_witness :
  let next := set_locale "" (exec (finish_recovery example_env) example_world) in
  locale example_world <> ""
  /\ eval (load_locale_from_cache example_env) next = Done "en-US"
  /\ locale (exec (resolve_locale example_env) next) = "en-US".
Proof.
  cbv zeta.
  assert (Hl : locale example_world <> "") by discriminate.
  split; [exact Hl|].
  pose proof (locale_survives_reboot example_env example_world eq_refl Hl
                eq_refl eq_refl (proj1 example_rotate_keeps_settings)
                (proj2 example_rotate_keeps_settings)) as H.
  cbv zeta in H. destruct H as (H1 & H2 & _). split; [exact H1|exact H2].
Defined.
